(** * loadBot: metrics aggregation, threshold verdicts, load patterns,
      safety score and history ring

    A shallow embedding of the pure helpers of the load-test engine
    ([computeMetrics], [evaluateThresholds], [shouldAutoStop],
    [getConcurrencyAtWithDuration], [computeSafetyScore], [addToHistory])
    and of the result construction of [runOneRequest].

    The TypeScript code computes on the JavaScript type [number], the
    binary64 floats.  The functions below are written once, over an
    interface [Number] that provides exactly the arithmetic the source
    uses, and the interface has two instances:

    - [IEEENumber]: the kernel's binary64 floats, with [Math.floor],
      [Math.ceil] and [Math.round] computed exactly from the bit pattern.
      This is the arithmetic of the program.
    - [QNumber]: exact rational arithmetic, the arithmetic of the
      formulas of the specification.

    A property whose truth depends on how a quotient, a product or a
    comparison is rounded is stated over the interface, with the
    operations and the comparisons of the program, and proved for every
    instance: it holds of binary64 as it holds of the rationals.  Where
    a formula of the specification and the binary64 program part, a
    closed lemma evaluates both.  The properties proved for [QNumber]
    alone are those that rounding leaves alone: counts, which are
    integers, orders and bounds, and the shape of rounded values. *)

From Stdlib Require Import ZArith QArith Qround Qminmax Lqa Lia.
From Stdlib Require Import List Bool String Permutation.
From Stdlib Require Sorted.
From Stdlib Require Import PrimFloat FloatOps FloatAxioms SpecFloat Uint63.
Import ListNotations.

Set Implicit Arguments.

(** ** The JavaScript [number] interface *)

Declare Scope num_scope.
Delimit Scope num_scope with num.

Class Number (num : Type) : Type := {
  (** an integer literal, or an array length *)
  of_Z : Z -> num;
  (** a decimal literal, written as the fraction it denotes: [dec 95 100] is 0.95 *)
  dec : Z -> positive -> num;
  add : num -> num -> num;
  sub : num -> num -> num;
  mul : num -> num -> num;
  div : num -> num -> num;
  ltb : num -> num -> bool;
  leb : num -> num -> bool;
  eqb : num -> num -> bool;
  (** [Math.floor], [Math.ceil], [Math.round] (ties go up) *)
  Math_floor : num -> num;
  Math_ceil : num -> num;
  Math_round : num -> num;
  (** the array index denoted by an integral number *)
  to_index : num -> Z
}.

Notation "x + y" := (add x y) : num_scope.
Notation "x - y" := (sub x y) : num_scope.
Notation "x * y" := (mul x y) : num_scope.
Notation "x / y" := (div x y) : num_scope.
Notation "x <? y" := (ltb x y) : num_scope.
Notation "x <=? y" := (leb x y) : num_scope.
Notation "x >? y" := (ltb y x) : num_scope.
Notation "x >=? y" := (leb y x) : num_scope.
Notation "x === y" := (eqb x y) (at level 70, no associativity) : num_scope.
Notation "0" := (of_Z 0) : num_scope.
Notation "1" := (of_Z 1) : num_scope.

(** The one law of [<] that properties over the interface rest on: no
    number is below itself.  Both instances have it (see
    [float_StrictLess]: on binary64 a NaN is below nothing). *)
Class StrictLess (num : Type) `{Number num} : Prop :=
  ltb_irrefl : forall x : num, (x <? x)%num = false.

Arguments StrictLess num {_}.

(** *** Exact rationals

    The arithmetic in which the formulas of the specification are
    read.  It agrees with the program wherever every value involved is
    a double and no operation rounds, as for counts and their sums; a
    quotient, a product with a decimal literal and what is compared or
    rounded after them can differ on binary64. *)

#[export] Instance QNumber : Number Q := {
  of_Z := inject_Z;
  dec n d := n # d;
  add := Qplus;
  sub := Qminus;
  mul := Qmult;
  div := Qdiv;
  ltb x y := negb (Qle_bool y x);
  leb := Qle_bool;
  eqb := Qeq_bool;
  Math_floor x := inject_Z (Qfloor x);
  Math_ceil x := inject_Z (Qceiling x);
  Math_round x := inject_Z (Qfloor (x + (1 # 2)));
  to_index := Qfloor
}.

(** *** binary64 *)

(** Integer literals and array lengths; exact below 2^53 in magnitude. *)
Definition float_of_Z (z : Z) : float :=
  match z with
  | Z0 => PrimFloat.zero
  | Zpos _ => PrimFloat.of_uint63 (Uint63.of_Z z)
  | Zneg p => PrimFloat.opp (PrimFloat.of_uint63 (Uint63.of_Z (Zpos p)))
  end.

Definition signed_mantissa (s : bool) (m : positive) : Z :=
  if s then Zneg m else Zpos m.

(** A finite float is [signed_mantissa s m * 2^e].  For [e >= 0] it is an
    integer already; otherwise its magnitude is below 2^53 and the integer
    part is computed on [Z], where a right shift rounds towards minus
    infinity. *)
Definition float_floor (x : float) : float :=
  match Prim2SF x with
  | S754_finite s m e =>
      if (0 <=? e)%Z then x
      else float_of_Z (Z.shiftr (signed_mantissa s m) (- e))
  | _ => x
  end.

Definition float_ceil (x : float) : float :=
  PrimFloat.opp (float_floor (PrimFloat.opp x)).

(** [Math.round x] is the floor of [x + 1/2], taken exactly. *)
Definition float_round (x : float) : float :=
  match Prim2SF x with
  | S754_finite s m e =>
      if (0 <=? e)%Z then x
      else float_of_Z
             (Z.shiftr (2 * signed_mantissa s m + Z.shiftl 1 (- e)) (1 - e))
  | _ => x
  end.

Definition float_to_index (x : float) : Z :=
  match Prim2SF x with
  | S754_finite s m e =>
      if (0 <=? e)%Z then Z.shiftl (signed_mantissa s m) e
      else Z.shiftr (signed_mantissa s m) (- e)
  | _ => 0%Z
  end.

(** A decimal literal denotes the double nearest to it, which is what the
    correctly rounded quotient of its numerator and denominator is. *)
#[export] Instance IEEENumber : Number float := {
  of_Z := float_of_Z;
  dec n d := PrimFloat.div (float_of_Z n) (float_of_Z (Zpos d));
  add := PrimFloat.add;
  sub := PrimFloat.sub;
  mul := PrimFloat.mul;
  div := PrimFloat.div;
  ltb := PrimFloat.ltb;
  leb := PrimFloat.leb;
  eqb := PrimFloat.eqb;
  Math_floor := float_floor;
  Math_ceil := float_ceil;
  Math_round := float_round;
  to_index := float_to_index
}.

(** ** lib/types.ts *)

Inductive ThresholdVerdict := PASS | DEGRADED | FAIL.

Inductive LoadPatternType := fixed_concurrency | fixed_rps | ramp_up | spike.

Inductive HttpMethod := GET | POST.

Inductive TestVerdict := OK | UNSTABLE | CRITICAL.

Inductive SafetyLabel := SAFE | WARNING | DANGEROUS.

Inductive TestStatus := running | completed | failed.

(** [keyof PerformanceThresholds] *)
Inductive ThresholdKey :=
  maxErrorRatePercent | maxP95LatencyMs | minSuccessRatePercent.

Section Types.
Context {num : Type}.

Record PerformanceThresholds := {
  th_maxErrorRatePercent : option num;
  th_maxP95LatencyMs : option num;
  th_minSuccessRatePercent : option num
}.

Record LoadPatternConfig := {
  type : LoadPatternType;
  targetRps : option num;
  rampUpSeconds : option num;
  spikeConcurrency : option num;
  spikeDurationSeconds : option num
}.

Record LoadTestConfig := {
  targetUrl : string;
  method : HttpMethod;
  concurrentUsers : num;
  durationSeconds : num;
  requestTimeoutMs : num;
  thresholds : option PerformanceThresholds;
  loadPattern : option LoadPatternConfig
}.

Record RequestResult := {
  responseTimeMs : num;
  success : bool;
  statusCode : option num;
  error : option string;
  timestamp : num
}.

Record LoadTestMetrics := {
  totalRequests : num;
  successfulRequests : num;
  failedRequests : num;
  errorRatePercentage : num;
  requestsPerSecond : num;
  avgResponseTime : num;
  minResponseTime : num;
  maxResponseTime : num;
  p95ResponseTime : num;
  p99ResponseTime : num;
  timeoutCount : num;
  timeoutRatePercentage : num
}.

(** The [explanation] text of the score is not modelled. *)
Record SafetyScore := {
  score : num;
  label : SafetyLabel
}.

(** The [message] text of a reason is not modelled. *)
Record VerdictReason := {
  threshold : ThresholdKey;
  actual : option num;
  limit : option num
}.

Record TimeSeriesPoint := {
  time : num;
  responseTime : num;
  errorRate : num;
  successCount : num;
  failCount : num
}.

Record LoadTestState := {
  id : string;
  config : LoadTestConfig;
  status : TestStatus;
  startedAt : num;
  completedAt : option num;
  metrics : LoadTestMetrics;
  safetyScore : option SafetyScore;
  verdict : TestVerdict;
  thresholdVerdict : option ThresholdVerdict;
  verdictReasons : option (list VerdictReason);
  firstViolationAt : option num;
  requestResults : list RequestResult;
  timeSeries : list TimeSeriesPoint
}.

(** The fields of a history record carry the prefix [h_]. *)
Record TestHistoryRecord := {
  h_id : string;
  h_config : LoadTestConfig;
  h_metrics : LoadTestMetrics;
  h_safetyScore : option SafetyScore;
  h_verdict : TestVerdict;
  h_thresholdVerdict : option ThresholdVerdict;
  h_verdictReasons : option (list VerdictReason);
  h_firstViolationAt : option num;
  h_startedAt : num;
  h_completedAt : num;
  h_timeSeries : option (list TimeSeriesPoint)
}.

End Types.

Arguments PerformanceThresholds : clear implicits.
Arguments LoadPatternConfig : clear implicits.
Arguments LoadTestConfig : clear implicits.
Arguments RequestResult : clear implicits.
Arguments LoadTestMetrics : clear implicits.
Arguments SafetyScore : clear implicits.
Arguments VerdictReason : clear implicits.
Arguments TimeSeriesPoint : clear implicits.
Arguments LoadTestState : clear implicits.
Arguments TestHistoryRecord : clear implicits.

(** ** JavaScript built-ins used by the source *)

Section Builtins.
Context {num : Type} `{Number num}.
Local Open Scope num_scope.

Definition Math_max (a b : num) : num := if a <? b then b else a.
Definition Math_min (a b : num) : num := if b <? a then b else a.

(** [arr.length] as a number *)
Definition len {A : Type} (arr : list A) : num := of_Z (Z.of_nat (List.length arr)).

(** [arr[i]] for an integral [i].  Every access the source makes is in
    range (see [percentile_index_in_range]); out of range the model
    yields 0 where JavaScript yields [undefined]. *)
Definition at_index (arr : list num) (i : num) : num :=
  nth (Z.to_nat (to_index i)) arr 0.

(** [arr.sort(compare)]: a stable comparison sort; [x] stays in front of
    [y] unless [compare x y > 0]. *)
Fixpoint sort_insert (compare : num -> num -> num) (x : num) (arr : list num)
  : list num :=
  match arr with
  | [] => [x]
  | y :: rest =>
      if compare x y >? 0 then y :: sort_insert compare x rest
      else x :: y :: rest
  end.

Definition sort (compare : num -> num -> num) (arr : list num) : list num :=
  fold_right (sort_insert compare) [] arr.

(** [arr.reduce(f, init)] *)
Definition reduce {A B : Type} (f : B -> A -> B) (init : B) (arr : list A) : B :=
  fold_left f arr init.

(** [arr.some(pred)] *)
Definition some {A : Type} (pred : A -> bool) (arr : list A) : bool :=
  existsb pred arr.

End Builtins.

(** [s.includes(sub)] *)
Fixpoint includes (s sub : string) : bool :=
  if String.prefix sub s then true
  else match s with
       | EmptyString => false
       | String _ rest => includes rest sub
       end.

(** ** lib/metrics.ts *)

Section Metrics.
Context {num : Type} `{Number num}.
Local Open Scope num_scope.

Definition percentile (sortedValues : list num) (p : num) : num :=
  if (List.length sortedValues =? 0)%nat then 0
  else
    let index := (len sortedValues - 1) * p in
    let lower := Math_floor index in
    let upper := Math_ceil index in
    if lower === upper then at_index sortedValues lower
    else at_index sortedValues lower
         + (index - lower) * (at_index sortedValues upper - at_index sortedValues lower).

Definition is_timeout (r : RequestResult num) : bool :=
  match error r with
  | Some e => String.eqb e "timeout"
  | None => false
  end.

Definition computeMetrics (results : list (RequestResult num))
  (durationSeconds : num) : LoadTestMetrics num :=
  let total := len results in
  let successful := len (filter (fun r => success r) results) in
  let failed := total - successful in
  let timeoutCount := len (filter is_timeout results) in
  let errorRate :=
    if total >? 0
    then Math_round ((failed / total) * of_Z 100 * of_Z 100) / of_Z 100
    else 0 in
  let timeoutRatePercentage :=
    if total >? 0
    then Math_round ((timeoutCount / total) * of_Z 100 * of_Z 100) / of_Z 100
    else 0 in
  let rps :=
    if durationSeconds >? 0
    then Math_round ((total / durationSeconds) * of_Z 100) / of_Z 100
    else 0 in
  let responseTimes :=
    map (fun r => responseTimeMs r) (filter (fun r => success r) results) in
  let sorted := sort (fun a b => a - b) responseTimes in
  let avgResponseTime :=
    if len responseTimes >? 0
    then Math_round
           ((reduce (fun a b => a + b) 0 responseTimes / len responseTimes)
            * of_Z 100) / of_Z 100
    else 0 in
  let minResponseTime :=
    if len sorted >? 0 then at_index sorted 0 else 0 in
  let maxResponseTime :=
    if len sorted >? 0 then at_index sorted (len sorted - 1) else 0 in
  let p95ResponseTime :=
    if len sorted >? 0
    then Math_round (percentile sorted (dec 95 100) * of_Z 100) / of_Z 100
    else 0 in
  let p99ResponseTime :=
    if len sorted >? 0
    then Math_round (percentile sorted (dec 99 100) * of_Z 100) / of_Z 100
    else 0 in
  {| totalRequests := total;
     successfulRequests := successful;
     failedRequests := failed;
     errorRatePercentage := errorRate;
     requestsPerSecond := rps;
     avgResponseTime := avgResponseTime;
     minResponseTime := minResponseTime;
     maxResponseTime := maxResponseTime;
     p95ResponseTime := p95ResponseTime;
     p99ResponseTime := p99ResponseTime;
     timeoutCount := timeoutCount;
     timeoutRatePercentage := timeoutRatePercentage |}.

Definition BUCKET_SECONDS : num := 1.

Record Bucket := {
  responseTimes : list num;
  b_success : num;
  b_fail : num
}.

(** [Map<number, Bucket>], as an association list in insertion order. *)
Fixpoint bucket_get (key : num) (bucketMap : list (num * Bucket)) : option Bucket :=
  match bucketMap with
  | [] => None
  | (k, b) :: rest => if k === key then Some b else bucket_get key rest
  end.

Fixpoint bucket_set (key : num) (b : Bucket) (bucketMap : list (num * Bucket))
  : list (num * Bucket) :=
  match bucketMap with
  | [] => [(key, b)]
  | (k, b') :: rest =>
      if k === key then (k, b) :: rest else (k, b') :: bucket_set key b rest
  end.

Definition empty_bucket : Bucket :=
  {| responseTimes := []; b_success := 0; b_fail := 0 |}.

Definition buildTimeSeries (results : list (RequestResult num)) (startTime : num)
  : list (TimeSeriesPoint num) :=
  let bucketMap :=
    fold_left
      (fun bucketMap r =>
         let bucketIndex :=
           Math_floor ((timestamp r - startTime) / of_Z 1000 / BUCKET_SECONDS) in
         let key := bucketIndex * BUCKET_SECONDS in
         let b :=
           match bucket_get key bucketMap with
           | Some b => b
           | None => empty_bucket
           end in
         bucket_set key
           {| responseTimes := responseTimes b ++ [responseTimeMs r];
              b_success := if success r then b_success b + 1 else b_success b;
              b_fail := if success r then b_fail b else b_fail b + 1 |}
           bucketMap)
      results [] in
  let sortedKeys := sort (fun a b => a - b) (map fst bucketMap) in
  map
    (fun key =>
       let b :=
         match bucket_get key bucketMap with
         | Some b => b
         | None => empty_bucket
         end in
       let total := b_success b + b_fail b in
       let avgRt :=
         if len (responseTimes b) >? 0
         then reduce (fun a x => a + x) 0 (responseTimes b) / len (responseTimes b)
         else 0 in
       let errRate := if total >? 0 then (b_fail b / total) * of_Z 100 else 0 in
       {| time := startTime + key * of_Z 1000;
          responseTime := Math_round (avgRt * of_Z 100) / of_Z 100;
          errorRate := Math_round (errRate * of_Z 100) / of_Z 100;
          successCount := b_success b;
          failCount := b_fail b |})
    sortedKeys.

End Metrics.

(** ** lib/verdict.ts *)

Section Verdict.
Context {num : Type} `{Number num}.
Local Open Scope num_scope.

Record ThresholdEvaluation := {
  ev_verdict : ThresholdVerdict;
  ev_reasons : list (VerdictReason num);
  ev_firstViolationAt : option num
}.

(** [now] is the value of [Date.now()] at the call. *)
Definition evaluateThresholds (now : num) (metrics : LoadTestMetrics num)
  (thresholds : option (PerformanceThresholds num)) : ThresholdEvaluation :=
  let reasons : list (VerdictReason num) := [] in
  let verdict := PASS in
  match thresholds with
  | None => {| ev_verdict := PASS; ev_reasons := []; ev_firstViolationAt := None |}
  | Some thresholds =>
      let '(reasons, verdict) :=
        match th_maxErrorRatePercent thresholds with
        | Some maxErr =>
            if errorRatePercentage metrics >? maxErr
            then (reasons ++ [ {| threshold := maxErrorRatePercent;
                                  actual := Some (errorRatePercentage metrics);
                                  limit := Some maxErr |} ],
                  FAIL)
            else (reasons, verdict)
        | None => (reasons, verdict)
        end in
      let '(reasons, verdict) :=
        match th_minSuccessRatePercent thresholds with
        | Some minSucc =>
            let successRate :=
              if totalRequests metrics >? 0
              then (successfulRequests metrics / totalRequests metrics) * of_Z 100
              else of_Z 100 in
            if successRate <? minSucc
            then (reasons ++ [ {| threshold := minSuccessRatePercent;
                                  actual := Some successRate;
                                  limit := Some minSucc |} ],
                  FAIL)
            else (reasons, verdict)
        | None => (reasons, verdict)
        end in
      let '(reasons, verdict) :=
        match th_maxP95LatencyMs thresholds with
        | Some maxP95 =>
            if p95ResponseTime metrics >? maxP95
            then (reasons ++ [ {| threshold := maxP95LatencyMs;
                                  actual := Some (p95ResponseTime metrics);
                                  limit := Some maxP95 |} ],
                  match verdict with PASS => DEGRADED | _ => FAIL end)
            else (reasons, verdict)
        | None => (reasons, verdict)
        end in
      let firstViolationAt :=
        if (0 <? List.length reasons)%nat then Some now else None in
      {| ev_verdict := verdict;
         ev_reasons := reasons;
         ev_firstViolationAt := firstViolationAt |}
  end.

Definition is_critical (r : VerdictReason num) : bool :=
  match threshold r with
  | maxErrorRatePercent | minSuccessRatePercent => true
  | maxP95LatencyMs => false
  end.

Definition shouldAutoStop (verdict : ThresholdVerdict)
  (reasons : list (VerdictReason num)) : bool :=
  match verdict with
  | FAIL => some is_critical reasons
  | _ => false
  end.

End Verdict.

Arguments ThresholdEvaluation : clear implicits.

(** ** lib/load-patterns.ts *)

Section LoadPatterns.
Context {num : Type} `{Number num}.
Local Open Scope num_scope.

(** [o ?? d] *)
Definition nullish (o : option num) (d : num) : num :=
  match o with Some v => v | None => d end.

Definition getConcurrencyAtWithDuration
  (pattern : option (LoadPatternConfig num))
  (timeSinceStartMs durationSeconds defaultConcurrency : num) : num :=
  match pattern with
  | None => defaultConcurrency
  | Some pattern =>
      match type pattern with
      | fixed_concurrency | fixed_rps => defaultConcurrency
      | ramp_up =>
          let timeSec := timeSinceStartMs / of_Z 1000 in
          let rampSec := nullish (rampUpSeconds pattern) (of_Z 10) in
          if timeSec >=? rampSec then defaultConcurrency
          else
            let ratio := timeSec / rampSec in
            Math_max 1 (Math_floor (defaultConcurrency * ratio))
      | spike =>
          let timeSec := timeSinceStartMs / of_Z 1000 in
          let spikeDur := nullish (spikeDurationSeconds pattern) (of_Z 5) in
          let spikeStart := Math_max 0 (durationSeconds - spikeDur) in
          let spikeConc :=
            nullish (spikeConcurrency pattern) (defaultConcurrency * of_Z 2) in
          if (timeSec >=? spikeStart) && (timeSec <? spikeStart + spikeDur)
          then spikeConc
          else defaultConcurrency
      end
  end.

End LoadPatterns.

(** ** lib/safety-score.ts *)

Section SafetyScoreCode.
Context {num : Type} `{Number num}.
Local Open Scope num_scope.

Definition HTTP_ERROR_WEIGHT : num := dec 6 10.
Definition HTTP_ERROR_CAP : num := of_Z 40.
Definition TIMEOUT_WEIGHT : num := dec 12 10.
Definition TIMEOUT_CAP : num := of_Z 30.
Definition P95_THRESHOLD_MS : num := of_Z 500.
Definition P95_PENALTY_PER_100MS : num := of_Z 3.
Definition P95_CAP : num := of_Z 25.
Definition AVG_THRESHOLD_MS : num := of_Z 300.
Definition AVG_PENALTY_PER_100MS : num := of_Z 1.
Definition AVG_CAP : num := of_Z 10.
Definition LOW_RPS_THRESHOLD : num := of_Z 1.
Definition LOW_RPS_PENALTY : num := of_Z 5.

Definition computeSafetyScore (metrics : LoadTestMetrics num) : SafetyScore num :=
  let score := of_Z 100 in
  let httpErrorCount := failedRequests metrics - timeoutCount metrics in
  let httpErrorRate :=
    if totalRequests metrics >? 0
    then (httpErrorCount / totalRequests metrics) * of_Z 100
    else 0 in
  let httpErrorPenalty :=
    Math_min (httpErrorRate * HTTP_ERROR_WEIGHT) HTTP_ERROR_CAP in
  let score := score - httpErrorPenalty in
  let timeoutPenalty :=
    Math_min (timeoutRatePercentage metrics * TIMEOUT_WEIGHT) TIMEOUT_CAP in
  let score := score - timeoutPenalty in
  let score :=
    if p95ResponseTime metrics >? P95_THRESHOLD_MS
    then
      let excessMs := p95ResponseTime metrics - P95_THRESHOLD_MS in
      let p95Penalty :=
        Math_min ((excessMs / of_Z 100) * P95_PENALTY_PER_100MS) P95_CAP in
      score - p95Penalty
    else score in
  let score :=
    if avgResponseTime metrics >? AVG_THRESHOLD_MS
    then
      let excessMs := avgResponseTime metrics - AVG_THRESHOLD_MS in
      let avgPenalty :=
        Math_min ((excessMs / of_Z 100) * AVG_PENALTY_PER_100MS) AVG_CAP in
      score - avgPenalty
    else score in
  let score :=
    if (requestsPerSecond metrics >? 0)
       && (requestsPerSecond metrics <? LOW_RPS_THRESHOLD)
    then score - LOW_RPS_PENALTY
    else score in
  let finalScore := Math_max 0 (Math_min (of_Z 100) (Math_round score)) in
  let label :=
    if finalScore <? of_Z 50 then DANGEROUS
    else if finalScore <? of_Z 80 then WARNING
    else SAFE in
  {| score := finalScore; label := label |}.

End SafetyScoreCode.

(** ** lib/history.ts

    The module-level array [history] is threaded through as a state. *)

Section History.
Context {num : Type}.

Definition MAX_HISTORY : nat := 100.

Definition addToHistory (record : TestHistoryRecord num)
  (history : list (TestHistoryRecord num)) : list (TestHistoryRecord num) :=
  (* history.unshift(record) *)
  let history := record :: history in
  if (MAX_HISTORY <? List.length history)%nat
  then removelast history (* history.pop() *)
  else history.

Definition getHistory (history : list (TestHistoryRecord num))
  : list (TestHistoryRecord num) := history.

End History.

(** ** lib/engine.ts

    The engine is asynchronous; what is modelled here is what it does to
    one test's state: how [runOneRequest] builds a result from the outcome
    of [fetch], the update a worker applies after each request, and the
    finalization.  Clock readings ([Date.now()]) are arguments. *)

Section Engine.
Context {num : Type} `{Number num}.
Local Open Scope num_scope.

(** The outcome of [await fetch(...)]: a response with its status, or a
    thrown value, which carries a message when it is an [Error]. *)
Inductive FetchOutcome :=
| Responded (status : num)
| Threw (err_message : option string).

(** [start] and [finish] are the clock readings before the request and
    after its outcome. *)
Definition runOneRequest (start finish : num) (outcome : FetchOutcome)
  : RequestResult num :=
  match outcome with
  | Responded res_status =>
      let elapsed := finish - start in
      let success := res_status <? of_Z 400 in
      {| responseTimeMs := elapsed;
         success := success;
         statusCode := Some res_status;
         error := None;
         timestamp := start |}
  | Threw err =>
      let elapsed := finish - start in
      let message :=
        match err with Some m => m | None => "Unknown error"%string end in
      let isTimeout :=
        includes message "abort"
        || String.eqb message "The operation was aborted." in
      {| responseTimeMs := elapsed;
         success := false;
         statusCode := None;
         error := Some (if isTimeout then "timeout"%string else message);
         timestamp := start |}
  end.

(** The legacy verdict, which the worker and the finalization both
    compute from the error rate. *)
Definition legacy_verdict (m : LoadTestMetrics num) : TestVerdict :=
  if errorRatePercentage m >? of_Z 60 then CRITICAL
  else if errorRatePercentage m >? of_Z 30 then UNSTABLE
  else OK.

(** JavaScript truthiness of a number that is not NaN *)
Definition truthy (n : num) : bool := negb (n === 0).

(** The updater a worker passes to [updateTest] after a request; [stop]
    is [stopRef.stop].  [now] and [now'] are the two clock readings taken
    inside it. *)
Definition worker_update (result : RequestResult num) (now now' : num)
  (state : LoadTestState num) (stop : bool) : LoadTestState num * bool :=
  let requestResults := requestResults state ++ [result] in
  let durationSec := (now - startedAt state) / of_Z 1000 in
  let metrics := computeMetrics requestResults durationSec in
  let timeSeries := buildTimeSeries requestResults (startedAt state) in
  let verdict := legacy_verdict metrics in
  let ev := evaluateThresholds now' metrics (thresholds (config state)) in
  let firstViolationAt :=
    match ev_firstViolationAt ev, firstViolationAt state with
    | Some v, None => if truthy v then Some v else None
    | _, old => old
    end in
  let stop :=
    if shouldAutoStop (ev_verdict ev) (ev_reasons ev) then true else stop in
  ({| id := id state;
      config := config state;
      status := status state;
      startedAt := startedAt state;
      completedAt := completedAt state;
      metrics := metrics;
      safetyScore := safetyScore state;
      verdict := verdict;
      thresholdVerdict := Some (ev_verdict ev);
      verdictReasons := Some (ev_reasons ev);
      firstViolationAt := firstViolationAt;
      requestResults := requestResults;
      timeSeries := timeSeries |},
   stop).

(** The state [startLoadTest] registers. *)
Definition initial_state (id : string) (config : LoadTestConfig num)
  (startedAt : num) : LoadTestState num :=
  {| id := id;
     config := config;
     status := running;
     startedAt := startedAt;
     completedAt := None;
     metrics :=
       {| totalRequests := 0; successfulRequests := 0; failedRequests := 0;
          errorRatePercentage := 0; requestsPerSecond := 0;
          avgResponseTime := 0; minResponseTime := 0; maxResponseTime := 0;
          p95ResponseTime := 0; p99ResponseTime := 0;
          timeoutCount := 0; timeoutRatePercentage := 0 |};
     safetyScore := None;
     verdict := OK;
     thresholdVerdict := None;
     verdictReasons := None;
     firstViolationAt := None;
     requestResults := [];
     timeSeries := [] |}.

(** The last [then] of [startLoadTest]: complete a running test and
    append its snapshot to the history. *)
Definition finalize (now now' : num) (s : LoadTestState num)
  (history : list (TestHistoryRecord num))
  : LoadTestState num * list (TestHistoryRecord num) :=
  match status s with
  | running =>
      let completedAt := now in
      let durationSeconds := (completedAt - startedAt s) / of_Z 1000 in
      let metrics := computeMetrics (requestResults s) durationSeconds in
      let timeSeries := buildTimeSeries (requestResults s) (startedAt s) in
      let safetyScore := computeSafetyScore metrics in
      let verdict := legacy_verdict metrics in
      let ev := evaluateThresholds now' metrics (thresholds (config s)) in
      let s' :=
        {| id := id s;
           config := config s;
           status := completed;
           startedAt := startedAt s;
           completedAt := Some completedAt;
           metrics := metrics;
           safetyScore := Some safetyScore;
           verdict := verdict;
           thresholdVerdict := Some (ev_verdict ev);
           verdictReasons := Some (ev_reasons ev);
           firstViolationAt := firstViolationAt s;
           requestResults := requestResults s;
           timeSeries := timeSeries |} in
      (s',
       addToHistory
         {| h_id := id s';
            h_config := config s';
            h_metrics := metrics;
            h_safetyScore := Some safetyScore;
            h_verdict := verdict;
            h_thresholdVerdict := Some (ev_verdict ev);
            h_verdictReasons := Some (ev_reasons ev);
            h_firstViolationAt := firstViolationAt s';
            h_startedAt := startedAt s';
            h_completedAt := completedAt;
            h_timeSeries := Some timeSeries |}
         history)
  | _ => (s, history)
  end.

(** The states a test passes through while it runs: the registered state,
    then one [worker_update] per finished request. *)
Inductive run_state (id0 : string) (config0 : LoadTestConfig num) (startedAt0 : num)
  : LoadTestState num -> bool -> Prop :=
| run_start : run_state id0 config0 startedAt0
                (initial_state id0 config0 startedAt0) false
| run_request : forall state stop start finish outcome now now',
    run_state id0 config0 startedAt0 state stop ->
    run_state id0 config0 startedAt0
      (fst (worker_update (runOneRequest start finish outcome) now now' state stop))
      (snd (worker_update (runOneRequest start finish outcome) now now' state stop)).

End Engine.

(** * Specification vocabulary and scenarios

    The predicates in which the properties are stated, and the concrete
    inputs at which they are evaluated. *)

Local Open Scope Q_scope.

(** ** Results and counts *)

(** The requester tags a result with an error only when it failed. *)
Definition tagged_only_on_failure {num : Type} (r : RequestResult num) : Prop :=
  success r = true -> error r = None.

(** The count invariants of a metrics value. *)
Definition count_invariants (M : LoadTestMetrics Q) : Prop :=
  successfulRequests M + failedRequests M == totalRequests M
  /\ timeoutCount M <= failedRequests M.

(** The response times of the successful results, in the order of the
    results. *)
Definition successful_times {num : Type} (results : list (RequestResult num))
  : list num :=
  map (fun r => responseTimeMs r) (filter (fun r => success r) results).

(** The successful response times in ascending order, as [computeMetrics]
    computes them. *)
Definition sorted_successes {num : Type} `{Number num}
  (results : list (RequestResult num)) : list num :=
  sort (fun a b => (a - b)%num)
       (map (fun r => responseTimeMs r) (filter (fun r => success r) results)).

Definition ascending (v : list Q) : Prop := Sorted.StronglySorted Qle v.

(** ** Percentiles and rounding *)

(** Linear interpolation in [v] at the fractional rank [i]:
    v[floor i] + (i - floor i) * (v[ceil i] - v[floor i]). *)
Definition interpolate (v : list Q) (i : Q) : Q :=
  nth (Z.to_nat (Qfloor i)) v 0
  + (i - inject_Z (Qfloor i))
    * (nth (Z.to_nat (Qceiling i)) v 0 - nth (Z.to_nat (Qfloor i)) v 0).

(** [y] is a value with two decimals. *)
Definition two_decimals (y : Q) : Prop := exists z : Z, y == z # 100.

(** [y] is [x] rounded to two decimals (a tie goes up). *)
Definition rounded_to_two_decimals (x y : Q) : Prop :=
  two_decimals y /\ y - (1 # 200) <= x /\ x < y + (1 # 200).

(** What [Math.round(x * 100) / 100] computes. *)
Definition round2 (x : Q) : Q := inject_Z (Qfloor (x * 100 + (1 # 2))) / 100.

(** The order of the latency values as claimed. *)
Definition claimed_latency_order (M : LoadTestMetrics Q) : Prop :=
  minResponseTime M <= avgResponseTime M
  /\ avgResponseTime M <= p95ResponseTime M
  /\ p95ResponseTime M <= p99ResponseTime M
  /\ p99ResponseTime M <= maxResponseTime M.

(** The rounding as claimed: every latency value and every percentage has
    two decimals, and the percentages lie between 0 and 100. *)
Definition claimed_rounding (M : LoadTestMetrics Q) : Prop :=
  two_decimals (avgResponseTime M)
  /\ two_decimals (minResponseTime M)
  /\ two_decimals (maxResponseTime M)
  /\ two_decimals (p95ResponseTime M)
  /\ two_decimals (p99ResponseTime M)
  /\ (0 <= errorRatePercentage M /\ errorRatePercentage M <= 100
      /\ two_decimals (errorRatePercentage M))
  /\ (0 <= timeoutRatePercentage M /\ timeoutRatePercentage M <= 100
      /\ two_decimals (timeoutRatePercentage M)).

(** ** Threshold violations *)

Definition ThresholdKey_eqb (a b : ThresholdKey) : bool :=
  match a, b with
  | maxErrorRatePercent, maxErrorRatePercent
  | maxP95LatencyMs, maxP95LatencyMs
  | minSuccessRatePercent, minSuccessRatePercent => true
  | _, _ => false
  end.

(** Some reason of the evaluation names the threshold [k]. *)
Definition has_reason {num : Type} (k : ThresholdKey)
  (reasons : list (VerdictReason num)) : bool :=
  existsb (fun r => ThresholdKey_eqb (threshold r) k) reasons.

(** The success rate the evaluator compares with [minSuccessRatePercent]:
    successful / total * 100, or 100 when there is no request. *)
Definition successRate (M : LoadTestMetrics Q) : Q :=
  if Qlt_le_dec 0 (totalRequests M)
  then successfulRequests M / totalRequests M * 100
  else 100.

(** [maxErrorRatePercent] is set and the error rate is above it. *)
Definition violates_maxErrorRate (M : LoadTestMetrics Q)
  (H : PerformanceThresholds Q) : Prop :=
  exists l, th_maxErrorRatePercent H = Some l /\ l < errorRatePercentage M.

(** [minSuccessRatePercent] is set and the success rate is below it. *)
Definition violates_minSuccessRate (M : LoadTestMetrics Q)
  (H : PerformanceThresholds Q) : Prop :=
  exists l, th_minSuccessRatePercent H = Some l /\ successRate M < l.

(** [maxP95LatencyMs] is set and p95 is above it. *)
Definition violates_maxP95 (M : LoadTestMetrics Q)
  (H : PerformanceThresholds Q) : Prop :=
  exists l, th_maxP95LatencyMs H = Some l /\ l < p95ResponseTime M.

(** ** The arithmetic of the program

    What the evaluator, the percentile and the score compute, written
    with the operations and the comparisons of [Number], in the order of
    the source. *)

Section Computed.
Context {num : Type} `{Number num}.
Local Open Scope num_scope.

(** The success rate the evaluator compares with [minSuccessRatePercent]:
    (successful / total) * 100, or 100 when there is no request. *)
Definition computed_successRate (M : LoadTestMetrics num) : num :=
  if totalRequests M >? 0
  then successfulRequests M / totalRequests M * of_Z 100
  else of_Z 100.

(** [maxErrorRatePercent] is set and the program finds the error rate
    above it. *)
Definition exceeds_maxErrorRate (M : LoadTestMetrics num)
  (H : PerformanceThresholds num) : Prop :=
  exists l, th_maxErrorRatePercent H = Some l
            /\ (errorRatePercentage M >? l) = true.

(** [minSuccessRatePercent] is set and the program finds the computed
    success rate below it. *)
Definition below_minSuccessRate (M : LoadTestMetrics num)
  (H : PerformanceThresholds num) : Prop :=
  exists l, th_minSuccessRatePercent H = Some l
            /\ (computed_successRate M <? l) = true.

(** [maxP95LatencyMs] is set and the program finds p95 above it. *)
Definition exceeds_maxP95 (M : LoadTestMetrics num)
  (H : PerformanceThresholds num) : Prop :=
  exists l, th_maxP95LatencyMs H = Some l
            /\ (p95ResponseTime M >? l) = true.

(** What a reason of an evaluation of [M] against [H] reports: the
    value the program compared as [actual], the limit of its threshold
    as [limit], and the comparison the program made of the two. *)
Definition reason_reported (M : LoadTestMetrics num)
  (H : PerformanceThresholds num) (r : VerdictReason num) : Prop :=
  match threshold r with
  | maxErrorRatePercent =>
      actual r = Some (errorRatePercentage M)
      /\ limit r = th_maxErrorRatePercent H
      /\ exists l, limit r = Some l /\ (errorRatePercentage M >? l) = true
  | minSuccessRatePercent =>
      actual r = Some (computed_successRate M)
      /\ limit r = th_minSuccessRatePercent H
      /\ exists l, limit r = Some l /\ (computed_successRate M <? l) = true
  | maxP95LatencyMs =>
      actual r = Some (p95ResponseTime M)
      /\ limit r = th_maxP95LatencyMs H
      /\ exists l, limit r = Some l /\ (p95ResponseTime M >? l) = true
  end.

(** [Math.round(x * 100) / 100] *)
Definition round_hundredths_of (x : num) : num :=
  Math_round (x * of_Z 100) / of_Z 100.

(** Linear interpolation in [v] at the rank [i]: the value at the rank
    when the rank is integral, otherwise
    v[floor i] + (i - floor i) * (v[ceil i] - v[floor i]). *)
Definition computed_interpolation (v : list num) (i : num) : num :=
  if Math_floor i === Math_ceil i then at_index v (Math_floor i)
  else at_index v (Math_floor i)
       + (i - Math_floor i)
         * (at_index v (Math_ceil i) - at_index v (Math_floor i)).

(** The rate of failed requests that were not timeouts, in percent:
    ((failed - timeoutCount) / total) * 100, or 0 when there is no
    request. *)
Definition computed_httpErrorRate (M : LoadTestMetrics num) : num :=
  if totalRequests M >? 0
  then (failedRequests M - timeoutCount M) / totalRequests M * of_Z 100
  else 0.

(** 100 minus the penalties, subtracted one after the other. *)
Definition computed_raw_score (M : LoadTestMetrics num) : num :=
  let s :=
    of_Z 100 - Math_min (computed_httpErrorRate M * dec 6 10) (of_Z 40) in
  let s := s - Math_min (timeoutRatePercentage M * dec 12 10) (of_Z 30) in
  let s :=
    if p95ResponseTime M >? of_Z 500
    then s - Math_min ((p95ResponseTime M - of_Z 500) / of_Z 100 * of_Z 3)
               (of_Z 25)
    else s in
  let s :=
    if avgResponseTime M >? of_Z 300
    then s - Math_min ((avgResponseTime M - of_Z 300) / of_Z 100 * of_Z 1)
               (of_Z 10)
    else s in
  if (requestsPerSecond M >? 0) && (requestsPerSecond M <? of_Z 1)
  then s - of_Z 5
  else s.

End Computed.

(** ** Load patterns *)

(** The bounds as claimed: between 1 and max(N, spikeConcurrency ?? N). *)
Definition claimed_pattern_bounds (p : LoadPatternConfig Q) (t D N : Q) : Prop :=
  1 <= getConcurrencyAtWithDuration (Some p) t D N
  /\ getConcurrencyAtWithDuration (Some p) t D N
     <= Qmax N (nullish (spikeConcurrency p) N).

(** ** Safety score *)

(** The rate of failed requests that were not timeouts, in percent;
    0 when there is no request. *)
Definition httpErrorRate (M : LoadTestMetrics Q) : Q :=
  if Qlt_le_dec 0 (totalRequests M)
  then 100 * (failedRequests M - timeoutCount M) / totalRequests M
  else 0.

(** The sum of the penalties of a metrics value. *)
Definition penalties (M : LoadTestMetrics Q) : Q :=
  Qmin (httpErrorRate M * (6 # 10)) 40
  + Qmin (timeoutRatePercentage M * (12 # 10)) 30
  + (if Qlt_le_dec 500 (p95ResponseTime M)
     then Qmin ((p95ResponseTime M - 500) / 100 * 3) 25
     else 0)
  + (if Qlt_le_dec 300 (avgResponseTime M)
     then Qmin ((avgResponseTime M - 300) / 100 * 1) 10
     else 0)
  + (if Qlt_le_dec 0 (requestsPerSecond M)
     then if Qlt_le_dec (requestsPerSecond M) 1 then 5 else 0
     else 0).

(** The nearest integer (a tie goes up). *)
Definition nearest_integer (x : Q) : Z := Qfloor (x + (1 # 2)).

Definition clamp (lo hi x : Q) : Q := Qmax lo (Qmin hi x).

(** The score as the specification words it. *)
Definition safety_score_formula (M : LoadTestMetrics Q) : Q :=
  clamp 0 100 (inject_Z (nearest_integer (100 - penalties M))).

(** ** History *)

(** The history after the insertions [records], made in this order. *)
Definition insert_all {num : Type} (records : list (TestHistoryRecord num))
  (history : list (TestHistoryRecord num)) : list (TestHistoryRecord num) :=
  fold_left (fun history record => addToHistory record history) records history.

(** ** Scenarios *)

(** A success with status 200 after [ms] milliseconds. *)
Definition success_after {num : Type} `{Number num} (ms : Z) : RequestResult num :=
  {| responseTimeMs := of_Z ms;
     success := true;
     statusCode := Some (of_Z 200);
     error := None;
     timestamp := of_Z 0 |}.

(** Scenario S6: ten successes with response times 10, 20, ..., 100. *)
Definition scenario_S6 {num : Type} `{Number num} : list (RequestResult num) :=
  map success_after [10; 20; 30; 40; 50; 60; 70; 80; 90; 100]%Z.

(** Twenty successes of 1 ms and one of 1000 ms. *)
Definition skewed_results {num : Type} `{Number num} : list (RequestResult num) :=
  map success_after (repeat 1%Z 20 ++ [1000%Z]).

(** A single success that took an eighth of a millisecond. *)
Definition eighth_result {num : Type} `{Number num} : list (RequestResult num) :=
  [ {| responseTimeMs := dec 125 1000;
       success := true;
       statusCode := Some (of_Z 200);
       error := None;
       timestamp := of_Z 0 |} ].

(** Three requests as the requester records them: a 200, a 500 and an
    aborted one. *)
Definition three_requests {num : Type} `{Number num} : list (RequestResult num) :=
  [ runOneRequest (of_Z 0) (of_Z 120) (Responded (of_Z 200));
    runOneRequest (of_Z 10) (of_Z 95) (Responded (of_Z 500));
    runOneRequest (of_Z 20) (of_Z 5020)
      (Threw (Some "The operation was aborted."%string)) ].

(** Metrics of 100 requests of 100 ms, [rate] of them HTTP errors. *)
Definition metrics_with_error_rate (rate : Q) : LoadTestMetrics Q :=
  {| totalRequests := 100; successfulRequests := 100 - rate;
     failedRequests := rate; errorRatePercentage := rate;
     requestsPerSecond := 10; avgResponseTime := 100;
     minResponseTime := 100; maxResponseTime := 100;
     p95ResponseTime := 100; p99ResponseTime := 100;
     timeoutCount := 0; timeoutRatePercentage := 0 |}.

(** Thresholds with a single limit. *)
Definition only_maxErrorRate (l : Q) : PerformanceThresholds Q :=
  {| th_maxErrorRatePercent := Some l;
     th_maxP95LatencyMs := None;
     th_minSuccessRatePercent := None |}.

(** The patterns of scenarios S4 and S5. *)
Definition ramp_up_over {num : Type} `{Number num} (seconds : Z)
  : LoadPatternConfig num :=
  {| type := ramp_up;
     targetRps := None;
     rampUpSeconds := Some (of_Z seconds);
     spikeConcurrency := None;
     spikeDurationSeconds := None |}.

Definition spike_of {num : Type} `{Number num} (concurrency seconds : Z)
  : LoadPatternConfig num :=
  {| type := spike;
     targetRps := None;
     rampUpSeconds := None;
     spikeConcurrency := Some (of_Z concurrency);
     spikeDurationSeconds := Some (of_Z seconds) |}.

(** A spike pattern of 2 seconds that leaves [spikeConcurrency] unset. *)
Definition spike_without_concurrency {num : Type} `{Number num}
  : LoadPatternConfig num :=
  {| type := spike;
     targetRps := None;
     rampUpSeconds := None;
     spikeConcurrency := None;
     spikeDurationSeconds := Some (of_Z 2) |}.

(** The configuration of scenario S1 and a history record of a test. *)
Definition sample_config : LoadTestConfig Q :=
  {| targetUrl := "http://example.org/";
     method := GET;
     concurrentUsers := 2;
     durationSeconds := 3;
     requestTimeoutMs := 5000;
     thresholds := None;
     loadPattern := None |}.

Definition sample_record : TestHistoryRecord Q :=
  let M := computeMetrics (num:=Q) three_requests 3 in
  {| h_id := "test_1700000000000_abc1234";
     h_config := sample_config;
     h_metrics := M;
     h_safetyScore := Some (computeSafetyScore M);
     h_verdict := legacy_verdict M;
     h_thresholdVerdict := Some PASS;
     h_verdictReasons := Some [];
     h_firstViolationAt := None;
     h_startedAt := 0;
     h_completedAt := 3000;
     h_timeSeries := Some (buildTimeSeries three_requests 0) |}.

(** * The rest of the code *)

(** ** lib/history.ts, lookups *)

Section HistoryLookup.
Context {num : Type}.

(** [history.find((r) => r.id === id)] *)
Definition getHistoryRecord (id : string)
  (history : list (TestHistoryRecord num)) : option (TestHistoryRecord num) :=
  find (fun r => String.eqb (h_id r) id) history.

(** [new Set(ids).has(x)] *)
Definition set_has (ids : list string) (x : string) : bool :=
  existsb (fun i => String.eqb i x) ids.

Definition getHistoryRecords (ids : list string)
  (history : list (TestHistoryRecord num)) : list (TestHistoryRecord num) :=
  filter (fun r => set_has ids (h_id r)) history.

End HistoryLookup.

(** ** lib/load-patterns.ts, the other functions *)

Section LoadPatternsRest.
Context {num : Type} `{Number num}.
Local Open Scope num_scope.

(** The older variant, without the test duration: its spike window is
    computed with [durationSec = 0]. *)
Definition getConcurrencyAt (pattern : option (LoadPatternConfig num))
  (timeSinceStartMs defaultConcurrency : num) : num :=
  match pattern with
  | None => defaultConcurrency
  | Some pattern =>
      match type pattern with
      | fixed_concurrency | fixed_rps => defaultConcurrency
      | ramp_up =>
          let timeSec := timeSinceStartMs / of_Z 1000 in
          let rampSec := nullish (rampUpSeconds pattern) (of_Z 10) in
          if timeSec >=? rampSec then defaultConcurrency
          else
            let ratio := timeSec / rampSec in
            Math_max 1 (Math_floor (defaultConcurrency * ratio))
      | spike =>
          let timeSec := timeSinceStartMs / of_Z 1000 in
          let durationSec := 0 in
          let spikeStart :=
            durationSec - nullish (spikeDurationSeconds pattern) (of_Z 5) in
          let spikeConc :=
            nullish (spikeConcurrency pattern) (defaultConcurrency * of_Z 2) in
          if (timeSec >=? spikeStart)
             && (timeSec <? spikeStart
                            + nullish (spikeDurationSeconds pattern) (of_Z 5))
          then spikeConc
          else defaultConcurrency
      end
  end.

(** [!pattern.targetRps || pattern.targetRps <= 0]: an unset, zero or
    non-positive rate gives no delay. *)
Definition getDelayMs (pattern : option (LoadPatternConfig num))
  (concurrency : num) : num :=
  match pattern with
  | None => 0
  | Some pattern =>
      match type pattern, targetRps pattern with
      | fixed_rps, Some rps =>
          if negb (truthy rps) || (rps <=? 0) then 0
          else
            let msBetweenRequests := of_Z 1000 / rps in
            msBetweenRequests * concurrency
      | _, _ => 0
      end
  end.

Record PreviewPoint := {
  timeSec : num;
  concurrency : num
}.

(** The [for] loop of [getPatternPreview], from [t] on: it runs while
    [t <= durationSeconds]; [fuel] bounds the number of iterations. *)
Fixpoint preview_loop (fuel : nat) (pattern : option (LoadPatternConfig num))
  (durationSeconds defaultConcurrency step t : num) : list PreviewPoint :=
  match fuel with
  | O => []
  | S fuel =>
      if t <=? durationSeconds
      then
        let ms := t * of_Z 1000 in
        let c := getConcurrencyAtWithDuration pattern ms durationSeconds
                   defaultConcurrency in
        {| timeSec := t; concurrency := c |}
          :: preview_loop fuel pattern durationSeconds defaultConcurrency step
               (t + step)
      else []
  end.

(** The steps are at least 1 wide, so the loop ends within
    [floor durationSeconds + 1] iterations. *)
Definition preview_fuel (durationSeconds : num) : nat :=
  S (Z.to_nat (to_index (Math_floor durationSeconds))).

Definition getPatternPreview (pattern : option (LoadPatternConfig num))
  (durationSeconds defaultConcurrency : num) : list PreviewPoint :=
  let step := Math_max 1 (Math_floor (durationSeconds / of_Z 50)) in
  let points :=
    preview_loop (preview_fuel durationSeconds) pattern durationSeconds
      defaultConcurrency step 0 in
  (* points[points.length - 1]?.timeSec !== durationSeconds *)
  let last_is_end :=
    match last (map (fun p => Some (timeSec p)) points) None with
    | Some t => t === durationSeconds
    | None => false
    end in
  if last_is_end then points
  else
    points
      ++ [ {| timeSec := durationSeconds;
              concurrency :=
                getConcurrencyAtWithDuration pattern
                  (durationSeconds * of_Z 1000) durationSeconds
                  defaultConcurrency |} ].

End LoadPatternsRest.

Arguments PreviewPoint : clear implicits.

(** ** lib/safety.ts, the rate limiter

    The module-level array [recentRequestTimestamps] is threaded through
    as a state; [now] is the clock reading of the call. *)

Section RateLimiter.
Context {num : Type} `{Number num}.
Local Open Scope num_scope.

Definition GLOBAL_RATE_LIMIT_RPS : num := of_Z 500.
Definition WINDOW_MS : num := of_Z 1000.

(** [while (a.length > 0 && a[0] < cutoff) a.shift()] *)
Fixpoint shift_older (cutoff : num) (recentRequestTimestamps : list num)
  : list num :=
  match recentRequestTimestamps with
  | [] => []
  | first :: rest =>
      if first <? cutoff then shift_older cutoff rest else first :: rest
  end.

Definition checkRateLimit (now : num) (recentRequestTimestamps : list num)
  : bool * list num :=
  let cutoff := now - WINDOW_MS in
  let recentRequestTimestamps := shift_older cutoff recentRequestTimestamps in
  (len recentRequestTimestamps <? GLOBAL_RATE_LIMIT_RPS,
   recentRequestTimestamps).

Definition recordRequestSent (now : num) (recentRequestTimestamps : list num)
  : list num :=
  recentRequestTimestamps ++ [now].

End RateLimiter.

(** ** lib/store.ts

    The [Map] from test id to state, as a lookup function. *)

Section Store.
Context {num : Type}.

Definition Store : Type := string -> option (LoadTestState num).

Definition empty_store : Store := fun _ => None.

Definition getTest (id : string) (tests : Store) : option (LoadTestState num) :=
  tests id.

Definition setTest (id : string) (state : LoadTestState num) (tests : Store)
  : Store :=
  fun k => if String.eqb k id then Some state else tests k.

Definition updateTest (id : string)
  (updater : LoadTestState num -> LoadTestState num) (tests : Store) : Store :=
  match tests id with
  | Some state => setTest id (updater state) tests
  | None => tests
  end.

Definition deleteTest (id : string) (tests : Store) : Store :=
  fun k => if String.eqb k id then None else tests k.

End Store.

Arguments Store : clear implicits.

(** ** app/api/load-test/compare, the comparison of two tests *)

Section Compare.
Context {num : Type} `{Number num}.
Local Open Scope num_scope.

Record Comparison := {
  delta_errorRatePercentage : num;
  delta_p95ResponseTimeMs : num;
  regression : bool
}.

(** What the handler answers for the metrics [a] (baseline) and [b] of
    the two tests it found. *)
Definition compare_tests (a b : LoadTestMetrics num) : Comparison :=
  let errorRateDelta := errorRatePercentage b - errorRatePercentage a in
  let p95Delta := p95ResponseTime b - p95ResponseTime a in
  {| delta_errorRatePercentage :=
       Math_round (errorRateDelta * of_Z 100) / of_Z 100;
     delta_p95ResponseTimeMs := Math_round (p95Delta * of_Z 100) / of_Z 100;
     regression := (errorRateDelta >? 0) || (p95Delta >? 0) |}.

End Compare.

Arguments Comparison : clear implicits.

(** ** app/api/load-test/run-headless, verdict and exit code *)

Section Headless.
Context {num : Type}.

(** [state.thresholdVerdict ?? (legacy verdict mapped)] *)
Definition headless_verdict (state : LoadTestState num) : ThresholdVerdict :=
  match thresholdVerdict state with
  | Some v => v
  | None =>
      match verdict state with
      | CRITICAL => FAIL
      | UNSTABLE => DEGRADED
      | OK => PASS
      end
  end.

Definition exitCode (verdict : ThresholdVerdict) : Z :=
  match verdict with
  | PASS => 0
  | DEGRADED => 1
  | FAIL => 2
  end.

End Headless.

(** ** app/history/page.tsx, the selection of two tests to compare *)

(** [prev.includes(id) ? prev.filter((x) => x !== id)
     : prev.length >= 2 ? [prev[1], id] : [...prev, id]] *)
Definition toggleCompare (id : string) (prev : list string) : list string :=
  if existsb (String.eqb id) prev
  then filter (fun x => negb (String.eqb x id)) prev
  else
    match prev with
    | _ :: second :: _ => [second; id]
    | _ => prev ++ [id]
    end.

(** ** lib/safety.ts, the URL checks

    What the checks take from the platform is kept abstract: [trim] is
    [String.prototype.trim], the two tests are [RegExp.prototype.test]
    of [LOCALHOST_REGEX] and of [PRIVATE_IP_REGEX], and [URL_parses u]
    tells whether [new URL(u)] returns rather than throws. *)

Section UrlGuard.
Variable trim : string -> string.
Variable LOCALHOST_REGEX_test : string -> bool.
Variable PRIVATE_IP_REGEX_test : string -> bool.
Variable URL_parses : string -> bool.

Definition startsWith (u searchString : string) : bool :=
  String.prefix searchString u.

Definition isUrlAllowed (url : string) : bool :=
  let u := trim url in
  if negb (startsWith u "http://") && negb (startsWith u "https://")
  then false
  else if LOCALHOST_REGEX_test u then false
  else if PRIVATE_IP_REGEX_test u then false
  else URL_parses u.

Definition getUrlBlockReason (url : string) : option string :=
  if String.eqb (trim url) "" then Some "URL is required."%string
  else
    let u := trim url in
    if negb (startsWith u "http://") && negb (startsWith u "https://")
    then Some "URL must use http:// or https://."%string
    else if LOCALHOST_REGEX_test u
    then Some "Localhost and loopback addresses are not allowed."%string
    else if PRIVATE_IP_REGEX_test u
    then Some "Private IP ranges are not allowed."%string
    else None.

End UrlGuard.

(** ** app/api/load-test/start/route.ts

    The body of a request is the JSON object that [request.json()]
    yields; a property that is missing reads as [undefined], here
    [None]. *)

Section Requests.
Context {num : Type} `{Number num}.
Local Open Scope num_scope.

#[warnings="-register-all"]
Inductive Json :=
| JNull
| JBool (b : bool)
| JNumber (n : num)
| JString (s : string)
| JArray (items : list Json)
| JObject (fields : list (string * Json)).

(** [body.key] *)
Fixpoint property (fields : list (string * Json)) (key : string)
  : option Json :=
  match fields with
  | [] => None
  | (k, v) :: rest => if String.eqb k key then Some v else property rest key
  end.

(** [v == null] *)
Definition is_nullish (v : option Json) : bool :=
  match v with
  | None | Some JNull => true
  | _ => false
  end.

(** [typeof v === "number"], with the number *)
Definition as_number (v : option Json) : option num :=
  match v with
  | Some (JNumber n) => Some n
  | _ => None
  end.

(** JavaScript truthiness of a JSON value *)
Definition truthy_value (v : option Json) : bool :=
  match v with
  | None | Some JNull => false
  | Some (JBool b) => b
  | Some (JNumber n) => truthy n
  | Some (JString s) => negb (String.eqb s "")
  | Some (JArray _) | Some (JObject _) => true
  end.

(** [Object.keys(t).length] *)
Definition keys_length (t : PerformanceThresholds num) : nat :=
  let present (limit : option num) : nat :=
    match limit with
    | Some _ => 1%nat
    | None => 0%nat
    end in
  (present (th_maxErrorRatePercent t) + present (th_maxP95LatencyMs t)
   + present (th_minSuccessRatePercent t))%nat.

Definition parseThresholds (body : list (string * Json))
  : option (PerformanceThresholds num) :=
  let maxError := property body "maxErrorRatePercent" in
  let maxP95 := property body "maxP95LatencyMs" in
  let minSuccess := property body "minSuccessRatePercent" in
  if is_nullish maxError && is_nullish maxP95 && is_nullish minSuccess
  then None
  else
    let t :=
      {| th_maxErrorRatePercent :=
           match as_number maxError with
           | Some n => if n >=? 0 then Some n else None
           | None => None
           end;
         th_maxP95LatencyMs :=
           match as_number maxP95 with
           | Some n => if n >? 0 then Some n else None
           | None => None
           end;
         th_minSuccessRatePercent :=
           match as_number minSuccess with
           | Some n => if n >=? 0 then Some n else None
           | None => None
           end |} in
    if (0 <? keys_length t)%nat then Some t else None.

(** The names of the load patterns, [valid] in [parseLoadPattern]. *)
Definition valid : list (string * LoadPatternType) :=
  [("fixed_concurrency"%string, fixed_concurrency);
   ("fixed_rps"%string, fixed_rps);
   ("ramp_up"%string, ramp_up);
   ("spike"%string, spike)].

Fixpoint pattern_named (names : list (string * LoadPatternType)) (s : string)
  : option LoadPatternType :=
  match names with
  | [] => None
  | (name, ty) :: rest =>
      if String.eqb name s then Some ty else pattern_named rest s
  end.

Definition parseLoadPattern (body : list (string * Json))
  : option (LoadPatternConfig num) :=
  let type :=
    if is_nullish (property body "loadPatternType")
    then
      match property body "loadPattern" with
      | Some (JObject fields) => property fields "type"
      | _ => None
      end
    else property body "loadPatternType" in
  match type with
  | Some (JString s) =>
      match pattern_named valid s with
      | Some ty =>
          Some {| type := ty;
                  targetRps :=
                    match ty with
                    | fixed_rps => as_number (property body "targetRps")
                    | _ => None
                    end;
                  rampUpSeconds :=
                    match ty with
                    | ramp_up => as_number (property body "rampUpSeconds")
                    | _ => None
                    end;
                  spikeConcurrency :=
                    match ty with
                    | spike => as_number (property body "spikeConcurrency")
                    | _ => None
                    end;
                  spikeDurationSeconds :=
                    match ty with
                    | spike =>
                        as_number (property body "spikeDurationSeconds")
                    | _ => None
                    end |}
      | None => None
      end
  | _ => None
  end.

(** What the handler takes from the platform: [String.prototype.trim],
    what the URL checks of lib/safety.ts take, and the conversion of a
    string or of an array to a number, which yields [None] for NaN. *)
Variable trim : string -> string.
Variable LOCALHOST_REGEX_test : string -> bool.
Variable PRIVATE_IP_REGEX_test : string -> bool.
Variable URL_parses : string -> bool.
Variable Number_of_string : string -> option num.
Variable Number_of_array : list Json -> option num.

(** [Number(v)]; [None] is NaN. *)
Definition Number_of (v : Json) : option num :=
  match v with
  | JNull => Some 0
  | JBool b => Some (if b then 1 else 0)
  | JNumber n => Some n
  | JString s => Number_of_string s
  | JArray items => Number_of_array items
  | JObject _ => None
  end.

(** [Number(v) || d] *)
Definition Number_or (v : Json) (d : num) : num :=
  match Number_of v with
  | Some n => if truthy n then n else d
  | None => d
  end.

(** [const { key = d } = body]: the default stands in for [undefined]. *)
Definition property_or (body : list (string * Json)) (key : string)
  (d : Json) : Json :=
  match property body key with
  | Some v => v
  | None => d
  end.

(** The answer of the handler [POST]: a 400 with its error, or the configuration
    that [startLoadTest] is called with. *)
Inductive StartResponse :=
| BadRequest (error : string)
| Started (config : LoadTestConfig num).

Definition POST_start (body : list (string * Json)) : StartResponse :=
  let method := property_or body "method" (JString "GET") in
  let concurrentUsers := property_or body "concurrentUsers" (JNumber 1) in
  let durationSeconds := property_or body "durationSeconds" (JNumber (of_Z 10)) in
  let requestTimeoutMs :=
    property_or body "requestTimeoutMs" (JNumber (of_Z 5000)) in
  let confirmed := property_or body "confirmed" (JBool false) in
  let headless := property_or body "headless" (JBool false) in
  match property body "targetUrl" with
  | Some (JString targetUrl) =>
      if String.eqb targetUrl ""
      then BadRequest "targetUrl is required and must be a string"
      else
        let url := trim targetUrl in
        if negb (isUrlAllowed trim LOCALHOST_REGEX_test PRIVATE_IP_REGEX_test
                   URL_parses url)
        then BadRequest
               match getUrlBlockReason trim LOCALHOST_REGEX_test
                       PRIVATE_IP_REGEX_test url with
               | Some reason => reason
               | None => "URL not allowed"
               end
        else if negb (truthy_value (Some headless))
                && negb (truthy_value (Some confirmed))
        then BadRequest
               "User confirmation required. Set confirmed: true to start the test."
        else
          let thresholds := parseThresholds body in
          let loadPattern := parseLoadPattern body in
          Started
            {| targetUrl := url;
               method := match method with
                         | JString "POST" => POST
                         | _ => GET
                         end;
               concurrentUsers :=
                 Math_max 1 (Math_min (of_Z 100) (Number_or concurrentUsers 1));
               durationSeconds :=
                 Math_max 1
                   (Math_min (of_Z 300) (Number_or durationSeconds (of_Z 10)));
               requestTimeoutMs :=
                 Math_max (of_Z 1000)
                   (Math_min (of_Z 60000)
                      (Number_or requestTimeoutMs (of_Z 5000)));
               thresholds := thresholds;
               loadPattern := loadPattern |}
  | _ => BadRequest "targetUrl is required and must be a string"
  end.

End Requests.

Arguments Json : clear implicits.
Arguments StartResponse : clear implicits.

(** ** app/page.tsx, the form and the request it sends *)

Section HomePage.
Context {num : Type} `{Number num}.

(** The state of the form; its fields carry the prefix [form_].  A
    threshold input that is empty holds [""], here [None]. *)
Record FormState := {
  form_targetUrl : string;
  form_method : HttpMethod;
  form_concurrentUsers : num;
  form_durationSeconds : num;
  form_requestTimeoutMs : num;
  form_loadPatternType : LoadPatternType;
  form_targetRps : num;
  form_rampUpSeconds : num;
  form_spikeConcurrency : num;
  form_spikeDurationSeconds : num;
  form_maxErrorRatePercent : option num;
  form_maxP95LatencyMs : option num;
  form_minSuccessRatePercent : option num
}.

(** The [loadPattern] of the page, which its preview is drawn from. *)
Definition form_loadPattern (f : FormState) : option (LoadPatternConfig num) :=
  match form_loadPatternType f with
  | fixed_concurrency => None
  | fixed_rps =>
      Some {| type := fixed_rps;
              targetRps := Some (form_targetRps f);
              rampUpSeconds := None;
              spikeConcurrency := None;
              spikeDurationSeconds := None |}
  | ramp_up =>
      Some {| type := ramp_up;
              targetRps := None;
              rampUpSeconds := Some (form_rampUpSeconds f);
              spikeConcurrency := None;
              spikeDurationSeconds := None |}
  | spike =>
      Some {| type := spike;
              targetRps := None;
              rampUpSeconds := None;
              spikeConcurrency := Some (form_spikeConcurrency f);
              spikeDurationSeconds := Some (form_spikeDurationSeconds f) |}
  end.

(** The [thresholds] of the page. *)
Definition form_thresholds (f : FormState) : option (PerformanceThresholds num) :=
  let t :=
    {| th_maxErrorRatePercent := form_maxErrorRatePercent f;
       th_maxP95LatencyMs := form_maxP95LatencyMs f;
       th_minSuccessRatePercent := form_minSuccessRatePercent f |} in
  if (0 <? keys_length t)%nat then Some t else None.

Definition LoadPatternType_name (ty : LoadPatternType) : string :=
  match ty with
  | fixed_concurrency => "fixed_concurrency"
  | fixed_rps => "fixed_rps"
  | ramp_up => "ramp_up"
  | spike => "spike"
  end.

Definition HttpMethod_name (m : HttpMethod) : string :=
  match m with
  | GET => "GET"
  | POST => "POST"
  end.

(** A property of the object given to [JSON.stringify]: one whose value
    is [undefined] is left out. *)
Definition optional_number (key : string) (v : option num)
  : list (string * Json num) :=
  match v with
  | Some n => [(key, JNumber n)]
  | None => []
  end.

(** The body [startTest] sends, as the server parses it; [trim] is
    [String.prototype.trim]. *)
Definition request_body (trim : string -> string) (f : FormState)
  : list (string * Json num) :=
  [("targetUrl"%string, JString (trim (form_targetUrl f)));
   ("method"%string, JString (HttpMethod_name (form_method f)));
   ("concurrentUsers"%string, JNumber (form_concurrentUsers f));
   ("durationSeconds"%string, JNumber (form_durationSeconds f));
   ("requestTimeoutMs"%string, JNumber (form_requestTimeoutMs f));
   ("confirmed"%string, JBool true)]
  ++ optional_number "maxErrorRatePercent" (form_maxErrorRatePercent f)
  ++ optional_number "maxP95LatencyMs" (form_maxP95LatencyMs f)
  ++ optional_number "minSuccessRatePercent" (form_minSuccessRatePercent f)
  ++ [("loadPatternType"%string,
       JString (LoadPatternType_name (form_loadPatternType f)))]
  ++ optional_number "targetRps"
       (match form_loadPatternType f with
        | fixed_rps => Some (form_targetRps f)
        | _ => None
        end)
  ++ optional_number "rampUpSeconds"
       (match form_loadPatternType f with
        | ramp_up => Some (form_rampUpSeconds f)
        | _ => None
        end)
  ++ optional_number "spikeConcurrency"
       (match form_loadPatternType f with
        | spike => Some (form_spikeConcurrency f)
        | _ => None
        end)
  ++ optional_number "spikeDurationSeconds"
       (match form_loadPatternType f with
        | spike => Some (form_spikeDurationSeconds f)
        | _ => None
        end).

End HomePage.

(** ** Vocabulary of the further properties *)

(** A later state of the same running test: zero or more worker updates
    after [state]. *)
Inductive run_continues {num : Type} `{Number num}
  (state : LoadTestState num) (stop : bool)
  : LoadTestState num -> bool -> Prop :=
| continues_here : run_continues state stop state stop
| continues_request : forall state' stop' start finish outcome now now',
    run_continues state stop state' stop' ->
    run_continues state stop
      (fst (worker_update (runOneRequest start finish outcome) now now' state' stop'))
      (snd (worker_update (runOneRequest start finish outcome) now now' state' stop')).

(** The history record [finalize] writes for a completed state. *)
Definition snapshot_of {num : Type} (s : LoadTestState num)
  (r : TestHistoryRecord num) : Prop :=
  h_id r = id s /\ h_config r = config s /\ h_metrics r = metrics s
  /\ h_safetyScore r = safetyScore s /\ h_verdict r = verdict s
  /\ h_thresholdVerdict r = thresholdVerdict s
  /\ h_verdictReasons r = verdictReasons s
  /\ h_firstViolationAt r = firstViolationAt s
  /\ h_startedAt r = startedAt s
  /\ Some (h_completedAt r) = completedAt s
  /\ h_timeSeries r = Some (timeSeries s).

(** A preview point lies at or after [t], within the duration, and
    carries the concurrency of its time. *)
Definition preview_point_ok (pattern : option (LoadPatternConfig Q))
  (D N t : Q) (p : PreviewPoint Q) : Prop :=
  t <= timeSec p /\ timeSec p <= D
  /\ concurrency p
     = getConcurrencyAtWithDuration pattern (timeSec p * 1000) D N.

(** The admissions the engine makes ([runOneRequest]): a request start is
    recorded right after a check that allowed it, while a check that
    refused is retried later.  The states are the window, the starts
    recorded so far (oldest first) and the last clock reading; the clock
    does not go back. *)
Inductive limiter_run {num : Type} `{Number num}
  : list num -> list num -> num -> Prop :=
| limiter_start : forall clock, limiter_run [] [] clock
| limiter_refused : forall window starts clock now,
    limiter_run window starts clock ->
    (clock <=? now)%num = true ->
    fst (checkRateLimit now window) = false ->
    limiter_run (snd (checkRateLimit now window)) starts now
| limiter_admitted : forall window starts clock now now',
    limiter_run window starts clock ->
    (clock <=? now)%num = true ->
    (now <=? now')%num = true ->
    fst (checkRateLimit now window) = true ->
    limiter_run (recordRequestSent now' (snd (checkRateLimit now window)))
      (starts ++ [now']) now'.

(** The starts among [starts] that are at most 1000 ms older than [r]. *)
Definition within_last_second (r : Q) (starts : list Q) : list Q :=
  filter (fun ts => Qle_bool (r - 1000) ts) starts.

(** The sum of [f] over a list. *)
Definition sum_of {A : Type} (f : A -> Q) (l : list A) : Q :=
  fold_right (fun x acc => f x + acc) 0 l.

(** The start of the one-second bucket of a result, in seconds after
    [startTime]. *)
Definition bucket_of (startTime : Q) (r : RequestResult Q) : Z :=
  Qfloor ((timestamp r - startTime) / 1000).

(** How often a key equal to [k] occurs among [keys]. *)
Definition occurrences (k : Q) (keys : list Q) : nat :=
  List.length (filter (fun k' => Qeq_bool k' k) keys).

(** A bucket that was filled: its counts are not negative and it holds
    at least one result. *)
Definition filled_bucket (b : Bucket (num:=Q)) : Prop :=
  0 <= b_success b /\ 0 <= b_fail b /\ 1 <= b_success b + b_fail b.

(** One iteration of the loop of [buildTimeSeries], and the bucket map
    after the loop. *)
Definition bucket_step (startTime : Q) (bucketMap : list (Q * Bucket (num:=Q)))
  (r : RequestResult Q) : list (Q * Bucket (num:=Q)) :=
  let bucketIndex :=
    Math_floor ((timestamp r - startTime) / of_Z 1000 / BUCKET_SECONDS)%num in
  let key := (bucketIndex * BUCKET_SECONDS)%num in
  let b :=
    match bucket_get key bucketMap with
    | Some b => b
    | None => empty_bucket
    end in
  bucket_set key
    {| responseTimes := responseTimes b ++ [responseTimeMs r];
       b_success := if success r then (b_success b + 1)%num else b_success b;
       b_fail := if success r then b_fail b else (b_fail b + 1)%num |}
    bucketMap.

Definition bucketMap_of (results : list (RequestResult Q)) (startTime : Q)
  : list (Q * Bucket (num:=Q)) :=
  fold_left (bucket_step startTime) results [].

(** The point [buildTimeSeries] makes of the bucket under [key]. *)
Definition point_of (startTime : Q) (bucketMap : list (Q * Bucket (num:=Q)))
  (key : Q) : TimeSeriesPoint Q :=
  let b :=
    match bucket_get key bucketMap with
    | Some b => b
    | None => empty_bucket
    end in
  let total := (b_success b + b_fail b)%num in
  let avgRt :=
    if (len (num:=Q) (responseTimes b) >? 0)%num
    then (reduce (fun a x => a + x) 0 (responseTimes b) / len (responseTimes b))%num
    else 0%num in
  let errRate :=
    if (total >? 0)%num then (b_fail b / total * of_Z 100)%num else 0%num in
  {| time := (startTime + key * of_Z 1000)%num;
     responseTime := (Math_round (avgRt * of_Z 100) / of_Z 100)%num;
     errorRate := (Math_round (errRate * of_Z 100) / of_Z 100)%num;
     successCount := b_success b;
     failCount := b_fail b |}.

(** What the loop of [buildTimeSeries] keeps true of the bucket map,
    [done] being the results processed so far: no key occurs twice, the
    counts add up to the successes and the failures, every bucket is
    filled, and the keys are the buckets of the results. *)
Definition bucket_invariant (startTime : Q)
  (bucketMap : list (Q * Bucket (num:=Q))) (done : list (RequestResult Q))
  : Prop :=
  (forall k, (occurrences k (map fst bucketMap) <= 1)%nat)
  /\ sum_of (fun e => b_success (snd e)) bucketMap
     == inject_Z (Z.of_nat (List.length (filter (fun r => success r) done)))
  /\ sum_of (fun e => b_fail (snd e)) bucketMap
     == inject_Z (Z.of_nat (List.length
                              (filter (fun r => negb (success r)) done)))
  /\ Forall (fun e => filled_bucket (snd e)) bucketMap
  /\ Forall (fun k => exists r, In r done
                                /\ k == inject_Z (bucket_of startTime r))
       (map fst bucketMap)
  /\ (forall r, In r done ->
        exists k, In k (map fst bucketMap)
                  /\ k == inject_Z (bucket_of startTime r)).

(** [M'] is no better than [M] in what the safety score looks at: the
    rate of HTTP errors, the rate of timeouts, the p95 and the average
    latency are no lower, at the same throughput. *)
Definition no_better (M M' : LoadTestMetrics Q) : Prop :=
  httpErrorRate M <= httpErrorRate M'
  /\ timeoutRatePercentage M <= timeoutRatePercentage M'
  /\ p95ResponseTime M <= p95ResponseTime M'
  /\ avgResponseTime M <= avgResponseTime M'
  /\ requestsPerSecond M == requestsPerSecond M'.

(** The limits entered in the form are ones the start handler accepts:
    an error rate and a success rate that are not negative, a p95
    latency that is positive. *)
Definition valid_limits (f : FormState (num:=Q)) : Prop :=
  (forall l, form_maxErrorRatePercent f = Some l -> 0 <= l)
  /\ (forall l, form_maxP95LatencyMs f = Some l -> 0 < l)
  /\ (forall l, form_minSuccessRatePercent f = Some l -> 0 <= l).

(** Limits that a run without a failure meets: the greatest error rate
    allowed is not negative and the least success rate asked for is at
    most 100. *)
Definition attainable (H : PerformanceThresholds Q) : Prop :=
  (forall l, th_maxErrorRatePercent H = Some l -> 0 <= l)
  /\ (forall l, th_minSuccessRatePercent H = Some l -> l <= 100).

(** ** Further scenarios *)

(** A test after its first request: a 200 after 120 ms. *)
Definition after_one_success : LoadTestState Q * bool :=
  worker_update (runOneRequest 0 120 (Responded (200 : Q))) 130 130
    (initial_state "test_1" sample_config 0) false.

(** The configuration of scenario S1 under the thresholds [H]. *)
Definition config_with {num : Type} `{Number num}
  (H : PerformanceThresholds num) : LoadTestConfig num :=
  {| targetUrl := "http://example.org/";
     method := GET;
     concurrentUsers := of_Z 2;
     durationSeconds := of_Z 3;
     requestTimeoutMs := of_Z 5000;
     thresholds := Some H;
     loadPattern := None |}.

(** Thresholds with a single limit, on either arithmetic. *)
Definition error_rate_limit {num : Type} (l : num) : PerformanceThresholds num :=
  {| th_maxErrorRatePercent := Some l;
     th_maxP95LatencyMs := None;
     th_minSuccessRatePercent := None |}.

Definition success_rate_limit {num : Type} (l : num)
  : PerformanceThresholds num :=
  {| th_maxErrorRatePercent := None;
     th_maxP95LatencyMs := None;
     th_minSuccessRatePercent := Some l |}.

Definition p95_limit {num : Type} (l : num) : PerformanceThresholds num :=
  {| th_maxErrorRatePercent := None;
     th_maxP95LatencyMs := Some l;
     th_minSuccessRatePercent := None |}.

(** A test under an error rate of at most 10, after a first request
    that was answered with a 500 after 50 ms. *)
Definition after_first_failure {num : Type} `{Number num}
  : LoadTestState num * bool :=
  worker_update (runOneRequest (of_Z 0) (of_Z 50) (Responded (of_Z 500)))
    (of_Z 60) (of_Z 60)
    (initial_state "test_2" (config_with (error_rate_limit (of_Z 10)))
       (of_Z 0))
    false.

(** 58 successes in 100 requests of 100 ms, and a running test that
    holds them and asks for a success rate of at least 58. *)
Definition boundary_results {num : Type} `{Number num}
  : list (RequestResult num) :=
  map success_after (repeat 100%Z 58)
  ++ repeat (runOneRequest (of_Z 0) (of_Z 100) (Responded (of_Z 500))) 42.

Definition boundary_state {num : Type} `{Number num} : LoadTestState num :=
  {| id := "test_3";
     config := config_with (success_rate_limit (of_Z 58));
     status := running;
     startedAt := of_Z 0;
     completedAt := None;
     metrics := computeMetrics boundary_results (of_Z 10);
     safetyScore := None;
     verdict := OK;
     thresholdVerdict := None;
     verdictReasons := None;
     firstViolationAt := None;
     requestResults := boundary_results;
     timeSeries := [] |}.

(** Sixty successes of 500 ms. *)
Definition slow_results {num : Type} `{Number num} : list (RequestResult num) :=
  map success_after (repeat 500%Z 60).

(** 19 successes of 0 ms and one of half a millisecond: the exact p99
    is 0.405. *)
Definition near_tie_results {num : Type} `{Number num}
  : list (RequestResult num) :=
  map success_after (repeat 0%Z 19)
  ++ [ {| responseTimeMs := dec 5 10;
          success := true;
          statusCode := Some (of_Z 200);
          error := None;
          timestamp := of_Z 0 |} ].

(** The same with a last response time of 1/2 + 2^-53 ms, the double
    next above one half: the exact p99 lies above 0.405. *)
Definition above_tie_results {num : Type} `{Number num}
  : list (RequestResult num) :=
  map success_after (repeat 0%Z 19)
  ++ [ {| responseTimeMs := (dec 5 10 + dec 1 9007199254740992)%num;
          success := true;
          statusCode := Some (of_Z 200);
          error := None;
          timestamp := of_Z 0 |} ].

(** Metrics whose penalties add up to 50.5: 49 HTTP errors and 13
    timeouts in 100 requests, a mean of 350 ms, half a request per
    second. *)
Definition tie_metrics {num : Type} `{Number num} : LoadTestMetrics num :=
  {| totalRequests := of_Z 100; successfulRequests := of_Z 38;
     failedRequests := of_Z 62; errorRatePercentage := of_Z 62;
     requestsPerSecond := dec 5 10; avgResponseTime := of_Z 350;
     minResponseTime := of_Z 350; maxResponseTime := of_Z 350;
     p95ResponseTime := of_Z 350; p99ResponseTime := of_Z 350;
     timeoutCount := of_Z 13; timeoutRatePercentage := of_Z 13 |}.

(** The same with a mean of 350 - 2^-44 ms, the double next below 350:
    the penalties add up to less than 50.5. *)
Definition below_tie_metrics {num : Type} `{Number num}
  : LoadTestMetrics num :=
  {| totalRequests := of_Z 100; successfulRequests := of_Z 38;
     failedRequests := of_Z 62; errorRatePercentage := of_Z 62;
     requestsPerSecond := dec 5 10;
     avgResponseTime := (of_Z 350 - dec 1 17592186044416)%num;
     minResponseTime := of_Z 350; maxResponseTime := of_Z 350;
     p95ResponseTime := of_Z 350; p99ResponseTime := of_Z 350;
     timeoutCount := of_Z 13; timeoutRatePercentage := of_Z 13 |}.

(** A spike pattern of 2 seconds whose [spikeConcurrency] is 0. *)
Definition spike_to_zero {num : Type} `{Number num} : LoadPatternConfig num :=
  {| type := spike;
     targetRps := None;
     rampUpSeconds := None;
     spikeConcurrency := Some (of_Z 0);
     spikeDurationSeconds := Some (of_Z 2) |}.

(** The state of the form when the page opens, and with two limits
    entered. *)
Definition initial_form : FormState (num:=Q) :=
  {| form_targetUrl := "https://httpbin.org/get";
     form_method := GET;
     form_concurrentUsers := 5;
     form_durationSeconds := 10;
     form_requestTimeoutMs := 5000;
     form_loadPatternType := fixed_concurrency;
     form_targetRps := 10;
     form_rampUpSeconds := 10;
     form_spikeConcurrency := 15;
     form_spikeDurationSeconds := 5;
     form_maxErrorRatePercent := None;
     form_maxP95LatencyMs := None;
     form_minSuccessRatePercent := None |}.

Definition form_with_limits : FormState (num:=Q) :=
  {| form_targetUrl := "https://httpbin.org/get";
     form_method := GET;
     form_concurrentUsers := 500;
     form_durationSeconds := 10;
     form_requestTimeoutMs := 5000;
     form_loadPatternType := ramp_up;
     form_targetRps := 10;
     form_rampUpSeconds := 10;
     form_spikeConcurrency := 15;
     form_spikeDurationSeconds := 5;
     form_maxErrorRatePercent := Some 5;
     form_maxP95LatencyMs := Some 800;
     form_minSuccessRatePercent := None |}.

(** A platform for the scenarios: strings without blanks around them,
    URLs that parse and match neither pattern, and no conversion of
    strings or arrays to numbers. *)
Definition no_trim (s : string) : string := s.
Definition no_match (u : string) : bool := false.
Definition all_parse (u : string) : bool := true.
Definition no_number {A : Type} (v : A) : option Q := None.

(** The configuration the start handler makes of the request of
    [form_with_limits]. *)
Definition config_of_form_with_limits : LoadTestConfig Q :=
  {| targetUrl := "https://httpbin.org/get";
     method := GET;
     concurrentUsers := 100;
     durationSeconds := 10;
     requestTimeoutMs := 5000;
     thresholds := Some {| th_maxErrorRatePercent := Some 5;
                           th_maxP95LatencyMs := Some 800;
                           th_minSuccessRatePercent := None |};
     loadPattern := Some (ramp_up_over 10) |}.

(** * Properties

    A statement over a type [num] with its [Number] holds of the
    binary64 program and of exact arithmetic alike; a statement over [Q]
    is one of exact arithmetic. *)

(** Unfold the operations of [QNumber]. *)
Ltac qnum :=
  cbn [add sub mul div ltb leb eqb of_Z dec Math_floor Math_ceil Math_round
       to_index QNumber] in *.

(** ** The comparisons *)

Lemma SFcompare_refl (x : spec_float) : SFcompare x x <> Some Lt.
Proof.
  destruct x as [s|s| |s m e]; simpl; try discriminate.
  - destruct s; discriminate.
  - destruct s; rewrite Z.compare_refl;
      rewrite ?Pos.compare_cont_refl, ?Pos.compare_refl; simpl;
      try discriminate.
Qed.

Lemma float_StrictLess : StrictLess float.
Proof.
  intros x. cbn [ltb IEEENumber]. rewrite FloatAxioms.ltb_spec. unfold SFltb.
  pose proof (SFcompare_refl (Prim2SF x)) as Hc.
  destruct (SFcompare (Prim2SF x) (Prim2SF x)) as [[| |]|]; congruence.
Qed.

Lemma Q_StrictLess : StrictLess Q.
Proof.
  intros x. cbn [ltb QNumber]. apply negb_false_iff, Qle_bool_iff, Qle_refl.
Qed.

(** ** Counting *)

Lemma is_timeout_failed {num : Type} (r : RequestResult num) :
  tagged_only_on_failure r -> is_timeout r = true -> success r = false.
Proof.
  unfold tagged_only_on_failure, is_timeout. intros Htag Hto.
  destruct (success r); [|reflexivity].
  rewrite (Htag eq_refl) in Hto. discriminate.
Qed.

Lemma timeouts_and_successes {num : Type} (results : list (RequestResult num)) :
  Forall tagged_only_on_failure results ->
  (List.length (filter is_timeout results)
   + List.length (filter (fun r => success r) results)
   <= List.length results)%nat.
Proof.
  induction 1 as [|r rs Hr _ IH]; simpl; [lia|].
  destruct (is_timeout r) eqn:Hto.
  - rewrite (is_timeout_failed Hr Hto). simpl. lia.
  - destruct (success r); simpl; lia.
Qed.

Lemma computeMetrics_count_invariants (results : list (RequestResult Q)) (d : Q) :
  Forall tagged_only_on_failure results ->
  count_invariants (computeMetrics results d).
Proof.
  intros Htag. unfold count_invariants, computeMetrics, len. cbn -[filter]. split.
  - ring.
  - pose proof (timeouts_and_successes Htag) as Hle.
    unfold Qminus. rewrite <- inject_Z_opp, <- inject_Z_plus, <- Zle_Qle. lia.
Qed.

Lemma runOneRequest_tagged {num : Type} `{Number num} (start finish : num)
  (outcome : FetchOutcome) :
  tagged_only_on_failure (runOneRequest start finish outcome).
Proof.
  unfold tagged_only_on_failure. destruct outcome; simpl; [reflexivity|discriminate].
Qed.

Lemma worker_update_results {num : Type} `{Number num} (r : RequestResult num)
  (now now' : num) (st : LoadTestState num) (stop : bool) :
  requestResults (fst (worker_update r now now' st stop)) = requestResults st ++ [r].
Proof. reflexivity. Qed.

Lemma worker_update_status {num : Type} `{Number num} (r : RequestResult num)
  (now now' : num) (st : LoadTestState num) (stop : bool) :
  status (fst (worker_update r now now' st stop)) = status st.
Proof. reflexivity. Qed.

Lemma run_state_tagged {num : Type} `{Number num} id0 config0 (startedAt0 : num)
  (st : LoadTestState num) (stop : bool) :
  run_state id0 config0 startedAt0 st stop ->
  status st = running /\ Forall tagged_only_on_failure (requestResults st).
Proof.
  induction 1 as [|st stop start finish outcome now now' _ [IHs IHr]].
  - split; [reflexivity|constructor].
  - rewrite worker_update_status, worker_update_results. split; [exact IHs|].
    apply Forall_app. split; [exact IHr|].
    constructor; [apply runOneRequest_tagged|constructor].
Qed.

Lemma finalize_metrics {num : Type} `{Number num} (now now' : num)
  (s : LoadTestState num) history :
  status s = running ->
  status (fst (finalize now now' s history)) = completed
  /\ metrics (fst (finalize now now' s history))
     = computeMetrics (requestResults s) ((now - startedAt s) / of_Z 1000)%num.
Proof. intros Hs. unfold finalize. rewrite Hs. split; reflexivity. Qed.

(** C1.  The metrics of a result list in which only failed results carry
    an error tag satisfy successful + failed = total and
    timeoutCount <= failed; in particular so do the metrics of every
    completed test, whose results all come from [runOneRequest]. *)
Theorem completed_test_count_invariants :
  (forall (results : list (RequestResult Q)) (d : Q),
      Forall tagged_only_on_failure results ->
      count_invariants (computeMetrics results d))
  /\ (forall id0 config0 startedAt0 (st : LoadTestState Q) stop now now' history,
         run_state id0 config0 startedAt0 st stop ->
         let T := fst (finalize now now' st history) in
         status T = completed /\ count_invariants (metrics T)).
Proof.
  split.
  - exact computeMetrics_count_invariants.
  - intros id0 config0 startedAt0 st stop now now' history Hrun T.
    destruct (run_state_tagged Hrun) as [Hs Htag].
    destruct (finalize_metrics now now' st history Hs) as [Hc Hm].
    subst T. split; [exact Hc|].
    rewrite Hm. apply computeMetrics_count_invariants, Htag.
Qed.

(** ** Percentiles *)

Lemma round_hundredths (x : Q) :
  rounded_to_two_decimals x (inject_Z (Qfloor (x * inject_Z 100 + (1 # 2))) / inject_Z 100).
Proof.
  set (z := Qfloor (x * inject_Z 100 + (1 # 2))).
  assert (Hy : inject_Z z / inject_Z 100 == z # 100) by (symmetry; apply Qmake_Qdiv).
  pose proof (Qfloor_le (x * inject_Z 100 + (1 # 2))) as Hlo.
  pose proof (Qlt_floor (x * inject_Z 100 + (1 # 2))) as Hhi.
  fold z in Hlo, Hhi. rewrite inject_Z_plus in Hhi.
  assert (Hz : inject_Z z == (z # 100) * 100).
  { rewrite (Qmake_Qdiv z 100). field. }
  change (inject_Z 100) with 100 in *. change (inject_Z 1) with 1 in *.
  split; [exists z; exact Hy|]. rewrite Hy. split; lra.
Qed.

Lemma floor_eq_ceiling (i : Q) :
  Qfloor i = Qceiling i -> i == inject_Z (Qfloor i).
Proof.
  intros Heq. pose proof (Qfloor_le i) as Hlo. pose proof (Qle_ceiling i) as Hhi.
  rewrite <- Heq in Hhi. apply Qle_antisym; assumption.
Qed.

Lemma percentile_interpolate (v : list Q) (p : Q) :
  (1 <= List.length v)%nat ->
  percentile v p == interpolate v ((inject_Z (Z.of_nat (List.length v)) - 1) * p).
Proof.
  intros HL. unfold percentile, interpolate, at_index, len. qnum.
  destruct (Nat.eqb_spec (List.length v) 0) as [H0|_]; [lia|].
  change (inject_Z 1) with 1. change (inject_Z 0) with 0.
  set (i := (inject_Z (Z.of_nat (List.length v)) - 1) * p).
  rewrite !Qfloor_Z.
  destruct (Qeq_bool (inject_Z (Qfloor i)) (inject_Z (Qceiling i))) eqn:Hb;
    [|reflexivity].
  apply Qeq_bool_eq in Hb. apply (proj1 (inject_Z_injective _ _)) in Hb.
  rewrite <- Hb. rewrite <- (floor_eq_ceiling i Hb). ring.
Qed.

(** ** Sorting *)

Lemma sort_insert_perm {num : Type} `{Number num} (compare : num -> num -> num)
  (x : num) (arr : list num) :
  Permutation (sort_insert compare x arr) (x :: arr).
Proof.
  induction arr as [|y rest IH]; simpl; [reflexivity|].
  destruct (ltb _ _); [|reflexivity].
  rewrite IH. apply perm_swap.
Qed.

Lemma sort_perm {num : Type} `{Number num} (compare : num -> num -> num)
  (arr : list num) :
  Permutation (sort compare arr) arr.
Proof.
  induction arr as [|x rest IH]; simpl; [reflexivity|].
  rewrite sort_insert_perm. constructor. exact IH.
Qed.

Lemma sort_length {num : Type} `{Number num} (compare : num -> num -> num)
  (arr : list num) :
  List.length (sort compare arr) = List.length arr.
Proof. apply Permutation_length, sort_perm. Qed.

Lemma sort_insert_ascending (x : Q) (arr : list Q) :
  ascending arr -> ascending (sort_insert (fun a b => (a - b)%num) x arr).
Proof.
  unfold ascending. induction 1 as [|y rest Hs IH Hy]; simpl.
  - repeat constructor.
  - qnum. destruct (Qle_bool (x - y) (inject_Z 0)) eqn:Hc; simpl.
    + apply Qle_bool_iff in Hc. change (inject_Z 0) with 0 in Hc.
      assert (Hxy : x <= y) by lra.
      constructor; [constructor; assumption|].
      constructor; [exact Hxy|].
      eapply Forall_impl; [|exact Hy]. intros a Ha. lra.
    + assert (Hyx : y <= x).
      { destruct (Qlt_le_dec y x) as [Hlt|Hle]; [lra|].
        assert (Hle' : x - y <= 0) by lra.
        apply Qle_bool_iff in Hle'. change 0 with (inject_Z 0) in Hle'.
        congruence. }
      constructor; [exact IH|].
      eapply Permutation_Forall; [symmetry; apply sort_insert_perm|].
      constructor; assumption.
Qed.

Lemma sort_ascending (arr : list Q) :
  ascending (sort (fun a b => (a - b)%num) arr).
Proof.
  induction arr as [|x rest IH]; simpl; [constructor|].
  apply sort_insert_ascending, IH.
Qed.

Lemma ascending_nth (v : list Q) (i j : nat) :
  ascending v -> (i <= j < List.length v)%nat -> nth i v 0 <= nth j v 0.
Proof.
  unfold ascending. intros Hs. revert i j.
  induction Hs as [|x rest Hs IH Hx]; simpl; intros i j Hij; [lia|].
  destruct i as [|i], j as [|j]; try lia.
  - lra.
  - rewrite Forall_forall in Hx. apply Hx, nth_In. lia.
  - apply IH. lia.
Qed.

(** The sorted successes are the successful response times in ascending
    order. *)
Lemma sorted_successes_spec (results : list (RequestResult Q)) :
  ascending (sorted_successes results)
  /\ Permutation (sorted_successes results) (successful_times results).
Proof. split; [apply sort_ascending|apply sort_perm]. Qed.

Lemma len_positive {A : Type} (arr : list A) :
  (1 <= List.length arr)%nat -> (len (num:=Q) arr >? 0)%num = true.
Proof.
  intros HL. unfold len. qnum. apply negb_true_iff.
  destruct (Qle_bool _ _) eqn:Hb; [|reflexivity].
  apply Qle_bool_iff in Hb. rewrite <- Zle_Qle in Hb. lia.
Qed.

Lemma len_zero {A : Type} (arr : list A) :
  List.length arr = 0%nat -> (len (num:=Q) arr >? 0)%num = false.
Proof. intros HL. unfold len. rewrite HL. reflexivity. Qed.




(** ** Threshold verdicts *)

Lemma ltb_lt (x y : Q) : (x <? y)%num = true <-> x < y.
Proof.
  qnum. rewrite negb_true_iff. split.
  - intros Hb. apply Qnot_le_lt. intros Hle.
    apply Qle_bool_iff in Hle. congruence.
  - intros Hlt. destruct (Qle_bool y x) eqn:Hb; [|reflexivity].
    apply Qle_bool_iff in Hb. lra.
Qed.

Lemma ltb_ge (x y : Q) : (x <? y)%num = false <-> y <= x.
Proof.
  qnum. rewrite negb_false_iff. apply Qle_bool_iff.
Qed.

Lemma leb_le (x y : Q) : (x <=? y)%num = true <-> x <= y.
Proof. qnum. apply Qle_bool_iff. Qed.

Lemma leb_gt (x y : Q) : (x <=? y)%num = false <-> y < x.
Proof.
  qnum. split.
  - intros Hb. apply Qnot_le_lt. intros Hle.
    apply Qle_bool_iff in Hle. congruence.
  - intros Hlt. destruct (Qle_bool x y) eqn:Hb; [|reflexivity].
    apply Qle_bool_iff in Hb. lra.
Qed.

Lemma Qle_bool_false (x y : Q) : Qle_bool x y = false <-> y < x.
Proof. apply (leb_gt x y). Qed.

(** Turn the boolean comparisons among the hypotheses into propositions. *)
Ltac props :=
  qnum;
  repeat match goal with
    | H : negb _ = true |- _ => apply negb_true_iff in H
    | H : negb _ = false |- _ => apply negb_false_iff in H
    | H : Qle_bool _ _ = true |- _ => apply Qle_bool_iff in H
    | H : Qle_bool _ _ = false |- _ => apply Qle_bool_false in H
    end;
  change (inject_Z 0) with 0 in *;
  change (inject_Z 1) with 1 in *.

Lemma successRate_code (M : LoadTestMetrics Q) :
  (if (totalRequests M >? 0)%num
   then (successfulRequests M / totalRequests M * of_Z 100)%num
   else of_Z 100)
  = successRate M.
Proof.
  unfold successRate.
  destruct (totalRequests M >? 0)%num eqn:Hb; props;
    destruct (Qlt_le_dec 0 (totalRequests M)); try reflexivity; lra.
Qed.

(** Which reasons an evaluation produces, its verdict and its
    [firstViolationAt], for thresholds that are present. *)
Lemma evaluateThresholds_present (now : Q) (M : LoadTestMetrics Q)
  (H : PerformanceThresholds Q) :
  let ev := evaluateThresholds now M (Some H) in
  (has_reason maxErrorRatePercent (ev_reasons ev) = true
   <-> violates_maxErrorRate M H)
  /\ (has_reason minSuccessRatePercent (ev_reasons ev) = true
      <-> violates_minSuccessRate M H)
  /\ (has_reason maxP95LatencyMs (ev_reasons ev) = true
      <-> violates_maxP95 M H)
  /\ ev_verdict ev =
       (if has_reason maxErrorRatePercent (ev_reasons ev)
           || has_reason minSuccessRatePercent (ev_reasons ev)
        then FAIL
        else if has_reason maxP95LatencyMs (ev_reasons ev) then DEGRADED
        else PASS)
  /\ (ev_firstViolationAt ev = Some now <-> ev_reasons ev <> [])
  /\ (ev_firstViolationAt ev = None <-> ev_reasons ev = []).
Proof.
  destruct H as [e p s]. intros ev. subst ev.
  unfold evaluateThresholds, violates_maxErrorRate, violates_minSuccessRate,
    violates_maxP95.
  cbn [th_maxErrorRatePercent th_maxP95LatencyMs th_minSuccessRatePercent].
  rewrite successRate_code.
  destruct e as [e|], s as [s|], p as [p|]; qnum;
    repeat match goal with
      | |- context [Qle_bool ?a ?b] => destruct (Qle_bool a b) eqn:?
      end; cbn; props.
  all: repeat split; try reflexivity; try discriminate; try congruence.
  all: try solve [intros (l & Hl & Hlt); inversion Hl; subst; lra].
  all: try solve [intros _; eexists; split; [reflexivity|assumption]].
Qed.

(** Which reasons an evaluation produces, in which order and with which
    content, its verdict and its [firstViolationAt], for thresholds that
    are present and in the arithmetic of the program. *)
Lemma evaluateThresholds_computed {num : Type} `{Number num} (now : num)
  (M : LoadTestMetrics num) (H0 : PerformanceThresholds num) :
  let ev := evaluateThresholds now M (Some H0) in
  (has_reason maxErrorRatePercent (ev_reasons ev) = true
   <-> exceeds_maxErrorRate M H0)
  /\ (has_reason minSuccessRatePercent (ev_reasons ev) = true
      <-> below_minSuccessRate M H0)
  /\ (has_reason maxP95LatencyMs (ev_reasons ev) = true
      <-> exceeds_maxP95 M H0)
  /\ ev_verdict ev =
       (if has_reason maxErrorRatePercent (ev_reasons ev)
           || has_reason minSuccessRatePercent (ev_reasons ev)
        then FAIL
        else if has_reason maxP95LatencyMs (ev_reasons ev) then DEGRADED
        else PASS)
  /\ (ev_firstViolationAt ev = Some now <-> ev_reasons ev <> [])
  /\ (ev_firstViolationAt ev = None <-> ev_reasons ev = [])
  /\ map (fun r => threshold r) (ev_reasons ev)
     = filter (fun k => has_reason k (ev_reasons ev))
         [maxErrorRatePercent; minSuccessRatePercent; maxP95LatencyMs]
  /\ Forall (reason_reported M H0) (ev_reasons ev).
Proof.
  destruct H0 as [e p s]. intros ev. subst ev.
  unfold evaluateThresholds, exceeds_maxErrorRate, below_minSuccessRate,
    exceeds_maxP95.
  cbn [th_maxErrorRatePercent th_maxP95LatencyMs th_minSuccessRatePercent].
  change (if (totalRequests M >? 0)%num
          then (successfulRequests M / totalRequests M * of_Z 100)%num
          else of_Z 100) with (computed_successRate M).
  destruct e as [e|], s as [s|], p as [p|];
    repeat match goal with
      | |- context [ltb ?a ?b] => destruct (ltb a b) eqn:?
      end; cbn.
  all: repeat match goal with |- _ /\ _ => split | |- _ <-> _ => split end.
  all: try reflexivity; try discriminate; try congruence.
  all: try solve [intros (l & Hl & Hlt); inversion Hl; subst; congruence].
  all: try solve [intros _; eexists; split; [reflexivity|assumption]].
  all: try solve [intros (l & Hl & Hlt); discriminate].
  all: repeat (constructor; [unfold reason_reported; cbn;
                             split; [reflexivity|]; split; [reflexivity|];
                             eexists; split; [reflexivity|assumption]|]).
  all: try constructor.
Qed.



(** ** Auto-stop *)

Lemma shouldAutoStop_iff {num : Type} `{Number num} (v : ThresholdVerdict)
  (rs : list (VerdictReason num)) :
  shouldAutoStop v rs = true
  <-> v = FAIL
      /\ exists r, In r rs
                   /\ (threshold r = maxErrorRatePercent
                       \/ threshold r = minSuccessRatePercent).
Proof.
  unfold shouldAutoStop, some. split.
  - destruct v; try discriminate. intros Hex.
    apply existsb_exists in Hex. destruct Hex as (r & Hin & Hc).
    split; [reflexivity|]. exists r. split; [exact Hin|].
    unfold is_critical in Hc. destruct (threshold r); auto; discriminate.
  - intros (-> & r & Hin & Hk). apply existsb_exists. exists r.
    split; [exact Hin|]. unfold is_critical. destruct Hk as [-> | ->]; reflexivity.
Qed.

Lemma has_reason_In {num : Type} (k : ThresholdKey) (rs : list (VerdictReason num)) :
  has_reason k rs = true <-> exists r, In r rs /\ threshold r = k.
Proof.
  unfold has_reason. rewrite existsb_exists. split; intros (r & Hin & Hk);
    exists r; (split; [exact Hin|]); destruct (threshold r), k;
    try reflexivity; discriminate.
Qed.

Lemma shouldAutoStop_has_reason {num : Type} `{Number num}
  (v : ThresholdVerdict) (rs : list (VerdictReason num)) :
  shouldAutoStop v rs = true ->
  has_reason maxErrorRatePercent rs = true
  \/ has_reason minSuccessRatePercent rs = true.
Proof.
  intros Hs. apply shouldAutoStop_iff in Hs.
  destruct Hs as (_ & r & Hin & [Hk|Hk]); [left|right];
    apply has_reason_In; exists r; split; assumption.
Qed.


(** ** Load patterns *)

Lemma Math_max_Qmax (a b : Q) : Math_max a b == Qmax a b.
Proof.
  unfold Math_max. destruct (a <? b)%num eqn:Hb; props.
  - symmetry. apply Q.max_r. lra.
  - symmetry. apply Q.max_l. exact Hb.
Qed.

Lemma Math_max_cases (a b : Q) :
  (a < b /\ Math_max a b = b) \/ (b <= a /\ Math_max a b = a).
Proof.
  unfold Math_max. destruct (a <? b)%num eqn:Hb; props; [left|right];
    split; auto.
Qed.

Lemma Math_min_cases (a b : Q) :
  (b < a /\ Math_min a b = b) \/ (a <= b /\ Math_min a b = a).
Proof.
  unfold Math_min. destruct (b <? a)%num eqn:Hb; props; [left|right];
    split; auto.
Qed.

(** On exact arithmetic the ramp of the program, N * (t / R), is the
    N * t / R of the specification. *)
Lemma ramp_up_exact (N t R : Q) :
  Math_max (of_Z 1) (Math_floor (N * (t / R))%num)
  == Qmax 1 (inject_Z (Qfloor (N * t / R))).
Proof.
  rewrite Math_max_Qmax. qnum. change (inject_Z 1) with 1.
  assert (He : N * (t / R) == N * t / R) by (unfold Qdiv; ring).
  rewrite (Qfloor_comp _ _ He). reflexivity.
Qed.

(** C5, as claimed, fails on binary64.  Ramping 22 workers over 22 s, 15
    seconds in, max(1, floor(N * t / R)) is 15; the program divides
    first, 15 / 22 is rounded, 22 * (15 / 22) is 14.999999999999998, and
    it returns 14. *)
Lemma getConcurrencyAtWithDuration_patterns_counterexample :
  15000 / 1000 < 22
  /\ Qmax 1 (inject_Z (Qfloor (22 * (15000 / 1000) / 22))) == 15
  /\ getConcurrencyAtWithDuration (num:=float) (Some (ramp_up_over 22))
       (of_Z 15000) (of_Z 60) (of_Z 22) = of_Z 14
  /\ (of_Z 22 * (of_Z 15000 / of_Z 1000 / of_Z 22))%num
     = (0x1.dffffffffffffp+3)%float
  /\ (of_Z 14 === (of_Z 15 : float))%num = false.
Proof. repeat split; vm_compute; reflexivity. Qed.

(** C5, amended.  The effective concurrency at [t] seconds
    ([timeSinceStartMs] / 1000), in the arithmetic of the program:
    ramp_up with [rampUpSeconds = R] gives max(1, floor(N * (t / R))),
    the quotient taken first, while the program does not find [t >= R],
    and [N] from then on; spike with [spikeConcurrency = S] and
    [spikeDurationSeconds = W] gives [S] while the program finds
    [start <= t < start + W], [start = max(0, D - W)], and [N] outside;
    fixed_concurrency, fixed_rps and no pattern give [N]. *)
Theorem getConcurrencyAtWithDuration_patterns {num : Type} `{Number num}
  (N D timeSinceStartMs : num) :
  let t := (timeSinceStartMs / of_Z 1000)%num in
  let c p := getConcurrencyAtWithDuration p timeSinceStartMs D N in
  (forall p R, type p = ramp_up -> rampUpSeconds p = Some R ->
      ((t >=? R)%num = false ->
       c (Some p) = Math_max (of_Z 1) (Math_floor (N * (t / R))%num))
      /\ ((t >=? R)%num = true -> c (Some p) = N))
  /\ (forall p S W, type p = spike ->
        spikeConcurrency p = Some S -> spikeDurationSeconds p = Some W ->
        let start := Math_max (of_Z 0) (D - W)%num in
        ((t >=? start)%num && (t <? start + W)%num = true -> c (Some p) = S)
        /\ ((t >=? start)%num && (t <? start + W)%num = false ->
            c (Some p) = N))
  /\ (forall p, type p = fixed_concurrency \/ type p = fixed_rps ->
        c (Some p) = N)
  /\ c None = N.
Proof.
  intros t c. subst c. unfold getConcurrencyAtWithDuration.
  repeat match goal with |- _ /\ _ => split end.
  - intros p R Hty HR. rewrite Hty, HR. cbn [nullish]. fold t.
    split; intros Ht; rewrite Ht; reflexivity.
  - intros p S W Hty HS HW. rewrite Hty, HS, HW. cbn [nullish]. fold t.
    cbv zeta. split; intros Ht; rewrite Ht; reflexivity.
  - intros p [Hty|Hty]; rewrite Hty; reflexivity.
  - reflexivity.
Qed.

(** C6, as claimed, fails: with N = 3, D = 10 and a spike of 2 seconds
    whose [spikeConcurrency] is unset, the concurrency 9 seconds in is
    N * 2 = 6, above max(N, N) = 3.  The same holds on binary64. *)
Lemma pattern_bounds_counterexample :
  1 <= 3 /\ 0 <= 9000 /\ 9000 <= 10 * 1000
  /\ getConcurrencyAtWithDuration (Some spike_without_concurrency) 9000 10 3 == 6
  /\ ~ claimed_pattern_bounds spike_without_concurrency 9000 10 3
  /\ getConcurrencyAtWithDuration (num:=float) (Some spike_without_concurrency)
       (of_Z 9000) (of_Z 10) (of_Z 3) = of_Z 6.
Proof.
  repeat match goal with |- _ /\ _ => split end;
    try (vm_compute; congruence); try reflexivity.
  intros [_ Hup]. vm_compute in Hup. apply Hup. reflexivity.
Qed.

Lemma ramp_ratio_below (N t R : Q) :
  1 <= N -> 0 <= t -> t < R -> N * (t / R) < N.
Proof.
  intros HN Ht HR.
  assert (Hr : t / R < 1).
  { apply Qlt_shift_div_r; lra. }
  nra.
Qed.

(** C6, amended.  For a base concurrency N >= 1 and an elapsed time
    t >= 0 the concurrency lies between 1 and max(N, spikeConcurrency ??
    N) as claimed, but for a spike pattern that leaves [spikeConcurrency]
    unset, where the upper bound is N * 2; a spike pattern that sets
    [spikeConcurrency] sets it to at least 1 (the data model asks for at
    least N). *)
Theorem pattern_bounds (p : option (LoadPatternConfig Q))
  (timeSinceStartMs D N : Q) :
  1 <= N ->
  0 <= timeSinceStartMs ->
  (forall pc S, p = Some pc -> type pc = spike ->
                spikeConcurrency pc = Some S -> 1 <= S) ->
  let upper :=
    match p with
    | Some pc =>
        match type pc, spikeConcurrency pc with
        | spike, None => N * 2
        | _, sc => Qmax N (nullish sc N)
        end
    | None => N
    end in
  1 <= getConcurrencyAtWithDuration p timeSinceStartMs D N
  /\ getConcurrencyAtWithDuration p timeSinceStartMs D N <= upper.
Proof.
  intros HN Ht HS upper. subst upper.
  destruct p as [pc|]; [|simpl; split; lra].
  unfold getConcurrencyAtWithDuration.
  destruct (type pc) eqn:Hty.
  - pose proof (Q.le_max_l N (nullish (spikeConcurrency pc) N)).
    destruct (spikeConcurrency pc); split; lra.
  - pose proof (Q.le_max_l N (nullish (spikeConcurrency pc) N)).
    destruct (spikeConcurrency pc); split; lra.
  - (* ramp_up *)
    assert (Hup : N <= Qmax N (nullish (spikeConcurrency pc) N))
      by apply Q.le_max_l.
    remember (Qmax N (nullish (spikeConcurrency pc) N)) as upper eqn:Eupper.
    remember (timeSinceStartMs / of_Z 1000)%num as t eqn:Et.
    assert (Ht0 : 0 <= t).
    { subst t. qnum. apply Qle_shift_div_l; [reflexivity|lra]. }
    remember (nullish (rampUpSeconds pc) (of_Z 10)) as R eqn:ER.
    cbv zeta.
    destruct (t >=? R)%num eqn:Hb; props; [split; lra|].
    pose proof (ramp_ratio_below HN Ht0 Hb) as Hratio.
    pose proof (Qfloor_le (N * (t / R))) as Hfl.
    destruct (Math_max_cases 1 (inject_Z (Qfloor (N * (t / R)))))
      as [[Hlt Hm]|[Hle Hm]]; change (of_Z 1) with 1%Q in *;
      rewrite Hm; split; lra.
  - (* spike *)
    destruct (spikeConcurrency pc) as [S|] eqn:HSc; cbn [nullish].
    + specialize (HS pc S eq_refl Hty HSc).
      pose proof (Q.le_max_l N S). pose proof (Q.le_max_r N S).
      destruct (_ && _)%bool; split; lra.
    + qnum. change (inject_Z 2) with 2.
      destruct (_ && _)%bool; split; lra.
Qed.

(** A spike pattern that sets [spikeConcurrency] below 1 is returned as
    it is: with [spikeConcurrency = 0] the concurrency inside the window
    is 0, on both arithmetics. *)
Remark pattern_bounds_needs_spike_of_1 :
  getConcurrencyAtWithDuration (num:=Q) (Some spike_to_zero) 9000 10 3 == 0
  /\ getConcurrencyAtWithDuration (num:=float) (Some spike_to_zero)
       (of_Z 9000) (of_Z 10) (of_Z 3) = of_Z 0.
Proof. split; vm_compute; reflexivity. Qed.

(** ** Safety score *)

Lemma Math_min_Qmin (a b : Q) : Math_min a b == Qmin a b.
Proof.
  unfold Math_min. destruct (b <? a)%num eqn:Hb; props.
  - symmetry. apply Q.min_r. lra.
  - symmetry. apply Q.min_l. exact Hb.
Qed.

(** Integer literals of the source, as rational constants. *)
Ltac qlits :=
  repeat match goal with
    | |- context [inject_Z (Zpos ?p)] =>
        change (inject_Z (Zpos p)) with (Zpos p # 1)
    | H : context [inject_Z (Zpos ?p)] |- _ =>
        change (inject_Z (Zpos p)) with (Zpos p # 1) in H
    end.

Lemma nearest_integer_spec (x : Q) :
  inject_Z (nearest_integer x) - (1 # 2) <= x
  /\ x < inject_Z (nearest_integer x) + (1 # 2).
Proof.
  unfold nearest_integer.
  pose proof (Qfloor_le (x + (1 # 2))) as Hlo.
  pose proof (Qlt_floor (x + (1 # 2))) as Hhi.
  rewrite inject_Z_plus in Hhi. change (inject_Z 1) with 1 in Hhi.
  split; lra.
Qed.

Lemma raw_score (M : LoadTestMetrics Q) :
  exists raw,
    raw == 100 - penalties M
    /\ score (computeSafetyScore M)
       = Math_max 0 (Math_min 100 (inject_Z (Qfloor (raw + (1 # 2))))).
Proof.
  unfold computeSafetyScore. cbn [score].
  eexists. split; [|reflexivity].
  unfold penalties, httpErrorRate, HTTP_ERROR_WEIGHT, HTTP_ERROR_CAP,
    TIMEOUT_WEIGHT, TIMEOUT_CAP, P95_THRESHOLD_MS, P95_PENALTY_PER_100MS,
    P95_CAP, AVG_THRESHOLD_MS, AVG_PENALTY_PER_100MS, AVG_CAP,
    LOW_RPS_THRESHOLD, LOW_RPS_PENALTY.
  qnum.
  repeat match goal with
    | |- context [Qle_bool ?a ?b] => destruct (Qle_bool a b) eqn:?
    end; cbn [negb andb].
  all: repeat match goal with
         | |- context [Qlt_le_dec ?a ?b] => destruct (Qlt_le_dec a b)
         end.
  all: props; qlits; try lra.
  all: rewrite ?Math_min_Qmin.
  all: try setoid_replace
         ((failedRequests M - timeoutCount M) / totalRequests M * 100 * (6 # 10))
         with (100 * (failedRequests M - timeoutCount M) / totalRequests M * (6 # 10))
         by (unfold Qdiv; ring).
  all: ring.
Qed.

Lemma computeSafetyScore_score (M : LoadTestMetrics Q) :
  score (computeSafetyScore M) == safety_score_formula M.
Proof.
  destruct (raw_score M) as (raw & Hraw & ->).
  unfold safety_score_formula, clamp, nearest_integer.
  assert (He : raw + (1 # 2) == 100 - penalties M + (1 # 2)) by (rewrite Hraw; reflexivity).
  rewrite <- (Qfloor_comp _ _ He).
  rewrite Math_max_Qmax. apply Q.max_compat; [reflexivity|].
  apply Math_min_Qmin.
Qed.

Lemma computeSafetyScore_label (M : LoadTestMetrics Q) :
  label (computeSafetyScore M)
  = if (score (computeSafetyScore M) <? of_Z 50)%num then DANGEROUS
    else if (score (computeSafetyScore M) <? of_Z 80)%num then WARNING
    else SAFE.
Proof. reflexivity. Qed.

Lemma clamp_integer (n : Z) :
  clamp 0 100 (inject_Z n) == inject_Z (Z.max 0 (Z.min 100 n)).
Proof.
  unfold clamp.
  destruct (Z.min_spec 100 n) as [[Hlt ->]|[Hle ->]].
  - rewrite Q.min_l by (change 100 with (inject_Z 100); rewrite <- Zle_Qle; lia).
    rewrite Q.max_r by discriminate. reflexivity.
  - rewrite Q.min_r by (change 100 with (inject_Z 100); rewrite <- Zle_Qle; lia).
    destruct (Z.max_spec 0 n) as [[Hlt ->]|[Hge ->]].
    + rewrite Q.max_r by (change 0 with (inject_Z 0); rewrite <- Zle_Qle; lia).
      reflexivity.
    + rewrite Q.max_l by (change 0 with (inject_Z 0); rewrite <- Zle_Qle; lia).
      reflexivity.
Qed.

(** C8, as claimed, fails on binary64.  For 49 HTTP errors and 13
    timeouts in 100 requests, a mean of 350 ms and half a request per
    second, 100 minus the penalties is 100 - 29.4 - 15.6 - 0.5 - 5 =
    49.5, which [Math.round] rounds to 50, WARNING.  The program
    subtracts the penalties one after the other, reaches
    49.49999999999999, and returns 49, DANGEROUS.  It returns 49 as well
    for a mean of 350 - 2^-44 ms, where 100 minus the penalties lies
    above 49.5 and 50 is its nearest integer. *)
Lemma computeSafetyScore_formula_counterexample :
  (100 - penalties tie_metrics == 495 # 10
   /\ safety_score_formula tie_metrics == 50
   /\ computed_raw_score (num:=float) tie_metrics
      = (0x1.8bfffffffffffp+5)%float
   /\ score (computeSafetyScore (num:=float) tie_metrics) = of_Z 49
   /\ label (computeSafetyScore (num:=float) tie_metrics) = DANGEROUS)
  /\ (495 # 10 < 100 - penalties below_tie_metrics
      /\ 100 - penalties below_tie_metrics < 50
      /\ safety_score_formula below_tie_metrics == 50
      /\ score (computeSafetyScore (num:=float) below_tie_metrics) = of_Z 49
      /\ label (computeSafetyScore (num:=float) below_tie_metrics) = DANGEROUS)
  /\ (of_Z 49 === (of_Z 50 : float))%num = false.
Proof. repeat split; vm_compute; reflexivity. Qed.

(** C8, amended.  In the arithmetic of the program the safety score is
    max(0, min(100, Math.round(s))), where [s] is 100 minus the
    penalties, subtracted one after the other: min(httpErrorRate * 0.6,
    40) with httpErrorRate = ((failed - timeoutCount) / total) * 100,
    min(timeoutRatePercentage * 1.2, 30), min((p95 - 500) / 100 * 3, 25)
    when p95 > 500, min((avg - 300) / 100 * 1, 10) when avg > 300, and 5
    when 0 < requestsPerSecond < 1.  The label is DANGEROUS when the
    program finds the score below 50, WARNING when it finds it below 80
    and not below 50, and SAFE otherwise. *)
Theorem computeSafetyScore_formula {num : Type} `{Number num}
  (M : LoadTestMetrics num) :
  let final := score (computeSafetyScore M) in
  final = Math_max (of_Z 0)
            (Math_min (of_Z 100) (Math_round (computed_raw_score M)))
  /\ (label (computeSafetyScore M) = DANGEROUS
      <-> (final <? of_Z 50)%num = true)
  /\ (label (computeSafetyScore M) = WARNING
      <-> (final <? of_Z 50)%num = false /\ (final <? of_Z 80)%num = true)
  /\ (label (computeSafetyScore M) = SAFE
      <-> (final <? of_Z 50)%num = false /\ (final <? of_Z 80)%num = false).
Proof.
  intros final. subst final.
  split; [reflexivity|].
  unfold computeSafetyScore. cbn [score label].
  match goal with
  | |- context [if (?s <? of_Z 50)%num then _ else _] =>
      destruct (s <? of_Z 50)%num; destruct (s <? of_Z 80)%num
  end; repeat split; try discriminate; try reflexivity;
    intros [? ?]; discriminate.
Qed.

(** ** History ring *)

Lemma addToHistory_firstn {num : Type} (record : TestHistoryRecord num)
  (history : list (TestHistoryRecord num)) :
  (List.length history <= MAX_HISTORY)%nat ->
  addToHistory record history = firstn MAX_HISTORY (record :: history).
Proof.
  intros Hlen. unfold addToHistory.
  destruct (Nat.ltb_spec MAX_HISTORY (List.length (record :: history))) as [Hgt|Hle].
  - rewrite removelast_firstn_len.
    simpl List.length in *. replace (List.length history) with MAX_HISTORY by lia.
    reflexivity.
  - symmetry. apply firstn_all2. exact Hle.
Qed.

Lemma insert_all_newest_first {num : Type} (records : list (TestHistoryRecord num)) :
  insert_all records [] = firstn MAX_HISTORY (rev records).
Proof.
  induction records as [|record records IH] using rev_ind; [reflexivity|].
  unfold insert_all in *. rewrite fold_left_app. cbn [fold_left].
  rewrite IH, rev_app_distr. cbn [rev app].
  rewrite addToHistory_firstn by (rewrite length_firstn; lia).
  change MAX_HISTORY with (S 99). rewrite !firstn_cons. f_equal.
  rewrite firstn_firstn. reflexivity.
Qed.

(** C10.  After any sequence of insertions the history holds the most
    recent records, newest first, and at most 100 of them; one insertion
    puts the new record in front and, when that makes more than 100,
    drops the last (oldest) one. *)
Theorem history_bounded_newest_first {num : Type} :
  (forall records : list (TestHistoryRecord num),
      getHistory (insert_all records []) = firstn 100 (rev records)
      /\ (List.length (getHistory (insert_all records [])) <= 100)%nat)
  /\ (forall (record : TestHistoryRecord num) history,
         (List.length history < 100)%nat ->
         addToHistory record history = record :: history)
  /\ (forall (record : TestHistoryRecord num) history,
         List.length history = 100%nat ->
         addToHistory record history = record :: removelast history).
Proof.
  split; [|split].
  - intros records. unfold getHistory. rewrite insert_all_newest_first.
    split; [reflexivity|]. rewrite length_firstn. unfold MAX_HISTORY. lia.
  - intros record history Hlen. unfold addToHistory.
    destruct (Nat.ltb_spec MAX_HISTORY (List.length (record :: history))) as [Hgt|Hle];
      [|reflexivity].
    unfold MAX_HISTORY in Hgt. simpl in Hgt. lia.
  - intros record history Hlen. unfold addToHistory.
    destruct (Nat.ltb_spec MAX_HISTORY (List.length (record :: history))) as [Hgt|Hle].
    + destruct history as [|r0 rest]; [discriminate|reflexivity].
    + unfold MAX_HISTORY in Hle. simpl in Hle. lia.
Qed.

(** ** Interpolation between ranks *)

Lemma ceiling_floor (i : Q) :
  (Qfloor i <= Qceiling i <= Qfloor i + 1)%Z.
Proof.
  pose proof (Qle_floor_ceiling i) as Hfc. rewrite <- Zle_Qle in Hfc.
  pose proof (Qceiling_lt i) as Hc. pose proof (Qlt_floor i) as Hf.
  assert (Hlt : inject_Z (Qceiling i - 1) < inject_Z (Qfloor i + 1)) by lra.
  rewrite <- Zlt_Qlt in Hlt. lia.
Qed.

Section Interpolation.
Variable v : list Q.
Hypothesis v_ascending : ascending v.
Let L : Z := Z.of_nat (List.length v).

Lemma rank_in_range (i : Q) :
  0 <= i -> i <= inject_Z (L - 1) ->
  (0 <= Qfloor i)%Z /\ (Qceiling i <= L - 1)%Z.
Proof.
  intros H0 HL. split.
  - change 0%Z with (Qfloor 0). apply Qfloor_resp_le, H0.
  - rewrite <- (Qceiling_Z (L - 1)). apply Qceiling_resp_le, HL.
Qed.

Lemma nth_ascending_Z (a b : Z) :
  (0 <= a <= b)%Z -> (b <= L - 1)%Z ->
  nth (Z.to_nat a) v 0 <= nth (Z.to_nat b) v 0.
Proof.
  intros Hab Hb. apply ascending_nth; [exact v_ascending|].
  subst L. lia.
Qed.

Lemma interpolate_between (i : Q) :
  0 <= i -> i <= inject_Z (L - 1) ->
  nth (Z.to_nat (Qfloor i)) v 0 <= interpolate v i
  /\ interpolate v i <= nth (Z.to_nat (Qceiling i)) v 0.
Proof.
  intros H0 HL. destruct (rank_in_range H0 HL) as [Hf Hc].
  pose proof (ceiling_floor i) as Hfc.
  assert (Hv : nth (Z.to_nat (Qfloor i)) v 0 <= nth (Z.to_nat (Qceiling i)) v 0).
  { apply nth_ascending_Z; lia. }
  unfold interpolate.
  set (lo := nth (Z.to_nat (Qfloor i)) v 0) in *.
  set (hi := nth (Z.to_nat (Qceiling i)) v 0) in *.
  pose proof (Qfloor_le i) as Hfl.
  destruct (Z.eq_dec (Qfloor i) (Qceiling i)) as [Heq|Hne].
  - assert (Hfrac : i - inject_Z (Qfloor i) == 0).
    { rewrite <- (floor_eq_ceiling i Heq). ring. }
    rewrite Hfrac. split; lra.
  - assert (Hc1 : Qceiling i = (Qfloor i + 1)%Z) by lia.
    pose proof (Qlt_floor i) as Hlt. rewrite inject_Z_plus in Hlt.
    change (inject_Z 1) with 1 in Hlt.
    split; nra.
Qed.

Lemma interpolate_monotone (i j : Q) :
  0 <= i -> i <= j -> j <= inject_Z (L - 1) ->
  interpolate v i <= interpolate v j.
Proof.
  intros H0 Hij HL.
  assert (HiL : i <= inject_Z (L - 1)) by lra.
  assert (H0j : 0 <= j) by lra.
  destruct (rank_in_range H0 HiL) as [Hfi Hci].
  destruct (rank_in_range H0j HL) as [Hfj Hcj].
  destruct (interpolate_between H0 HiL) as [Hilo Hihi].
  destruct (interpolate_between H0j HL) as [Hjlo Hjhi].
  pose proof (ceiling_floor i) as Hfci. pose proof (ceiling_floor j) as Hfcj.
  pose proof (Qfloor_resp_le _ _ Hij) as Hff.
  destruct (Z.eq_dec (Qfloor i) (Qfloor j)) as [Heq|Hne].
  - destruct (Z.eq_dec (Qfloor i) (Qceiling i)) as [Hint|Hfrac].
    + (* i is a rank itself *)
      assert (Hi : interpolate v i == nth (Z.to_nat (Qfloor i)) v 0).
      { unfold interpolate.
        assert (Hz : i - inject_Z (Qfloor i) == 0)
          by (rewrite <- (floor_eq_ceiling i Hint); ring).
        rewrite Hz. ring. }
      rewrite Hi, Heq. exact Hjlo.
    + (* i and j lie strictly between the same two ranks *)
      assert (Hci1 : Qceiling i = (Qfloor i + 1)%Z) by lia.
      assert (Hcj1 : Qceiling j = (Qfloor i + 1)%Z).
      { assert (Hne : Qfloor j <> Qceiling j).
        { intros Hje. pose proof (floor_eq_ceiling j Hje) as Hj.
          pose proof (Qceiling_lt i) as Hlt. rewrite Hci1 in Hlt.
          replace (Qfloor i + 1 - 1)%Z with (Qfloor i) in Hlt by lia.
          rewrite Heq in Hlt. lra. }
        lia. }
      unfold interpolate. rewrite Hci1, Hcj1, <- Heq.
      assert (Hv : nth (Z.to_nat (Qfloor i)) v 0
                   <= nth (Z.to_nat (Qfloor i + 1)) v 0).
      { apply nth_ascending_Z; lia. }
      set (lo := nth (Z.to_nat (Qfloor i)) v 0) in *.
      set (hi := nth (Z.to_nat (Qfloor i + 1)) v 0) in *.
      nra.
  - (* a rank lies between i and j *)
    assert (Hv : nth (Z.to_nat (Qceiling i)) v 0 <= nth (Z.to_nat (Qfloor j)) v 0).
    { apply nth_ascending_Z; lia. }
    lra.
Qed.

End Interpolation.

(** ** Rounding to two decimals *)

Lemma round2_code (x : Q) :
  (Math_round (x * of_Z 100) / of_Z 100)%num = round2 x.
Proof. reflexivity. Qed.

Lemma round2_rounded (x : Q) : rounded_to_two_decimals x (round2 x).
Proof. apply round_hundredths. Qed.

Lemma round2_two_decimals (x : Q) : two_decimals (round2 x).
Proof. apply round2_rounded. Qed.

Lemma round2_monotone (x y : Q) : x <= y -> round2 x <= round2 y.
Proof.
  intros Hxy. unfold round2.
  assert (Hf : (Qfloor (x * 100 + (1 # 2)) <= Qfloor (y * 100 + (1 # 2)))%Z).
  { apply Qfloor_resp_le. lra. }
  rewrite Zle_Qle in Hf.
  apply Qle_shift_div_l; [reflexivity|].
  set (a := inject_Z (Qfloor (x * 100 + (1 # 2)))) in *.
  set (b := inject_Z (Qfloor (y * 100 + (1 # 2)))) in *.
  assert (Ha : a / 100 * 100 == a) by (field).
  lra.
Qed.

Lemma round2_fixed (x : Q) : two_decimals x -> round2 x == x.
Proof.
  intros [z Hz]. unfold round2.
  assert (He : x * 100 + (1 # 2) == inject_Z z + (1 # 2)).
  { rewrite Hz, (Qmake_Qdiv z 100). field. }
  rewrite (Qfloor_comp _ _ He).
  assert (Hfl : Qfloor (inject_Z z + (1 # 2)) = z).
  { pose proof (Qfloor_le (inject_Z z + (1 # 2))) as Hlo.
    pose proof (Qlt_floor (inject_Z z + (1 # 2))) as Hhi.
    set (k := Qfloor (inject_Z z + (1 # 2))) in *.
    assert (H1 : inject_Z k < inject_Z (z + 1)).
    { rewrite inject_Z_plus. change (inject_Z 1) with 1. lra. }
    assert (H2 : inject_Z z < inject_Z (k + 1)) by lra.
    rewrite <- Zlt_Qlt in H1, H2. lia. }
  rewrite Hfl, Hz. symmetry. apply Qmake_Qdiv.
Qed.

Lemma zero_two_decimals : two_decimals 0.
Proof. exists 0%Z. reflexivity. Qed.

(** ** Sums and means *)

Lemma sum_bounds (lo hi : Q) (l : list Q) (a : Q) :
  Forall (fun x => lo <= x /\ x <= hi) l ->
  a + inject_Z (Z.of_nat (List.length l)) * lo <= fold_left Qplus l a
  /\ fold_left Qplus l a <= a + inject_Z (Z.of_nat (List.length l)) * hi.
Proof.
  intros Hall. revert a.
  induction Hall as [|x l [Hlo Hhi] _ IH]; intros a.
  - simpl. change (inject_Z 0) with 0. split; lra.
  - cbn [fold_left List.length]. destruct (IH (a + x)) as [IHlo IHhi].
    rewrite Nat2Z.inj_succ. unfold Z.succ. rewrite inject_Z_plus.
    change (inject_Z 1) with 1.
    set (n := inject_Z (Z.of_nat (List.length l))) in *.
    split; nra.
Qed.

Lemma mean_bounds (lo hi : Q) (l : list Q) :
  (1 <= List.length l)%nat ->
  Forall (fun x => lo <= x /\ x <= hi) l ->
  lo <= fold_left Qplus l 0 / inject_Z (Z.of_nat (List.length l))
  /\ fold_left Qplus l 0 / inject_Z (Z.of_nat (List.length l)) <= hi.
Proof.
  intros HL Hall. destruct (sum_bounds 0 Hall) as [Hlo Hhi].
  assert (Hn : 0 < inject_Z (Z.of_nat (List.length l))).
  { change 0 with (inject_Z 0). rewrite <- Zlt_Qlt. lia. }
  split.
  - apply Qle_shift_div_l; [exact Hn|lra].
  - apply Qle_shift_div_r; [exact Hn|lra].
Qed.

(** ** The latency fields of [computeMetrics] *)

Lemma sorted_successes_length (results : list (RequestResult Q)) :
  List.length (sorted_successes results) = List.length (successful_times results).
Proof. apply sort_length. Qed.

Lemma Qfloor_pred (a : Z) : Qfloor (inject_Z a - inject_Z 1) = (a - 1)%Z.
Proof.
  assert (He : inject_Z a - inject_Z 1 == inject_Z (a - 1)).
  { unfold Z.sub, Qminus. rewrite inject_Z_plus, inject_Z_opp. reflexivity. }
  rewrite (Qfloor_comp _ _ He). apply Qfloor_Z.
Qed.

Lemma computeMetrics_latencies (results : list (RequestResult Q)) (d : Q) :
  let M := computeMetrics results d in
  let v := sorted_successes results in
  let times := successful_times results in
  (1 <= List.length v)%nat ->
  minResponseTime M = nth 0 v 0
  /\ maxResponseTime M = nth (List.length v - 1) v 0
  /\ avgResponseTime M
     = round2 (fold_left Qplus times 0 / inject_Z (Z.of_nat (List.length times)))
  /\ p95ResponseTime M = round2 (percentile v (95 # 100))
  /\ p99ResponseTime M = round2 (percentile v (99 # 100)).
Proof.
  intros M v times HL. subst M. unfold computeMetrics.
  cbn [minResponseTime maxResponseTime avgResponseTime p95ResponseTime
       p99ResponseTime].
  fold (successful_times results). fold times.
  change (sort (fun a b => (a - b)%num) times) with v.
  assert (HLt : (1 <= List.length times)%nat).
  { subst times v. rewrite <- sorted_successes_length. exact HL. }
  rewrite (len_positive v HL), (len_positive times HLt).
  rewrite !round2_code.
  repeat split.
  unfold at_index, len. qnum. rewrite Qfloor_pred.
  f_equal. lia.
Qed.

Lemma computeMetrics_no_success (results : list (RequestResult Q)) (d : Q) :
  let M := computeMetrics results d in
  List.length (sorted_successes results) = 0%nat ->
  minResponseTime M = 0 /\ maxResponseTime M = 0 /\ avgResponseTime M = 0
  /\ p95ResponseTime M = 0 /\ p99ResponseTime M = 0.
Proof.
  intros M HL. subst M. unfold computeMetrics.
  cbn [minResponseTime maxResponseTime avgResponseTime p95ResponseTime
       p99ResponseTime].
  fold (successful_times results).
  change (sort (fun a b => (a - b)%num) (successful_times results))
    with (sorted_successes results).
  assert (HLt : List.length (successful_times results) = 0%nat).
  { rewrite <- sorted_successes_length. exact HL. }
  rewrite (len_zero _ HL), (len_zero _ HLt). repeat split.
Qed.

(** The least and the greatest element of a non-empty ascending list. *)
Lemma ascending_extremes (v : list Q) (x : Q) :
  ascending v -> In x v ->
  nth 0 v 0 <= x /\ x <= nth (List.length v - 1) v 0.
Proof.
  intros Hs Hin. destruct (In_nth v x 0 Hin) as (k & Hk & Hx).
  rewrite <- Hx. split; apply ascending_nth; try assumption; lia.
Qed.

Lemma successful_times_extremes (results : list (RequestResult Q)) :
  let v := sorted_successes results in
  Forall (fun x => nth 0 v 0 <= x /\ x <= nth (List.length v - 1) v 0)
    (successful_times results).
Proof.
  intros v. apply Forall_forall. intros x Hin.
  apply ascending_extremes; [apply sort_ascending|].
  eapply Permutation_in; [symmetry; apply sort_perm|exact Hin].
Qed.

Lemma extremes_are_times (results : list (RequestResult Q)) :
  let v := sorted_successes results in
  (1 <= List.length v)%nat ->
  In (nth 0 v 0) (successful_times results)
  /\ In (nth (List.length v - 1) v 0) (successful_times results).
Proof.
  intros v HL. subst v. unfold sorted_successes, successful_times in *.
  split; (eapply Permutation_in; [apply sort_perm|]); apply nth_In; lia.
Qed.

(** ** Percentiles of an ascending list *)

Lemma rank_bounds (n : nat) (p : Q) :
  (1 <= n)%nat -> 0 <= p -> p <= 1 ->
  0 <= (inject_Z (Z.of_nat n) - 1) * p
  /\ (inject_Z (Z.of_nat n) - 1) * p <= inject_Z (Z.of_nat n - 1).
Proof.
  intros Hn Hp0 Hp1.
  assert (He : inject_Z (Z.of_nat n - 1) == inject_Z (Z.of_nat n) - 1).
  { unfold Z.sub. rewrite inject_Z_plus. reflexivity. }
  assert (H1 : 1 <= inject_Z (Z.of_nat n)).
  { change 1 with (inject_Z 1). rewrite <- Zle_Qle. lia. }
  rewrite He. set (l := inject_Z (Z.of_nat n)) in *. split; nra.
Qed.

(** Every index [percentile] reads lies within the array. *)
Lemma percentile_index_in_range (v : list Q) (p : Q) :
  (1 <= List.length v)%nat -> 0 <= p -> p <= 1 ->
  let index := ((len v - 1) * p)%num in
  (0 <= to_index (Math_floor index) < Z.of_nat (List.length v))%Z
  /\ (0 <= to_index (Math_ceil index) < Z.of_nat (List.length v))%Z.
Proof.
  intros HL Hp0 Hp1 index. subst index. unfold len. qnum.
  change (inject_Z 1) with 1. rewrite !Qfloor_Z.
  destruct (rank_bounds HL Hp0 Hp1) as [H0 H1].
  set (i := (inject_Z (Z.of_nat (List.length v)) - 1) * p) in *.
  pose proof (ceiling_floor i) as Hfc.
  assert (Hf : (0 <= Qfloor i)%Z).
  { change 0%Z with (Qfloor 0). apply Qfloor_resp_le, H0. }
  assert (Hc : (Qceiling i <= Z.of_nat (List.length v) - 1)%Z).
  { rewrite <- (Qceiling_Z (Z.of_nat (List.length v) - 1)).
    apply Qceiling_resp_le, H1. }
  lia.
Qed.

Lemma percentile_bounds (v : list Q) (p : Q) :
  ascending v -> (1 <= List.length v)%nat -> 0 <= p -> p <= 1 ->
  nth 0 v 0 <= percentile v p
  /\ percentile v p <= nth (List.length v - 1) v 0.
Proof.
  intros Hs HL Hp0 Hp1. rewrite (percentile_interpolate v p HL).
  destruct (rank_bounds HL Hp0 Hp1) as [H0 H1].
  set (i := (inject_Z (Z.of_nat (List.length v)) - 1) * p) in *.
  destruct (interpolate_between Hs H0 H1) as [Hlo Hhi].
  destruct (rank_in_range v H0 H1) as [Hf Hc].
  pose proof (ceiling_floor i) as Hfc.
  assert (Hmin : nth 0 v 0 <= nth (Z.to_nat (Qfloor i)) v 0).
  { apply ascending_nth; [exact Hs|lia]. }
  assert (Hmax : nth (Z.to_nat (Qceiling i)) v 0 <= nth (List.length v - 1) v 0).
  { apply ascending_nth; [exact Hs|lia]. }
  split; lra.
Qed.

Lemma percentile_monotone (v : list Q) (p q : Q) :
  ascending v -> (1 <= List.length v)%nat -> 0 <= p -> p <= q -> q <= 1 ->
  percentile v p <= percentile v q.
Proof.
  intros Hs HL Hp0 Hpq Hq1.
  rewrite (percentile_interpolate v p HL), (percentile_interpolate v q HL).
  assert (Hq0 : 0 <= q) by lra.
  destruct (rank_bounds HL Hq0 Hq1) as [_ H1].
  assert (Hp1 : p <= 1) by lra.
  destruct (rank_bounds HL Hp0 Hp1) as [H0 _].
  apply (interpolate_monotone Hs); try assumption.
  assert (Hl : 1 <= inject_Z (Z.of_nat (List.length v))).
  { change 1 with (inject_Z 1). rewrite <- Zle_Qle. lia. }
  set (l := inject_Z (Z.of_nat (List.length v))) in *. nra.
Qed.

(** ** Order of the latency values *)



(** Without the two decimals the mean can leave the range: the mean of
    the single time 0.125 is rounded to 0.13, above the maximum 0.125. *)
Remark latency_order_needs_two_decimals :
  (let M := computeMetrics (num:=Q) eighth_result 10 in
   maxResponseTime M == 125 # 1000 /\ avgResponseTime M == 13 # 100
   /\ ~ avgResponseTime M <= maxResponseTime M)
  /\ (let M := computeMetrics (num:=float) eighth_result (of_Z 10) in
      maxResponseTime M = dec 125 1000 /\ avgResponseTime M = dec 13 100
      /\ (maxResponseTime M <? avgResponseTime M)%num = true).
Proof.
  split.
  - vm_compute. repeat split; try reflexivity. intros H. apply H. reflexivity.
  - vm_compute. repeat split; reflexivity.
Qed.

(** ** Rounding and range of the fields *)

(** C9, as claimed, fails: [minResponseTime] and [maxResponseTime] are
    taken from the results as they are.  For a single success of 0.125 ms
    both are 0.125, which has three decimals; on binary64 too, where
    rounding 0.125 to two decimals gives 0.13. *)
Lemma rounding_counterexample :
  minResponseTime (computeMetrics (num:=Q) eighth_result 10) == 125 # 1000
  /\ ~ two_decimals (125 # 1000)
  /\ ~ claimed_rounding (computeMetrics eighth_result 10)
  /\ (let M := computeMetrics (num:=float) eighth_result (of_Z 10) in
      minResponseTime M = dec 125 1000
      /\ (Math_round (minResponseTime M * of_Z 100) / of_Z 100)%num = dec 13 100
      /\ (Math_round (minResponseTime M * of_Z 100) / of_Z 100
          === minResponseTime M)%num = false).
Proof.
  assert (Hno : ~ two_decimals (125 # 1000)).
  { intros [z Hz]. unfold Qeq in Hz. simpl in Hz. lia. }
  repeat match goal with |- _ /\ _ => split end.
  - vm_compute. reflexivity.
  - exact Hno.
  - intros (_ & Hmin & _). apply Hno. exact Hmin.
  - vm_compute. repeat split; reflexivity.
Qed.

Lemma filter_len_le {A : Type} (f : A -> bool) (l : list A) :
  inject_Z (Z.of_nat (List.length (filter f l)))
  <= inject_Z (Z.of_nat (List.length l)).
Proof. rewrite <- Zle_Qle. pose proof (filter_length_le f l). lia. Qed.

Lemma percentage_range (part total : Q) :
  0 <= part -> part <= total -> 0 < total ->
  0 <= round2 (part / total * 100) /\ round2 (part / total * 100) <= 100.
Proof.
  intros Hp Hpt Ht.
  assert (Hq0 : 0 <= part / total) by (apply Qle_shift_div_l; lra).
  assert (Hq1 : part / total <= 1) by (apply Qle_shift_div_r; lra).
  assert (H0 : round2 0 == 0) by (apply round2_fixed, zero_two_decimals).
  assert (H100 : round2 100 == 100).
  { apply round2_fixed. exists 10000%Z. reflexivity. }
  split.
  - apply Qle_trans with (round2 0); [rewrite H0; apply Qle_refl|].
    apply round2_monotone. lra.
  - apply Qle_trans with (round2 100); [|rewrite H100; apply Qle_refl].
    apply round2_monotone. lra.
Qed.

Lemma computeMetrics_percentages (results : list (RequestResult Q)) (d : Q) :
  let M := computeMetrics results d in
  (0 <= errorRatePercentage M /\ errorRatePercentage M <= 100
   /\ two_decimals (errorRatePercentage M))
  /\ (0 <= timeoutRatePercentage M /\ timeoutRatePercentage M <= 100
      /\ two_decimals (timeoutRatePercentage M)).
Proof.
  intros M. subst M. unfold computeMetrics.
  cbn [errorRatePercentage timeoutRatePercentage].
  pose proof (filter_len_le (fun r : RequestResult Q => success r) results) as Hs.
  pose proof (filter_len_le (@is_timeout Q) results) as Ht.
  assert (Hs0 : 0 <= inject_Z (Z.of_nat (List.length
                   (filter (fun r : RequestResult Q => success r) results)))).
  { change 0 with (inject_Z 0). rewrite <- Zle_Qle. lia. }
  assert (Ht0 : 0 <= inject_Z (Z.of_nat (List.length
                   (filter (@is_timeout Q) results)))).
  { change 0 with (inject_Z 0). rewrite <- Zle_Qle. lia. }
  unfold len. rewrite !round2_code. qnum.
  destruct (Qle_bool (inject_Z (Z.of_nat (List.length results))) (inject_Z 0))
    eqn:Hb; cbn [negb]; props.
  2: { split.
    + destruct (percentage_range
                  (part := inject_Z (Z.of_nat (List.length results))
                           - inject_Z (Z.of_nat (List.length
                               (filter (fun r : RequestResult Q => success r) results))))
                  (total := inject_Z (Z.of_nat (List.length results))))
        as [Hlo Hhi]; try lra.
      repeat split; try assumption. apply round2_two_decimals.
    + destruct (percentage_range
                  (part := inject_Z (Z.of_nat (List.length
                               (filter (@is_timeout Q) results))))
                  (total := inject_Z (Z.of_nat (List.length results))))
        as [Hlo Hhi]; try lra.
      repeat split; try assumption. apply round2_two_decimals. }
  repeat split; try discriminate; apply zero_two_decimals.
Qed.

(** C9, amended.  [avgResponseTime], [p95ResponseTime] and
    [p99ResponseTime] are rounded to two decimals; [minResponseTime] and
    [maxResponseTime] are the least and the greatest successful response
    time as given (0 without a success), so they have two decimals
    whenever the successful response times do; the two percentages lie
    between 0 and 100 and are rounded to two decimals. *)
Theorem rounding_of_fields (results : list (RequestResult Q)) (d : Q) :
  let M := computeMetrics results d in
  let times := successful_times results in
  two_decimals (avgResponseTime M)
  /\ two_decimals (p95ResponseTime M)
  /\ two_decimals (p99ResponseTime M)
  /\ (List.length times = 0%nat ->
      minResponseTime M = 0 /\ maxResponseTime M = 0)
  /\ ((1 <= List.length times)%nat ->
      In (minResponseTime M) times /\ In (maxResponseTime M) times
      /\ Forall (fun x => minResponseTime M <= x /\ x <= maxResponseTime M) times)
  /\ (Forall two_decimals times ->
      two_decimals (minResponseTime M) /\ two_decimals (maxResponseTime M))
  /\ (0 <= errorRatePercentage M /\ errorRatePercentage M <= 100
      /\ two_decimals (errorRatePercentage M))
  /\ (0 <= timeoutRatePercentage M /\ timeoutRatePercentage M <= 100
      /\ two_decimals (timeoutRatePercentage M)).
Proof.
  intros M times.
  destruct (computeMetrics_percentages results d) as [Herr Hto].
  fold M in Herr, Hto.
  pose proof (sorted_successes_length results) as Hlen. fold times in Hlen.
  destruct (Nat.eq_dec (List.length times) 0) as [H0|Hpos].
  - (* no success *)
    assert (HL : List.length (sorted_successes results) = 0%nat) by lia.
    destruct (computeMetrics_no_success results d HL)
      as (Hmin & Hmax & Havg & Hp95 & Hp99).
    fold M in Hmin, Hmax, Havg, Hp95, Hp99.
    rewrite Hmin, Hmax, Havg, Hp95, Hp99.
    destruct Herr as (? & ? & ?). destruct Hto as (? & ? & ?).
    repeat match goal with |- _ /\ _ => split end;
      try apply zero_two_decimals; try assumption; try reflexivity;
      try (intros; split; try reflexivity; apply zero_two_decimals).
    intros; lia.
  - (* at least one success *)
    assert (HL : (1 <= List.length (sorted_successes results))%nat) by lia.
    destruct (computeMetrics_latencies results d HL)
      as (Hmin & Hmax & Havg & Hp95 & Hp99).
    fold M in Hmin, Hmax, Havg, Hp95, Hp99.
    destruct (extremes_are_times results HL) as [Hin_min Hin_max].
    pose proof (successful_times_extremes results) as Hext.
    cbv zeta in Hext. fold times in Hin_min, Hin_max, Hext.
    rewrite <- Hmin in Hin_min, Hext. rewrite <- Hmax in Hin_max, Hext.
    split; [rewrite Havg; apply round2_two_decimals|].
    split; [rewrite Hp95; apply round2_two_decimals|].
    split; [rewrite Hp99; apply round2_two_decimals|].
    split; [intros; lia|].
    split; [intros _; repeat split; assumption|].
    split; [|split; assumption].
    intros Hdec. rewrite Forall_forall in Hdec. split; apply Hdec; assumption.
Qed.

(** * Instances *)

(** ** C1 at three requests: a 200, a 500 and an aborted one *)

Lemma completed_test_count_invariants_witness :
  Forall tagged_only_on_failure (three_requests (num:=Q))
  /\ count_invariants (computeMetrics three_requests 3).
Proof.
  assert (Htag : Forall tagged_only_on_failure (three_requests (num:=Q))).
  { repeat constructor; apply runOneRequest_tagged. }
  split; [exact Htag|].
  exact (proj1 completed_test_count_invariants three_requests 3 Htag).
Defined.

(** The same three requests, counted on both arithmetics. *)
Example three_requests_counts :
  (let M := computeMetrics (num:=Q) three_requests 3 in
   totalRequests M == 3 /\ successfulRequests M == 1 /\ failedRequests M == 2
   /\ timeoutCount M == 1 /\ errorRatePercentage M == 6667 # 100)
  /\ (let M := computeMetrics (num:=float) three_requests (of_Z 3) in
      totalRequests M = of_Z 3 /\ successfulRequests M = of_Z 1
      /\ failedRequests M = of_Z 2 /\ timeoutCount M = of_Z 1
      /\ errorRatePercentage M = dec 6667 100).
Proof. split; vm_compute; repeat split; reflexivity. Qed.

(** ** C4 at scenario S3: only [maxP95LatencyMs = 200], p95 = 500, on
    binary64 *)


(** ** C5 and C6 at scenarios S4 and S5 *)

Lemma getConcurrencyAtWithDuration_patterns_witness :
  let t := (of_Z 5000 / of_Z 1000 : float)%num in
  (t >=? of_Z 10)%num = false
  /\ getConcurrencyAtWithDuration (Some (ramp_up_over 10)) (of_Z 5000)
       (of_Z 10) (of_Z 10)
     = Math_max (of_Z 1) (Math_floor (of_Z 10 * (t / of_Z 10))%num)
  /\ getConcurrencyAtWithDuration (num:=float) (Some (ramp_up_over 10))
       (of_Z 5000) (of_Z 10) (of_Z 10) = of_Z 5.
Proof.
  intros t.
  assert (Ht : (t >=? of_Z 10)%num = false) by (vm_compute; reflexivity).
  split; [exact Ht|]. split; [|vm_compute; reflexivity].
  exact (proj1 (proj1 (@getConcurrencyAtWithDuration_patterns float _
                         (of_Z 10) (of_Z 10) (of_Z 5000))
                  (ramp_up_over 10) (of_Z 10) eq_refl eq_refl) Ht).
Defined.

Lemma pattern_bounds_witness :
  1 <= 3 /\ 0 <= 9000
  /\ 1 <= getConcurrencyAtWithDuration (Some (spike_of 12 2)) 9000 10 3
  /\ getConcurrencyAtWithDuration (Some (spike_of 12 2)) 9000 10 3
     <= Qmax 3 12.
Proof.
  assert (HN : 1 <= 3) by discriminate.
  assert (Ht : 0 <= 9000) by discriminate.
  assert (HS : forall (pc : LoadPatternConfig Q) (S : Q),
             Some (spike_of 12 2) = Some pc -> type pc = spike ->
             spikeConcurrency pc = Some S -> 1 <= S).
  { intros pc S Hpc _ HSc. inversion Hpc; subst pc. inversion HSc; subst S.
    discriminate. }
  split; [exact HN|]. split; [exact Ht|].
  exact (@pattern_bounds (Some (spike_of 12 2)) 9000 10 3 HN Ht HS).
Defined.

(** C6 at a spike that leaves [spikeConcurrency] unset: the bound is
    3 * 2, and it is reached. *)
Example pattern_bounds_unset_spike :
  getConcurrencyAtWithDuration (num:=Q) (Some spike_without_concurrency)
    9000 10 3 == 3 * 2
  /\ getConcurrencyAtWithDuration (num:=float) (Some spike_without_concurrency)
       (of_Z 9000) (of_Z 10) (of_Z 3) = of_Z 6.
Proof. split; vm_compute; reflexivity. Qed.

(** Scenarios S4 (ramp to 10 over 10 s) and S5 (spike to 12 for the last
    2 of 10 s), on both arithmetics. *)
Example scenarios_S4_S5 :
  (let c t := getConcurrencyAtWithDuration (num:=Q) (Some (ramp_up_over 10)) t 10 10 in
   c 0 == 1 /\ c 5000 == 5 /\ c 10000 == 10)
  /\ (let c t := getConcurrencyAtWithDuration (num:=Q) (Some (spike_of 12 2)) t 10 3 in
      c 0 == 3 /\ c 7999 == 3 /\ c 8000 == 12 /\ c 9999 == 12 /\ c 10000 == 3)
  /\ (let c t := getConcurrencyAtWithDuration (num:=float)
                   (Some (ramp_up_over 10)) (of_Z t) (of_Z 10) (of_Z 10) in
      c 0%Z = of_Z 1 /\ c 5000%Z = of_Z 5 /\ c 10000%Z = of_Z 10)
  /\ (let c t := getConcurrencyAtWithDuration (num:=float)
                   (Some (spike_of 12 2)) (of_Z t) (of_Z 10) (of_Z 3) in
      c 0%Z = of_Z 3 /\ c 7999%Z = of_Z 3 /\ c 8000%Z = of_Z 12
      /\ c 9999%Z = of_Z 12 /\ c 10000%Z = of_Z 3).
Proof. repeat split; vm_compute; reflexivity. Qed.

(** On binary64 the quotient t / R is rounded before it is multiplied by
    N, and the product can fall just below an integer: ramping 98
    workers over 49 s, one second in, floor(98 * 1 / 49) is 2, while
    98 * (1 / 49) is 1.9999999999999998 on binary64, whose floor is 1. *)
Remark ramp_up_binary64_rounding :
  getConcurrencyAtWithDuration (num:=Q) (Some (ramp_up_over 49)) 1000 60 98 == 2
  /\ getConcurrencyAtWithDuration (num:=float) (Some (ramp_up_over 49))
       (of_Z 1000) (of_Z 60) (of_Z 98) = of_Z 1.
Proof. split; vm_compute; reflexivity. Qed.

(** ** C7 and C9 at scenario S6 *)

Lemma integer_two_decimals (z : Z) : two_decimals (inject_Z z).
Proof.
  exists (z * 100)%Z. unfold Qeq. simpl. lia.
Qed.

Lemma scenario_S6_two_decimals :
  Forall two_decimals (successful_times (num:=Q) scenario_S6).
Proof. repeat (constructor; [apply integer_two_decimals|]). constructor. Qed.


Lemma rounding_of_fields_witness :
  let M := computeMetrics (num:=Q) scenario_S6 10 in
  Forall two_decimals (successful_times (num:=Q) scenario_S6)
  /\ two_decimals (minResponseTime M) /\ two_decimals (maxResponseTime M).
Proof.
  intros M. split; [exact scenario_S6_two_decimals|].
  destruct (rounding_of_fields scenario_S6 10) as (_ & _ & _ & _ & _ & Hmm & _).
  exact (Hmm scenario_S6_two_decimals).
Defined.

(** ** C8 at a score next to 49.5, and at an HTTP error rate of 10 *)

Lemma computeSafetyScore_formula_witness :
  score (computeSafetyScore (num:=float) tie_metrics)
  = Math_max (of_Z 0)
      (Math_min (of_Z 100) (Math_round (computed_raw_score tie_metrics)))
  /\ computed_raw_score (num:=float) tie_metrics
     = (0x1.8bfffffffffffp+5)%float
  /\ score (computeSafetyScore (num:=float) tie_metrics) = of_Z 49
  /\ label (computeSafetyScore (num:=float) tie_metrics) = DANGEROUS.
Proof.
  split; [exact (proj1 (@computeSafetyScore_formula float _ tie_metrics))|].
  repeat split; vm_compute; reflexivity.
Defined.

(** Score and label of two metrics values, on both arithmetics: an HTTP
    error rate of 10 costs 6 points; with 50% timeouts, a p95 of 2000
    and a mean of 1500 the score is 100 - 30 - 25 - 10 = 35. *)
Example safety_scores :
  (score (computeSafetyScore (num:=Q) (metrics_with_error_rate 10)) == 94
   /\ label (computeSafetyScore (num:=Q) (metrics_with_error_rate 10)) = SAFE)
  /\ (let M :=
        {| totalRequests := of_Z 100; successfulRequests := of_Z 50;
           failedRequests := of_Z 50; errorRatePercentage := of_Z 50;
           requestsPerSecond := of_Z 10; avgResponseTime := of_Z 1500;
           minResponseTime := of_Z 100; maxResponseTime := of_Z 3000;
           p95ResponseTime := of_Z 2000; p99ResponseTime := of_Z 2500;
           timeoutCount := of_Z 50; timeoutRatePercentage := of_Z 50 |} in
      score (computeSafetyScore (num:=float) M) = of_Z 35
      /\ label (computeSafetyScore (num:=float) M) = DANGEROUS).
Proof. split; vm_compute; repeat split; reflexivity. Qed.

(** ** C10 at the first insertion *)

Lemma history_bounded_newest_first_witness :
  (List.length (@nil (TestHistoryRecord Q)) < 100)%nat
  /\ addToHistory sample_record [] = [sample_record].
Proof.
  assert (Hlen : (List.length (@nil (TestHistoryRecord Q)) < 100)%nat)
    by (simpl; lia).
  split; [exact Hlen|].
  exact (proj1 (proj2 history_bounded_newest_first) sample_record [] Hlen).
Defined.

(** * Further properties *)

(** ** History lookups *)

Lemma addToHistory_head {num : Type} (record : TestHistoryRecord num)
  (history : list (TestHistoryRecord num)) :
  exists rest, addToHistory record history = record :: rest.
Proof.
  unfold addToHistory.
  destruct (MAX_HISTORY <? List.length (record :: history))%nat eqn:Hfull.
  - destruct history as [|r0 rest].
    + simpl in Hfull. discriminate.
    + exists (removelast (r0 :: rest)). reflexivity.
  - exists history. reflexivity.
Qed.

Lemma getHistoryRecord_head {num : Type} (record : TestHistoryRecord num)
  (history : list (TestHistoryRecord num)) :
  getHistoryRecord (h_id record) (addToHistory record history) = Some record.
Proof.
  destruct (addToHistory_head record history) as [rest ->].
  unfold getHistoryRecord. simpl. rewrite String.eqb_refl. reflexivity.
Qed.

(** X1.  A record just added is the one found under its id, whatever the
    history held before, older records of the same id included. *)
Theorem getHistoryRecord_after_add {num : Type}
  (record : TestHistoryRecord num) (history : list (TestHistoryRecord num)) :
  getHistoryRecord (h_id record) (getHistory (addToHistory record history))
  = Some record.
Proof.
  unfold getHistory. apply getHistoryRecord_head.
Qed.

Lemma find_id_app {num : Type} (id0 : string)
  (h1 h2 : list (TestHistoryRecord num)) :
  (forall r, In r h1 -> h_id r <> id0) ->
  getHistoryRecord id0 (h1 ++ h2) = getHistoryRecord id0 h2.
Proof.
  unfold getHistoryRecord. induction h1 as [|r h1 IH]; intros Hne; [reflexivity|].
  simpl. destruct (String.eqb_spec (h_id r) id0) as [Heq|_].
  - exfalso. apply (Hne r); [left; reflexivity|exact Heq].
  - apply IH. intros r' Hin. apply Hne. right. exact Hin.
Qed.

(** X2.  Below the capacity of 100 an insertion leaves the lookup of
    every other id as it was; at capacity the oldest record is dropped,
    and its id is found no more unless a newer record carries it. *)
Theorem getHistoryRecord_other_ids {num : Type}
  (record : TestHistoryRecord num) (history : list (TestHistoryRecord num))
  (id0 : string) :
  id0 <> h_id record ->
  ((List.length history < 100)%nat ->
   getHistoryRecord id0 (addToHistory record history)
   = getHistoryRecord id0 history)
  /\ (forall newer oldest,
         history = newer ++ [oldest] ->
         List.length history = 100%nat ->
         getHistoryRecord id0 (addToHistory record history)
         = getHistoryRecord id0 newer)
  /\ (forall newer oldest,
         history = newer ++ [oldest] ->
         List.length history = 100%nat ->
         h_id oldest = id0 ->
         (forall r, In r newer -> h_id r <> id0) ->
         getHistoryRecord id0 (addToHistory record history) = None).
Proof.
  intros Hid.
  assert (Hskip : forall rest,
             getHistoryRecord id0 (record :: rest) = getHistoryRecord id0 rest).
  { intros rest. unfold getHistoryRecord. simpl.
    destruct (String.eqb_spec (h_id record) id0) as [Heq|_]; [|reflexivity].
    exfalso. apply Hid. symmetry. exact Heq. }
  assert (Hfull : forall newer oldest,
             history = newer ++ [oldest] ->
             List.length history = 100%nat ->
             addToHistory record history = record :: newer).
  { intros newer oldest -> Hlen. unfold addToHistory.
    destruct (Nat.ltb_spec MAX_HISTORY
                (List.length (record :: newer ++ [oldest]))) as [_|Hle].
    - change (record :: newer ++ [oldest]) with ((record :: newer) ++ [oldest]).
      apply removelast_last.
    - unfold MAX_HISTORY in Hle. simpl in Hle. lia. }
  split; [|split].
  - intros Hlen. unfold addToHistory.
    destruct (Nat.ltb_spec MAX_HISTORY (List.length (record :: history)))
      as [Hgt|_]; [|apply Hskip].
    unfold MAX_HISTORY in Hgt. simpl in Hgt. lia.
  - intros newer oldest Hh Hlen. rewrite (Hfull newer oldest Hh Hlen). apply Hskip.
  - intros newer oldest Hh Hlen _ Hnone.
    rewrite (Hfull newer oldest Hh Hlen), Hskip.
    rewrite <- (app_nil_r newer). rewrite (@find_id_app _ id0 newer [] Hnone).
    reflexivity.
Qed.

Lemma set_has_In (ids : list string) (x : string) :
  set_has ids x = true <-> In x ids.
Proof.
  unfold set_has. rewrite existsb_exists. split.
  - intros (i & Hin & Heq). apply String.eqb_eq in Heq. subst. exact Hin.
  - intros Hin. exists x. split; [exact Hin|apply String.eqb_refl].
Qed.

(** X3.  [getHistoryRecords] returns exactly the records whose id is
    among [ids], in the order of the history: the order and the
    repetitions of [ids] play no role, and asking for a single id gives
    first the record [getHistoryRecord] finds. *)
Theorem getHistoryRecords_spec {num : Type} (ids : list string)
  (history : list (TestHistoryRecord num)) :
  (forall r, In r (getHistoryRecords ids history)
             <-> In r history /\ In (h_id r) ids)
  /\ (forall h1 h2, history = h1 ++ h2 ->
        getHistoryRecords ids history
        = getHistoryRecords ids h1 ++ getHistoryRecords ids h2)
  /\ (forall ids', (forall x, In x ids <-> In x ids') ->
        getHistoryRecords ids' history = getHistoryRecords ids history)
  /\ (forall id0, hd_error (getHistoryRecords [id0] history)
                  = getHistoryRecord id0 history).
Proof.
  repeat match goal with |- _ /\ _ => split end.
  - intros r. unfold getHistoryRecords. rewrite filter_In, set_has_In. reflexivity.
  - intros h1 h2 ->. unfold getHistoryRecords. apply filter_app.
  - intros ids' Hsame. unfold getHistoryRecords. apply filter_ext.
    intros r. destruct (set_has ids (h_id r)) eqn:Hh.
    + apply set_has_In. apply Hsame. apply set_has_In. exact Hh.
    + apply not_true_is_false. intros Hh'. apply set_has_In in Hh'.
      apply Hsame in Hh'. apply set_has_In in Hh'. congruence.
  - intros id0. unfold getHistoryRecords, getHistoryRecord, set_has.
    induction history as [|r rest IH]; [reflexivity|].
    simpl. rewrite orb_false_r, String.eqb_sym.
    destruct (String.eqb (h_id r) id0); [reflexivity|exact IH].
Qed.

(** ** The running test *)

Lemma worker_update_keeps {num : Type} `{Number num} (r : RequestResult num)
  (now now' : num) (st : LoadTestState num) (stop : bool) :
  let st' := fst (worker_update r now now' st stop) in
  let stop' := snd (worker_update r now now' st stop) in
  id st' = id st /\ config st' = config st /\ startedAt st' = startedAt st
  /\ status st' = status st /\ completedAt st' = completedAt st
  /\ safetyScore st' = safetyScore st
  /\ (stop = true -> stop' = true)
  /\ (forall v, firstViolationAt st = Some v -> firstViolationAt st' = Some v).
Proof.
  intros st' stop'. subst st' stop'. unfold worker_update. cbn [fst snd].
  cbn [id config startedAt status completedAt safetyScore firstViolationAt].
  repeat split.
  - intros ->. destruct (shouldAutoStop _ _); reflexivity.
  - intros v Hv. rewrite Hv. destruct (ev_firstViolationAt _); reflexivity.
Qed.

(** X4.  While a test runs, a worker never changes its id, its
    configuration, its start time or its status; the results are only
    appended to; the stop flag, once set, stays set; and
    [firstViolationAt], once set, keeps its value. *)
Theorem running_test_monotone {num : Type} `{Number num}
  (state state' : LoadTestState num) (stop stop' : bool) :
  run_continues state stop state' stop' ->
  id state' = id state /\ config state' = config state
  /\ startedAt state' = startedAt state /\ status state' = status state
  /\ (exists later, requestResults state' = requestResults state ++ later)
  /\ (stop = true -> stop' = true)
  /\ (forall v, firstViolationAt state = Some v ->
                firstViolationAt state' = Some v).
Proof.
  induction 1 as [|st1 stop1 start finish outcome now now' _ IH].
  - repeat split; try reflexivity; auto. exists []. symmetry. apply app_nil_r.
  - destruct IH as (Hid & Hcfg & Hstart & Hstatus & (later & Hres) & Hstop & Hfirst).
    destruct (worker_update_keeps (runOneRequest start finish outcome) now now'
                st1 stop1)
      as (Hid' & Hcfg' & Hstart' & Hstatus' & _ & _ & Hstop' & Hfirst').
    rewrite Hid', Hcfg', Hstart', Hstatus', worker_update_results, Hres.
    repeat split; try assumption.
    + exists (later ++ [runOneRequest start finish outcome]).
      symmetry. apply app_assoc.
    + intros Hs. apply Hstop', Hstop, Hs.
    + intros v Hv. apply Hfirst', Hfirst, Hv.
Qed.

Lemma run_state_checked {num : Type} `{Number num} (id0 : string)
  (config0 : LoadTestConfig num) (startedAt0 : num) (st : LoadTestState num)
  (stop : bool) :
  run_state id0 config0 startedAt0 st stop ->
  config st = config0
  /\ (requestResults st = [] /\ stop = false /\ thresholdVerdict st = None
      \/ requestResults st <> []
         /\ exists now',
          let ev := evaluateThresholds now' (metrics st) (thresholds config0) in
          thresholdVerdict st = Some (ev_verdict ev)
          /\ verdictReasons st = Some (ev_reasons ev)
          /\ (shouldAutoStop (ev_verdict ev) (ev_reasons ev) = true
              -> stop = true)).
Proof.
  induction 1 as [|st stop start finish outcome now now' _ [IHc IH]].
  - split; [reflexivity|]. left. repeat split.
  - split; [exact IHc|]. right. split.
    + unfold worker_update. cbn [fst requestResults].
      intros Hnil. apply app_eq_nil in Hnil. destruct Hnil as [_ Hnil].
      discriminate.
    + exists now'. cbv zeta.
      unfold worker_update.
      cbn [fst snd metrics thresholdVerdict verdictReasons].
      rewrite IHc. repeat split. intros ->. reflexivity.
Qed.

Lemma run_state_stopped {num : Type} `{Number num} (id0 : string)
  (config0 : LoadTestConfig num) (startedAt0 : num) (st : LoadTestState num)
  (stop : bool) :
  run_state id0 config0 startedAt0 st stop ->
  stop = true ->
  exists H0 M, thresholds config0 = Some H0
              /\ (exceeds_maxErrorRate M H0 \/ below_minSuccessRate M H0).
Proof.
  induction 1 as [|st stop start finish outcome now now' Hrun IH];
    [discriminate|].
  destruct (run_state_checked Hrun) as [Hcfg _].
  unfold worker_update. cbn [fst snd]. rewrite Hcfg.
  set (M := computeMetrics _ _).
  destruct (shouldAutoStop _ _) eqn:Hs; [intros _|exact IH].
  destruct (thresholds config0) as [H0|] eqn:Hth.
  - exists H0, M. split; [reflexivity|].
    destruct (evaluateThresholds_computed now' M H0) as (Herr & Hsucc & _).
    destruct (shouldAutoStop_has_reason _ _ Hs) as [Hr|Hr];
      [left; apply Herr|right; apply Hsucc]; exact Hr.
  - simpl in Hs. discriminate.
Qed.

(** X5.  The auto-stop of a running test, in the arithmetic of the
    program.  Before the first request has completed nothing is
    evaluated: the stop flag is not set and there is no threshold
    verdict.  From the first completed request on, whenever the program
    finds the live metrics beyond [maxErrorRatePercent] or below
    [minSuccessRatePercent], the stop flag is set and the threshold
    verdict is FAIL.  The flag is never set for a test without
    thresholds, nor for one whose only threshold is
    [maxP95LatencyMs]. *)
Theorem auto_stop_of_running_test {num : Type} `{Number num} (id0 : string)
  (config0 : LoadTestConfig num) (startedAt0 : num)
  (state : LoadTestState num) (stop : bool) :
  run_state id0 config0 startedAt0 state stop ->
  (requestResults state = [] ->
   stop = false /\ thresholdVerdict state = None)
  /\ (forall H0, thresholds config0 = Some H0 ->
             requestResults state <> [] ->
             exceeds_maxErrorRate (metrics state) H0
             \/ below_minSuccessRate (metrics state) H0 ->
             stop = true
             /\ thresholdVerdict state = Some FAIL)
  /\ (thresholds config0 = None -> stop = false)
  /\ (forall H0, thresholds config0 = Some H0 ->
                th_maxErrorRatePercent H0 = None ->
                th_minSuccessRatePercent H0 = None ->
                stop = false).
Proof.
  intros Hrun.
  destruct (run_state_checked Hrun) as [_ Hcases].
  split; [|split; [|split]].
  - intros Hnil. destruct Hcases as [(_ & Hs & Hv)|(Hne & _)];
      [split; assumption|contradiction].
  - intros H0 Hth Hne Hviol.
    destruct Hcases as [(Hnil & _)|(_ & now' & Hv & _ & Hstop)];
      [contradiction|]. cbv zeta in Hv, Hstop. rewrite Hth in Hv, Hstop.
    destruct (evaluateThresholds_computed now' (metrics state) H0)
      as (Herr & Hsucc & _ & Hverdict & _).
    assert (Hr : has_reason maxErrorRatePercent
                   (ev_reasons (evaluateThresholds now' (metrics state) (Some H0)))
                 || has_reason minSuccessRatePercent
                      (ev_reasons (evaluateThresholds now' (metrics state) (Some H0)))
                 = true).
    { apply orb_true_iff. destruct Hviol as [Hv'|Hv'];
        [left; apply Herr|right; apply Hsucc]; exact Hv'. }
    rewrite Hr in Hverdict.
    assert (Hauto : shouldAutoStop
                      (ev_verdict (evaluateThresholds now' (metrics state) (Some H0)))
                      (ev_reasons (evaluateThresholds now' (metrics state) (Some H0)))
                    = true).
    { apply shouldAutoStop_iff. split; [exact Hverdict|].
      apply orb_true_iff in Hr. destruct Hr as [Hr|Hr];
        apply has_reason_In in Hr; destruct Hr as (r & Hin & Hk);
        exists r; (split; [exact Hin|]); [left|right]; exact Hk. }
    split; [exact (Hstop Hauto)|]. rewrite Hv, Hverdict. reflexivity.
  - intros Hth. destruct stop; [|reflexivity].
    destruct (run_state_stopped Hrun eq_refl) as (H0 & M & Hth' & _).
    congruence.
  - intros H0 Hth He Hs. destruct stop; [|reflexivity].
    destruct (run_state_stopped Hrun eq_refl)
      as (H1 & M & Hth' & [(l & Hl & _)|(l & Hl & _)]);
      rewrite Hth in Hth'; inversion Hth'; subst H1; congruence.
Qed.

(** ** Finalization and the headless verdict *)

Lemma finalize_running {num : Type} `{Number num} (now now' : num)
  (s : LoadTestState num) (history : list (TestHistoryRecord num)) :
  status s = running ->
  exists record,
    snd (finalize now now' s history) = addToHistory record history
    /\ snapshot_of (fst (finalize now now' s history)) record
    /\ h_id record = id s
    /\ status (fst (finalize now now' s history)) = completed
    /\ completedAt (fst (finalize now now' s history)) = Some now
    /\ requestResults (fst (finalize now now' s history)) = requestResults s.
Proof.
  intros Hs. unfold finalize. rewrite Hs. cbn [fst snd].
  eexists. split; [reflexivity|]. repeat split.
Qed.

Lemma finalize_not_running {num : Type} `{Number num} (now now' : num)
  (s : LoadTestState num) (history : list (TestHistoryRecord num)) :
  status s <> running -> finalize now now' s history = (s, history).
Proof.
  intros Hs. unfold finalize. destruct (status s); try reflexivity.
  exfalso. apply Hs. reflexivity.
Qed.

(** X6.  Finalizing a running test completes it, stamps [completedAt],
    and puts its snapshot in front of the history, where it is found
    under the test's id; finalizing again, or finalizing a test that is
    not running, changes neither the test nor the history, so a test
    enters the history once. *)
Theorem finalize_once {num : Type} `{Number num} (now now' : num)
  (s : LoadTestState num) (history : list (TestHistoryRecord num)) :
  let s' := fst (finalize now now' s history) in
  let history' := snd (finalize now now' s history) in
  (status s = running ->
   status s' = completed
   /\ completedAt s' = Some now
   /\ requestResults s' = requestResults s
   /\ (exists record rest,
          history' = record :: rest /\ snapshot_of s' record
          /\ getHistoryRecord (id s) history' = Some record))
  /\ (status s <> running -> s' = s /\ history' = history)
  /\ (forall later later', finalize later later' s' history' = (s', history')).
Proof.
  intros s' history'. split; [|split].
  - intros Hs.
    destruct (finalize_running now now' s history Hs)
      as (record & Hhist & Hsnap & Hid & Hst & Hc & Hres).
    fold s' in Hsnap, Hst, Hc, Hres. fold history' in Hhist.
    split; [exact Hst|]. split; [exact Hc|]. split; [exact Hres|].
    destruct (addToHistory_head record history) as [rest Hrest].
    exists record, rest. split; [congruence|]. split; [exact Hsnap|].
    rewrite Hhist, <- Hid. apply getHistoryRecord_head.
  - intros Hs. subst s' history'.
    rewrite (finalize_not_running now now' s history Hs). split; reflexivity.
  - intros later later'. apply finalize_not_running.
    destruct (status s) eqn:Hs.
    + destruct (finalize_running now now' s history Hs)
        as (_ & _ & _ & _ & Hst & _).
      fold s' in Hst. rewrite Hst. discriminate.
    + subst s'. rewrite (finalize_not_running now now' s history) by congruence.
      cbn [fst]. congruence.
    + subst s'. rewrite (finalize_not_running now now' s history) by congruence.
      cbn [fst]. congruence.
Qed.

Lemma finalize_thresholdVerdict {num : Type} `{Number num} (now now' : num)
  (s : LoadTestState num) (history : list (TestHistoryRecord num)) :
  status s = running ->
  let T := fst (finalize now now' s history) in
  thresholdVerdict T
  = Some (ev_verdict (evaluateThresholds now' (metrics T) (thresholds (config s)))).
Proof. intros Hs T. subst T. unfold finalize. rewrite Hs. reflexivity. Qed.

(** X7.  The exit code of a headless run that completed is decided by
    the thresholds alone, in the arithmetic of the program: 2 when the
    program finds the final metrics beyond [maxErrorRatePercent] or below
    [minSuccessRatePercent], 1 when it finds them beyond
    [maxP95LatencyMs] only, 0 otherwise; without thresholds it is 0
    whatever the error rate, the legacy verdict playing no part. *)
Theorem headless_exit_code {num : Type} `{Number num} (now now' : num)
  (s : LoadTestState num) (history : list (TestHistoryRecord num)) :
  status s = running ->
  let T := fst (finalize now now' s history) in
  let code := exitCode (headless_verdict T) in
  (thresholds (config s) = None -> code = 0%Z)
  /\ (forall H0, thresholds (config s) = Some H0 ->
        (code = 2%Z <-> exceeds_maxErrorRate (metrics T) H0
                        \/ below_minSuccessRate (metrics T) H0)
        /\ (code = 1%Z <-> ~ exceeds_maxErrorRate (metrics T) H0
                           /\ ~ below_minSuccessRate (metrics T) H0
                           /\ exceeds_maxP95 (metrics T) H0)
        /\ (code = 0%Z <-> ~ exceeds_maxErrorRate (metrics T) H0
                           /\ ~ below_minSuccessRate (metrics T) H0
                           /\ ~ exceeds_maxP95 (metrics T) H0)).
Proof.
  intros Hs T code. subst code. unfold headless_verdict.
  pose proof (finalize_thresholdVerdict now now' s history Hs) as Hv.
  cbv zeta in Hv. fold T in Hv. rewrite Hv. split.
  - intros ->. reflexivity.
  - intros H0 ->.
    destruct (evaluateThresholds_computed now' (metrics T) H0)
      as (Herr & Hsucc & Hp95 & Hverdict & _).
    rewrite Hverdict.
    destruct (has_reason maxErrorRatePercent _) eqn:He;
      destruct (has_reason minSuccessRatePercent _) eqn:Hm;
      destruct (has_reason maxP95LatencyMs _) eqn:Hp; cbn [orb exitCode];
      repeat split; try discriminate; try tauto;
      try (intros _; tauto);
      try (intros Hc; exfalso;
           repeat match goal with
             | Hx : _ /\ _ |- _ => destruct Hx
             | Hx : _ \/ _ |- _ => destruct Hx
             end;
           repeat match goal with
             | Hi : _ = true <-> ?P, Hp' : ?P |- _ =>
                 apply Hi in Hp'; discriminate
             | Hi : _ = true <-> ?P, Hn : ~ ?P |- _ =>
                 apply Hn; apply Hi; reflexivity
             end);
      try (intros Hx; apply Herr in Hx; discriminate);
      try (intros Hx; apply Hsucc in Hx; discriminate);
      try (intros Hx; apply Hp95 in Hx; discriminate).
Qed.

(** ** Comparison of two tests *)

Lemma two_decimals_minus (x y : Q) :
  two_decimals x -> two_decimals y -> two_decimals (y - x).
Proof.
  intros [a Ha] [b Hb]. exists (b - a)%Z. rewrite Ha, Hb.
  unfold Qeq, Qminus, Qplus, Qopp. simpl. lia.
Qed.

Lemma computeMetrics_p95_two_decimals (results : list (RequestResult Q)) (d : Q) :
  two_decimals (p95ResponseTime (computeMetrics results d)).
Proof.
  destruct (Nat.eq_dec (List.length (sorted_successes results)) 0) as [H0|Hpos].
  - destruct (computeMetrics_no_success results d H0) as (_ & _ & _ & -> & _).
    apply zero_two_decimals.
  - assert (HL : (1 <= List.length (sorted_successes results))%nat) by lia.
    destruct (computeMetrics_latencies results d HL) as (_ & _ & _ & -> & _).
    apply round2_two_decimals.
Qed.

(** X8.  The comparison flags a regression exactly when the error rate
    or p95 of the second test is above that of the first.  For metrics
    that [computeMetrics] produced, the reported deltas are the exact
    differences, so the flag is set exactly when a reported delta is
    positive, and swapping the two tests negates the deltas. *)
Theorem compare_tests_spec :
  (forall a b : LoadTestMetrics Q,
      regression (compare_tests a b) = false
      <-> errorRatePercentage b <= errorRatePercentage a
          /\ p95ResponseTime b <= p95ResponseTime a)
  /\ (forall (ra rb : list (RequestResult Q)) (da db : Q),
         let a := computeMetrics ra da in
         let b := computeMetrics rb db in
         delta_errorRatePercentage (compare_tests a b)
         == errorRatePercentage b - errorRatePercentage a
         /\ delta_p95ResponseTimeMs (compare_tests a b)
            == p95ResponseTime b - p95ResponseTime a
         /\ (regression (compare_tests a b) = true
             <-> 0 < delta_errorRatePercentage (compare_tests a b)
                 \/ 0 < delta_p95ResponseTimeMs (compare_tests a b))
         /\ delta_errorRatePercentage (compare_tests b a)
            == - delta_errorRatePercentage (compare_tests a b)
         /\ delta_p95ResponseTimeMs (compare_tests b a)
            == - delta_p95ResponseTimeMs (compare_tests a b)).
Proof.
  assert (Hflag : forall a b : LoadTestMetrics Q,
             regression (compare_tests a b) = true
             <-> 0 < errorRatePercentage b - errorRatePercentage a
                 \/ 0 < p95ResponseTime b - p95ResponseTime a).
  { intros a b. unfold compare_tests. cbn [regression].
    rewrite orb_true_iff, !ltb_lt. reflexivity. }
  split.
  - intros a b. rewrite <- not_true_iff_false, Hflag. split.
    + intros Hn. split; apply Qnot_lt_le; intros Hlt; apply Hn; [left|right]; lra.
    + intros [He Hp] [Hlt|Hlt]; lra.
  - intros ra rb da db a b.
    assert (Hexact : forall x y, two_decimals x -> two_decimals y ->
                (Math_round ((y - x) * of_Z 100) / of_Z 100)%num == y - x).
    { intros x y Hx Hy. rewrite round2_code.
      apply round2_fixed, two_decimals_minus; assumption. }
    assert (Hea : two_decimals (errorRatePercentage a))
      by apply (computeMetrics_percentages ra da).
    assert (Heb : two_decimals (errorRatePercentage b))
      by apply (computeMetrics_percentages rb db).
    assert (Hpa : two_decimals (p95ResponseTime a))
      by apply computeMetrics_p95_two_decimals.
    assert (Hpb : two_decimals (p95ResponseTime b))
      by apply computeMetrics_p95_two_decimals.
    unfold compare_tests at 1 2 4 5 6 7 8 9.
    cbn [delta_errorRatePercentage delta_p95ResponseTimeMs].
    rewrite (Hexact _ _ Hea Heb), (Hexact _ _ Hpa Hpb),
      (Hexact _ _ Heb Hea), (Hexact _ _ Hpb Hpa), Hflag.
    repeat split; try tauto; try ring.
Qed.

(** ** Load patterns: delay, the older concurrency function, preview *)

(** X9.  Under fixed_rps with a positive [targetRps], every worker
    pauses a positive delay such that [concurrency] workers together
    send [targetRps] requests per second; every other pattern, and a
    [targetRps] that is unset, zero or negative, gives no delay. *)
Theorem getDelayMs_rate (pattern : option (LoadPatternConfig Q)) (concurrency : Q) :
  (forall pc r, pattern = Some pc -> type pc = fixed_rps ->
                targetRps pc = Some r -> 0 < r -> 0 < concurrency ->
                0 < getDelayMs pattern concurrency
                /\ concurrency * (1000 / getDelayMs pattern concurrency) == r)
  /\ (pattern = None -> getDelayMs pattern concurrency = 0)
  /\ (forall pc, pattern = Some pc ->
        type pc <> fixed_rps \/ targetRps pc = None
        \/ (exists r, targetRps pc = Some r /\ r <= 0) ->
        getDelayMs pattern concurrency = 0).
Proof.
  split; [|split].
  - intros pc r -> Hty Hr Hpos Hc. unfold getDelayMs. rewrite Hty, Hr.
    unfold truthy. qnum.
    destruct (Qeq_bool r (inject_Z 0)) eqn:He.
    { apply Qeq_bool_eq in He. change (inject_Z 0) with 0 in He. lra. }
    destruct (Qle_bool r (inject_Z 0)) eqn:Hle.
    { apply Qle_bool_iff in Hle. change (inject_Z 0) with 0 in Hle. lra. }
    cbn [negb orb]. change (inject_Z 1000) with 1000.
    assert (Hd : 0 < 1000 / r * concurrency).
    { apply Qmult_lt_0_compat; [|exact Hc].
      apply Qlt_shift_div_l; lra. }
    split; [exact Hd|]. field. split; lra.
  - intros ->. reflexivity.
  - intros pc -> Hcase. unfold getDelayMs.
    destruct Hcase as [Hty|[Hr|(r & Hr & Hle)]].
    + destruct (type pc); try reflexivity. contradiction.
    + rewrite Hr. destruct (type pc); reflexivity.
    + rewrite Hr. destruct (type pc); try reflexivity.
      apply Qle_bool_iff in Hle. qnum. change (inject_Z 0) with 0.
      rewrite Hle, orb_true_r. reflexivity.
Qed.

(** X10.  The older [getConcurrencyAt] never reports a spike: for an
    elapsed time that is not negative it returns the base concurrency
    under every spike pattern, because its window ends at 0; under the
    other patterns it agrees with [getConcurrencyAtWithDuration] for
    every duration. *)
Theorem getConcurrencyAt_ignores_spike (pattern : option (LoadPatternConfig Q))
  (timeSinceStartMs N : Q) :
  0 <= timeSinceStartMs ->
  (forall pc, pattern = Some pc -> type pc = spike ->
              getConcurrencyAt pattern timeSinceStartMs N = N)
  /\ (forall D, (forall pc, pattern = Some pc -> type pc <> spike) ->
        getConcurrencyAt pattern timeSinceStartMs N
        = getConcurrencyAtWithDuration pattern timeSinceStartMs D N).
Proof.
  intros Ht. split.
  - intros pc -> Hty. unfold getConcurrencyAt. rewrite Hty.
    set (W := nullish (spikeDurationSeconds pc) (of_Z 5)).
    set (t := (timeSinceStartMs / of_Z 1000)%num).
    assert (Ht0 : 0 <= t).
    { subst t. qnum. apply Qle_shift_div_l; [reflexivity|lra]. }
    destruct (t <? 0 - W + W)%num eqn:Hb; [|rewrite andb_false_r; reflexivity].
    props. lra.
  - intros D Hns. destruct pattern as [pc|]; [|reflexivity].
    specialize (Hns pc eq_refl).
    unfold getConcurrencyAt, getConcurrencyAtWithDuration.
    destruct (type pc); try reflexivity. contradiction.
Qed.

Section Preview.
Variable pattern : option (LoadPatternConfig Q).
Variables D N step : Q.
Hypothesis step_wide : 1 <= step.

Lemma preview_loop_points (fuel : nat) (t : Q) :
  Forall (preview_point_ok pattern D N t) (preview_loop fuel pattern D N step t)
  /\ Sorted.StronglySorted (fun p q => timeSec p < timeSec q)
       (preview_loop fuel pattern D N step t)
  /\ (List.length (preview_loop fuel pattern D N step t) <= fuel)%nat.
Proof.
  revert t. induction fuel as [|fuel IH]; intros t; simpl.
  - split; [constructor|split; [constructor|simpl; lia]].
  - qnum. destruct (Qle_bool t D) eqn:Hb; props;
      [|split; [constructor|split; [constructor|simpl; lia]]].
    destruct (IH (t + step)) as (Hall & Hsorted & Hlen).
    split; [|split].
    + constructor.
      * unfold preview_point_ok. cbn [timeSec concurrency].
        repeat split; try lra.
      * eapply Forall_impl; [|exact Hall].
        intros p (Hlo & Hhi & Hc). repeat split; try assumption. lra.
    + constructor; [exact Hsorted|].
      eapply Forall_impl; [|exact Hall].
      intros p (Hlo & _). cbn [timeSec]. lra.
    + simpl. lia.
Qed.

Lemma preview_loop_fuel (fuel extra : nat) (t : Q) :
  D - t < inject_Z (Z.of_nat fuel) ->
  preview_loop (fuel + extra) pattern D N step t
  = preview_loop fuel pattern D N step t.
Proof.
  revert t. induction fuel as [|fuel IH]; intros t Hfuel.
  - change (inject_Z (Z.of_nat 0)) with 0 in Hfuel.
    destruct extra as [|extra]; [reflexivity|]. simpl. qnum.
    destruct (Qle_bool t D) eqn:Hb; props; [lra|reflexivity].
  - simpl. qnum. destruct (Qle_bool t D) eqn:Hb; [|reflexivity].
    f_equal. apply IH.
    rewrite Nat2Z.inj_succ in Hfuel. unfold Z.succ in Hfuel.
    rewrite inject_Z_plus in Hfuel. change (inject_Z 1) with 1 in Hfuel.
    lra.
Qed.

End Preview.

Lemma preview_fuel_enough (D : Q) :
  D - 0 < inject_Z (Z.of_nat (preview_fuel D)).
Proof.
  unfold preview_fuel. qnum. rewrite Qfloor_Z.
  rewrite Nat2Z.inj_succ. unfold Z.succ. rewrite inject_Z_plus.
  change (inject_Z 1) with 1.
  pose proof (Qlt_floor D) as Hlt. rewrite inject_Z_plus in Hlt.
  change (inject_Z 1) with 1 in Hlt.
  assert (Hf : inject_Z (Qfloor D) <= inject_Z (Z.of_nat (Z.to_nat (Qfloor D)))).
  { rewrite <- Zle_Qle. lia. }
  lra.
Qed.

Lemma preview_step_wide (D : Q) :
  1 <= Math_max (of_Z 1) (Math_floor (D / of_Z 50))%num.
Proof.
  destruct (Math_max_cases (of_Z 1) (Math_floor (D / of_Z 50))%num)
    as [[Hlt ->]|[_ ->]]; [|apply Qle_refl].
  change (of_Z 1) with 1 in Hlt. lra.
Qed.

Lemma last_timeSec (points : list (PreviewPoint Q)) (p0 : PreviewPoint Q) :
  points <> [] ->
  last (map (fun p => Some (timeSec p)) points) None
  = Some (timeSec (last points p0)).
Proof.
  induction points as [|p rest IH]; [contradiction|]. intros _.
  destruct rest as [|q rest]; [reflexivity|].
  change (last (map (fun p => Some (timeSec p)) (p :: q :: rest)) None)
    with (last (map (fun p => Some (timeSec p)) (q :: rest)) None).
  change (last (p :: q :: rest) p0) with (last (q :: rest) p0).
  apply IH. discriminate.
Qed.

(** X11.  The pattern preview of a duration [D >= 0] starts at time 0 and
    ends at time [D]; its times increase strictly and stay within
    [0, D]; every point carries the concurrency
    [getConcurrencyAtWithDuration] gives at its time; and it has at most
    [floor D + 2] points.  The loop ends because [t] passes [D], not
    because the bound on the iterations is reached: more iterations
    would add nothing. *)
Theorem getPatternPreview_points (pattern : option (LoadPatternConfig Q))
  (D N : Q) :
  0 <= D ->
  let points := getPatternPreview pattern D N in
  let origin := {| timeSec := 0; concurrency := N |} in
  timeSec (hd origin points) == 0
  /\ timeSec (last points origin) == D
  /\ Sorted.StronglySorted (fun p q => timeSec p < timeSec q) points
  /\ Forall (fun p => 0 <= timeSec p /\ timeSec p <= D
                      /\ concurrency p
                         = getConcurrencyAtWithDuration pattern
                             (timeSec p * 1000) D N) points
  /\ (Z.of_nat (List.length points) <= Qfloor D + 2)%Z
  /\ (forall extra,
         preview_loop (preview_fuel D + extra) pattern D N
           (Math_max (of_Z 1) (Math_floor (D / of_Z 50))%num) 0
         = preview_loop (preview_fuel D) pattern D N
             (Math_max (of_Z 1) (Math_floor (D / of_Z 50))%num) 0).
Proof.
  intros HD points origin. subst points. unfold getPatternPreview.
  set (step := Math_max (of_Z 1) (Math_floor (D / of_Z 50))%num).
  assert (Hstep : 1 <= step) by apply preview_step_wide.
  set (loop := preview_loop (preview_fuel D) pattern D N step (of_Z 0)).
  destruct (preview_loop_points pattern D N Hstep (preview_fuel D) (of_Z 0))
    as (Hall & Hsorted & Hlen).
  fold loop in Hall, Hsorted, Hlen.
  assert (Hfirst : exists rest, loop = {| timeSec := 0;
             concurrency := getConcurrencyAtWithDuration pattern
                              (0 * 1000) D N |} :: rest).
  { subst loop. unfold preview_fuel. cbn [preview_loop]. qnum.
    change (inject_Z 0) with 0.
    assert (Hle : Qle_bool 0 D = true) by (apply Qle_bool_iff; exact HD).
    rewrite Hle. eexists. reflexivity. }
  destruct Hfirst as [rest Hloop].
  assert (Hne : loop <> []) by (rewrite Hloop; discriminate).
  assert (Hlen' : (Z.of_nat (List.length loop) <= Qfloor D + 1)%Z).
  { unfold preview_fuel in Hlen. qnum. rewrite Qfloor_Z in Hlen.
    assert (0 <= Qfloor D)%Z
      by (change 0%Z with (Qfloor 0); apply Qfloor_resp_le; exact HD).
    lia. }
  assert (Hall0 : Forall (fun p => 0 <= timeSec p /\ timeSec p <= D
                      /\ concurrency p
                         = getConcurrencyAtWithDuration pattern
                             (timeSec p * 1000) D N) loop).
  { exact Hall. }
  assert (Hfuel : forall extra,
             preview_loop (preview_fuel D + extra) pattern D N step 0 = loop).
  { intros extra. apply (preview_loop_fuel pattern N Hstep), preview_fuel_enough. }
  rewrite (@last_timeSec loop origin Hne).
  destruct (timeSec (last loop origin) === D)%num eqn:Hend.
  - (* the loop reached D itself *)
    apply Qeq_bool_eq in Hend.
    repeat match goal with |- _ /\ _ => split end; try assumption.
    + rewrite Hloop. reflexivity.
    + lia.
  - (* the end point is appended *)
    assert (Hlast_lt : Forall (fun p => timeSec p < D) loop).
    { rewrite Forall_forall in Hall0. apply Forall_forall. intros p Hin.
      destruct (Hall0 p Hin) as (_ & Hle & _).
      destruct (Qlt_le_dec (timeSec p) D) as [Hlt|Hge]; [exact Hlt|].
      exfalso.
      assert (Heq : timeSec p == D) by (apply Qle_antisym; assumption).
      assert (Hmax : timeSec p <= timeSec (last loop origin)).
      { destruct (exists_last Hne) as (front & final & Hfl).
        rewrite Hfl in Hin, Hsorted |- *. rewrite last_last.
        apply in_app_or in Hin. destruct Hin as [Hin|[<-|[]]];
          [|apply Qle_refl].
        clear - Hsorted Hin. induction front as [|q front IH];
          [contradiction|].
        simpl in Hsorted. inversion Hsorted as [|? ? Hs Hq]; subst.
        destruct Hin as [<-|Hin].
        - rewrite Forall_forall in Hq. apply Qlt_le_weak, Hq.
          apply in_or_app. right. left. reflexivity.
        - apply IH; assumption. }
      destruct (Hall0 (last loop origin)) as (_ & Hle' & _).
      { destruct (exists_last Hne) as (front & final & Hfl).
        rewrite Hfl, last_last. apply in_or_app. right. left. reflexivity. }
      assert (Hd : timeSec (last loop origin) == D) by (apply Qle_antisym; lra).
      apply Qeq_bool_iff in Hd. qnum. congruence. }
    repeat match goal with |- _ /\ _ => split end.
    + rewrite Hloop. reflexivity.
    + rewrite last_last. reflexivity.
    + clear - Hsorted Hlast_lt. induction loop as [|p loop IH]; simpl.
      * repeat constructor.
      * inversion Hsorted as [|? ? Hs Hp]; subst.
        inversion Hlast_lt as [|? ? Hlt Hrest]; subst.
        constructor; [apply IH; assumption|].
        apply Forall_app. split; [exact Hp|].
        constructor; [exact Hlt|constructor].
    + apply Forall_app. split; [exact Hall0|].
      constructor; [|constructor]. cbn [timeSec concurrency].
      repeat split; try lra.
    + rewrite length_app. simpl. lia.
    + exact Hfuel.
Qed.

(** ** The rate limiter *)

Lemma shift_older_split (cutoff : Q) (window : list Q) :
  exists removed,
    window = removed ++ shift_older cutoff window
    /\ Forall (fun ts => ts < cutoff) removed.
Proof.
  induction window as [|first rest (removed & Hsplit & Hold)]; simpl.
  - exists []. split; [reflexivity|constructor].
  - qnum. destruct (Qle_bool cutoff first) eqn:Hb; cbn [negb]; props.
    + exists []. split; [reflexivity|constructor].
    + exists (first :: removed). split; [simpl; f_equal; exact Hsplit|].
      constructor; assumption.
Qed.

Lemma within_last_second_none (r : Q) (old : list Q) :
  Forall (fun ts => ts < r - 1000) old -> within_last_second r old = [].
Proof.
  unfold within_last_second. induction 1 as [|ts old Hts _ IH]; [reflexivity|].
  simpl. destruct (Qle_bool (r - 1000) ts) eqn:Hb; [|exact IH].
  apply Qle_bool_iff in Hb. lra.
Qed.

Lemma within_last_second_app (r : Q) (l1 l2 : list Q) :
  within_last_second r (l1 ++ l2)
  = within_last_second r l1 ++ within_last_second r l2.
Proof. apply filter_app. Qed.

Lemma length_lt_limit (window : list Q) :
  (len (num:=Q) window <? GLOBAL_RATE_LIMIT_RPS)%num = true
  <-> (List.length window < 500)%nat.
Proof.
  unfold len, GLOBAL_RATE_LIMIT_RPS. split; intros Hx.
  - qnum. apply negb_true_iff, Qle_bool_false in Hx.
    rewrite <- Zlt_Qlt in Hx. lia.
  - qnum. apply negb_true_iff, Qle_bool_false. rewrite <- Zlt_Qlt. lia.
Qed.

Lemma limiter_invariant (window starts : list Q) (clock : Q) :
  limiter_run window starts clock ->
  (exists evicted,
      starts = evicted ++ window
      /\ Forall (fun ts => ts < clock - 1000) evicted)
  /\ (List.length window <= 500)%nat
  /\ Forall (fun ts => ts <= clock) window
  /\ (forall before r after,
         starts = before ++ r :: after ->
         (List.length (within_last_second r (before ++ [r])) <= 500)%nat).
Proof.
  induction 1 as [clock
                 |window starts clock now Hrun IH Hclock Hcheck
                 |window starts clock now now' Hrun IH Hclock Hnow Hcheck].
  - split; [exists []; split; [reflexivity|constructor]|].
    split; [simpl; lia|]. split; [constructor|].
    intros before r after Hs. destruct before; discriminate.
  - destruct IH as ((evicted & Hstarts & Hold) & Hlen & Hle & Hcap).
    unfold checkRateLimit, WINDOW_MS in *. cbn [fst snd] in *. props.
    destruct (shift_older_split (now - inject_Z 1000) window)
      as (removed & Hsplit & Hremoved).
    change (inject_Z 1000) with 1000 in *.
    assert (Hlen_le : (List.length (shift_older (now - 1000)%Q window)
                       <= List.length window)%nat).
    { rewrite Hsplit at 2. rewrite length_app. lia. }
    split; [|split; [lia|split; [|exact Hcap]]].
    + exists (evicted ++ removed). split.
      * rewrite <- app_assoc, <- Hsplit. exact Hstarts.
      * apply Forall_app. split; [|exact Hremoved].
        eapply Forall_impl; [|exact Hold]. intros ts Hts. cbv beta in *. lra.
    + rewrite Hsplit in Hle. apply Forall_app in Hle. destruct Hle as [_ Hle].
      eapply Forall_impl; [|exact Hle]. intros ts Hts. cbv beta in *. lra.
  - destruct IH as ((evicted & Hstarts & Hold) & Hlen & Hle & Hcap).
    unfold checkRateLimit, recordRequestSent, WINDOW_MS in *.
    cbn [fst snd] in *.
    apply length_lt_limit in Hcheck. props.
    destruct (shift_older_split (now - inject_Z 1000) window)
      as (removed & Hsplit & Hremoved).
    change (inject_Z 1000) with 1000 in *.
    set (kept := shift_older (now - 1000) window) in *.
    assert (Hev : starts = (evicted ++ removed) ++ kept).
    { rewrite <- app_assoc, <- Hsplit. exact Hstarts. }
    assert (Hold' : Forall (fun ts => ts < now' - 1000) (evicted ++ removed)).
    { apply Forall_app. split.
      - eapply Forall_impl; [|exact Hold]. intros ts Hts. cbv beta in *. lra.
      - eapply Forall_impl; [|exact Hremoved]. intros ts Hts. cbv beta in *. lra. }
    split; [|split; [|split]].
    + exists (evicted ++ removed). split; [|exact Hold'].
      rewrite Hev, <- app_assoc. reflexivity.
    + rewrite length_app. simpl. lia.
    + apply Forall_app. split.
      * rewrite Hsplit in Hle. apply Forall_app in Hle. destruct Hle as [_ Hle].
        eapply Forall_impl; [|exact Hle]. intros ts Hts. cbv beta in *. lra.
      * constructor; [apply Qle_refl|constructor].
    + intros before r after Hs.
      destruct (@exists_last _ (r :: after)) as (front & final & Hfl);
        [discriminate|].
      rewrite Hfl, app_assoc in Hs. apply app_inj_tail in Hs.
      destruct Hs as [Hs Hfinal].
      destruct front as [|r' front'].
      * (* [r] is the start just recorded *)
        simpl in Hfl. inversion Hfl as [[Hr Hafter]].
        rewrite app_nil_r in Hs. subst before final.
        assert (Hr' : r = now') by congruence. subst r.
        rewrite Hev, <- (app_assoc (evicted ++ removed) kept [now']).
        rewrite within_last_second_app.
        rewrite (within_last_second_none Hold'). simpl app.
        unfold within_last_second.
        eapply Nat.le_trans; [apply filter_length_le|].
        rewrite length_app. simpl. lia.
      * (* [r] was recorded before *)
        simpl in Hfl. inversion Hfl as [[Hr Hafter]]. subst r'.
        apply (Hcap before r front'). exact Hs.
Qed.

(** X12.  The limiter caps the request starts: its window never holds
    more than 500 timestamps, and whenever a request starts, at most 500
    requests, itself included, have started in the 1000 ms up to its
    start. *)
Theorem rate_limit_cap (window starts : list Q) (clock : Q) :
  limiter_run window starts clock ->
  (List.length window <= 500)%nat
  /\ (forall before r after,
         starts = before ++ r :: after ->
         (List.length (within_last_second r (before ++ [r])) <= 500)%nat).
Proof.
  intros Hrun. destruct (limiter_invariant Hrun) as (_ & Hlen & _ & Hcap).
  split; assumption.
Qed.

Lemma shift_older_all (cutoff : Q) (window : list Q) :
  Forall (fun ts => ts < cutoff) window -> shift_older cutoff window = [].
Proof.
  induction 1 as [|ts rest Hts _ IH]; [reflexivity|]. simpl. qnum.
  destruct (Qle_bool cutoff ts) eqn:Hb; cbn [negb]; props; [lra|exact IH].
Qed.

(** X13.  The limiter starves no one: a check made more than 1000 ms
    after the last clock reading clears the window and admits the
    request; and a check is refused only while the window, after the
    eviction, still holds 500 starts. *)
Theorem rate_limit_recovers (window starts : list Q) (clock : Q) :
  limiter_run window starts clock ->
  (forall now, clock + 1000 < now -> checkRateLimit now window = (true, []))
  /\ (forall now, fst (checkRateLimit now window) = false ->
                  List.length (snd (checkRateLimit now window)) = 500%nat).
Proof.
  intros Hrun. destruct (limiter_invariant Hrun) as (_ & Hlen & Hle & _).
  split.
  - intros now Hnow. unfold checkRateLimit.
    rewrite shift_older_all; [reflexivity|].
    eapply Forall_impl; [|exact Hle]. intros ts Hts. cbv beta in *.
    unfold WINDOW_MS. qnum. change (inject_Z 1000) with 1000. lra.
  - intros now Hcheck. unfold checkRateLimit in *. cbn [fst snd] in *.
    destruct (shift_older_split (now - WINDOW_MS)%num window)
      as (removed & Hsplit & _).
    assert (Hk : (List.length (shift_older (now - WINDOW_MS)%num window)
                  <= List.length window)%nat).
    { rewrite Hsplit at 2. rewrite length_app. lia. }
    destruct (Nat.lt_ge_cases
                (List.length (shift_older (now - WINDOW_MS)%num window)) 500)
      as [Hlt|Hge]; [|lia].
    apply length_lt_limit in Hlt. congruence.
Qed.

(** ** The time series *)

Lemma buildTimeSeries_unfold (results : list (RequestResult Q)) (startTime : Q) :
  buildTimeSeries results startTime
  = map (point_of startTime (bucketMap_of results startTime))
      (sort (fun a b => (a - b)%num)
         (map fst (bucketMap_of results startTime))).
Proof. reflexivity. Qed.

Lemma bucket_get_none (key : Q) (m : list (Q * Bucket (num:=Q))) :
  bucket_get key m = None
  <-> Forall (fun k => Qeq_bool k key = false) (map fst m).
Proof.
  induction m as [|[k b] m IH]; simpl.
  - split; [constructor|reflexivity].
  - qnum. destruct (Qeq_bool k key) eqn:Hk.
    + split; [discriminate|]. intros Hall. inversion Hall. congruence.
    + rewrite IH. split.
      * intros Hall. constructor; assumption.
      * intros Hall. inversion Hall. assumption.
Qed.

Lemma bucket_set_new (key : Q) (b : Bucket (num:=Q)) (m : list (Q * Bucket (num:=Q))) :
  bucket_get key m = None -> bucket_set key b m = m ++ [(key, b)].
Proof.
  induction m as [|[k b0] m IH]; simpl; [reflexivity|]. qnum.
  destruct (Qeq_bool k key); [discriminate|].
  intros Hn. rewrite (IH Hn). reflexivity.
Qed.

Lemma bucket_set_old (key : Q) (b b0 : Bucket (num:=Q))
  (m : list (Q * Bucket (num:=Q))) :
  bucket_get key m = Some b0 ->
  exists m1 k0 m2,
    m = m1 ++ (k0, b0) :: m2
    /\ bucket_set key b m = m1 ++ (k0, b) :: m2
    /\ k0 == key.
Proof.
  induction m as [|[k b1] m IH]; simpl; [discriminate|]. qnum.
  destruct (Qeq_bool k key) eqn:Hk.
  - intros Hs. inversion Hs; subst b1. exists [], k, m.
    repeat split. apply Qeq_bool_eq. exact Hk.
  - intros Hs. destruct (IH Hs) as (m1 & k0 & m2 & Hm & Hset & Hk0).
    exists ((k, b1) :: m1), k0, m2. rewrite Hm at 1. rewrite Hset.
    repeat split. exact Hk0.
Qed.

Lemma sum_of_app {A : Type} (f : A -> Q) (l1 l2 : list A) :
  sum_of f (l1 ++ l2) == sum_of f l1 + sum_of f l2.
Proof.
  induction l1 as [|x l1 IH]; simpl; [ring|]. rewrite IH. ring.
Qed.

Lemma sum_of_perm {A : Type} (f : A -> Q) (l1 l2 : list A) :
  Permutation l1 l2 -> sum_of f l1 == sum_of f l2.
Proof.
  induction 1 as [|x l1 l2 _ IH|x y l|l1 l2 l3 _ IH1 _ IH2]; simpl.
  - reflexivity.
  - rewrite IH. reflexivity.
  - ring.
  - rewrite IH1. exact IH2.
Qed.

Lemma sum_of_map {A B : Type} (f : B -> Q) (g : A -> B) (l : list A) :
  sum_of f (map g l) = sum_of (fun x => f (g x)) l.
Proof. induction l as [|x l IH]; simpl; [reflexivity|]. rewrite IH. reflexivity. Qed.

Lemma sum_of_ext {A : Type} (f g : A -> Q) (l : list A) :
  (forall x, In x l -> f x == g x) -> sum_of f l == sum_of g l.
Proof.
  induction l as [|x l IH]; intros Hfg; simpl; [reflexivity|].
  rewrite (Hfg x) by (left; reflexivity).
  rewrite IH; [reflexivity|]. intros y Hy. apply Hfg. right. exact Hy.
Qed.

Lemma bucket_key (startTime : Q) (r : RequestResult Q) :
  (Math_floor ((timestamp r - startTime) / of_Z 1000 / BUCKET_SECONDS)
   * BUCKET_SECONDS)%num
  == inject_Z (bucket_of startTime r).
Proof.
  unfold BUCKET_SECONDS, bucket_of. qnum.
  change (inject_Z 1000) with 1000. change (inject_Z 1) with 1.
  assert (He : (timestamp r - startTime) / 1000 / 1
               == (timestamp r - startTime) / 1000) by (field).
  rewrite (Qfloor_comp _ _ He). ring.
Qed.

Lemma occurrences_app (k : Q) (l1 l2 : list Q) :
  occurrences k (l1 ++ l2) = (occurrences k l1 + occurrences k l2)%nat.
Proof. unfold occurrences. rewrite filter_app. apply length_app. Qed.

Lemma occurrences_none (k key : Q) (keys : list Q) :
  key == k ->
  Forall (fun k' => Qeq_bool k' key = false) keys ->
  occurrences k keys = 0%nat.
Proof.
  intros Hk. unfold occurrences. induction 1 as [|k' keys Hk' _ IH];
    [reflexivity|].
  simpl. destruct (Qeq_bool k' k) eqn:Hb; [|exact IH].
  apply Qeq_bool_eq in Hb.
  assert (He : k' == key) by (rewrite Hb, Hk; reflexivity).
  apply Qeq_bool_iff in He. congruence.
Qed.

Lemma length_filter_snoc {A : Type} (f : A -> bool) (l : list A) (x : A) :
  inject_Z (Z.of_nat (List.length (filter f (l ++ [x]))))
  == inject_Z (Z.of_nat (List.length (filter f l)))
     + (if f x then 1 else 0).
Proof.
  rewrite filter_app, length_app, Nat2Z.inj_add, inject_Z_plus. simpl.
  destruct (f x); reflexivity.
Qed.

Lemma bucket_step_invariant (startTime : Q)
  (m : list (Q * Bucket (num:=Q))) (done : list (RequestResult Q))
  (r : RequestResult Q) :
  bucket_invariant startTime m done ->
  bucket_invariant startTime (bucket_step startTime m r) (done ++ [r]).
Proof.
  intros (Hocc & Hsucc & Hfail & Hfilled & Hkeys & Hcover).
  unfold bucket_step.
  pose proof (bucket_key startTime r) as Hkey.
  set (key := (Math_floor ((timestamp r - startTime) / of_Z 1000 / BUCKET_SECONDS)
               * BUCKET_SECONDS)%num) in *.
  assert (Hkeys' : forall keys,
             Forall (fun k => exists r0, In r0 done
                        /\ k == inject_Z (bucket_of startTime r0)) keys ->
             Forall (fun k => exists r0, In r0 (done ++ [r])
                        /\ k == inject_Z (bucket_of startTime r0)) keys).
  { intros keys Hall. eapply Forall_impl; [|exact Hall].
    intros k (r0 & Hin & Hk). exists r0. split; [|exact Hk].
    apply in_or_app. left. exact Hin. }
  destruct (bucket_get key m) as [b0|] eqn:Hget.
  - (* the bucket exists *)
    destruct (@bucket_set_old key
                {| responseTimes := responseTimes b0 ++ [responseTimeMs r];
                   b_success := if success r then (b_success b0 + 1)%num
                                else b_success b0;
                   b_fail := if success r then b_fail b0
                             else (b_fail b0 + 1)%num |} b0 m Hget)
      as (m1 & k0 & m2 & Hm & Hset & Hk0).
    rewrite Hset.
    assert (Hfst : map fst (m1 ++ (k0, b0) :: m2)
                   = map fst (m1 ++ (k0,
                       {| responseTimes := responseTimes b0 ++ [responseTimeMs r];
                          b_success := if success r then (b_success b0 + 1)%num
                                       else b_success b0;
                          b_fail := if success r then b_fail b0
                                    else (b_fail b0 + 1)%num |}) :: m2)).
    { rewrite !map_app. reflexivity. }
    rewrite Hm in Hocc, Hsucc, Hfail, Hfilled, Hkeys, Hcover.
    rewrite Hfst in Hocc, Hkeys, Hcover.
    assert (Hb0 : filled_bucket b0).
    { apply Forall_app in Hfilled. destruct Hfilled as [_ Hf].
      inversion Hf. assumption. }
    destruct Hb0 as (Hs0 & Hf0 & H1).
    rewrite sum_of_app in Hsucc, Hfail. simpl in Hsucc, Hfail.
    repeat split.
    + exact Hocc.
    + rewrite sum_of_app, length_filter_snoc. simpl. qnum.
      change (inject_Z 1) with 1. destruct (success r); lra.
    + rewrite sum_of_app, length_filter_snoc. simpl. qnum.
      change (inject_Z 1) with 1. destruct (success r); simpl; lra.
    + apply Forall_app in Hfilled. destruct Hfilled as [Hf1 Hf2].
      apply Forall_app. split; [exact Hf1|].
      inversion Hf2; subst. constructor; [|assumption].
      unfold filled_bucket. simpl. qnum. change (inject_Z 1) with 1.
      destruct (success r); repeat split; lra.
    + apply Hkeys'. exact Hkeys.
    + intros r0 Hin. apply in_app_or in Hin. destruct Hin as [Hin|[<-|[]]].
      * apply Hcover. exact Hin.
      * exists k0. split.
        -- rewrite map_app. apply in_or_app. right. left. reflexivity.
        -- rewrite Hk0. exact Hkey.
  - (* a new bucket *)
    rewrite (@bucket_set_new key _ m Hget).
    apply bucket_get_none in Hget.
    repeat split.
    + intros k. rewrite map_app, occurrences_app. simpl.
      unfold occurrences at 2. simpl.
      destruct (Qeq_bool key k) eqn:Hk.
      * apply Qeq_bool_eq in Hk. rewrite (occurrences_none Hk Hget). simpl. lia.
      * simpl. specialize (Hocc k). lia.
    + rewrite sum_of_app, length_filter_snoc. simpl. qnum.
      change (inject_Z 1) with 1. change (inject_Z 0) with 0.
      destruct (success r); lra.
    + rewrite sum_of_app, length_filter_snoc. simpl. qnum.
      change (inject_Z 1) with 1. change (inject_Z 0) with 0.
      destruct (success r); simpl; lra.
    + apply Forall_app. split; [exact Hfilled|].
      constructor; [|constructor].
      unfold filled_bucket. simpl. qnum.
      change (inject_Z 1) with 1. change (inject_Z 0) with 0.
      destruct (success r); repeat split; lra.
    + rewrite map_app. apply Forall_app. split; [apply Hkeys'; exact Hkeys|].
      constructor; [|constructor]. exists r. split; [|exact Hkey].
      apply in_or_app. right. left. reflexivity.
    + intros r0 Hin. apply in_app_or in Hin. destruct Hin as [Hin|[<-|[]]].
      * destruct (Hcover r0 Hin) as (k & Hk & Hkr). exists k. split; [|exact Hkr].
        rewrite map_app. apply in_or_app. left. exact Hk.
      * exists key. split; [|exact Hkey].
        rewrite map_app. apply in_or_app. right. left. reflexivity.
Qed.

Lemma bucketMap_invariant (results : list (RequestResult Q)) (startTime : Q) :
  bucket_invariant startTime (bucketMap_of results startTime) results.
Proof.
  unfold bucketMap_of.
  assert (Hgen : forall l m done,
             bucket_invariant startTime m done ->
             bucket_invariant startTime
               (fold_left (bucket_step startTime) l m) (done ++ l)).
  { induction l as [|r l IH]; intros m done Hinv; simpl.
    - rewrite app_nil_r. exact Hinv.
    - replace (done ++ r :: l) with ((done ++ [r]) ++ l)
        by (rewrite <- app_assoc; reflexivity).
      apply IH, bucket_step_invariant, Hinv. }
  apply (Hgen results [] []).
  unfold bucket_invariant. simpl.
  split; [intros k; unfold occurrences; simpl; lia|].
  split; [reflexivity|]. split; [reflexivity|].
  split; [constructor|]. split; [constructor|].
  intros r [].
Qed.

Lemma occurrences_perm (k : Q) (l1 l2 : list Q) :
  Permutation l1 l2 -> occurrences k l1 = occurrences k l2.
Proof.
  unfold occurrences.
  induction 1 as [|x l1 l2 _ IH|x y l|l1 l2 l3 _ IH1 _ IH2]; simpl.
  - reflexivity.
  - destruct (Qeq_bool x k); simpl; congruence.
  - destruct (Qeq_bool x k), (Qeq_bool y k); reflexivity.
  - congruence.
Qed.

Lemma occurrences_In (k x : Q) (keys : list Q) :
  In x keys -> x == k -> (1 <= occurrences k keys)%nat.
Proof.
  intros Hin Hx. unfold occurrences.
  induction keys as [|y keys IH]; [destruct Hin|]. simpl.
  destruct Hin as [->|Hin].
  - apply Qeq_bool_iff in Hx. rewrite Hx. simpl. lia.
  - specialize (IH Hin). destruct (Qeq_bool y k); simpl; lia.
Qed.

Lemma occurrences_tail (k x : Q) (keys : list Q) :
  (occurrences k keys <= occurrences k (x :: keys))%nat.
Proof. unfold occurrences. simpl. destruct (Qeq_bool x k); simpl; lia. Qed.

Lemma strictly_ascending (keys : list Q) :
  ascending keys -> (forall k, (occurrences k keys <= 1)%nat) ->
  Sorted.StronglySorted Qlt keys.
Proof.
  unfold ascending. induction 1 as [|a keys Hs IH Hall]; intros Hocc;
    constructor.
  - apply IH. intros k. specialize (Hocc k).
    pose proof (occurrences_tail k a keys). lia.
  - rewrite Forall_forall in *. intros x Hx.
    destruct (Qlt_le_dec a x) as [Hlt|Hge]; [exact Hlt|].
    assert (He : x == a) by (apply Qle_antisym; [exact Hge|apply Hall, Hx]).
    pose proof (occurrences_In keys Hx He) as H1.
    specialize (Hocc a). unfold occurrences in Hocc, H1. simpl in Hocc.
    assert (Ha : Qeq_bool a a = true) by (apply Qeq_bool_iff; reflexivity).
    rewrite Ha in Hocc. simpl in Hocc. lia.
Qed.

Lemma bucket_get_distinct (m : list (Q * Bucket (num:=Q))) (e : Q * Bucket (num:=Q)) :
  (forall k, (occurrences k (map fst m) <= 1)%nat) ->
  In e m -> bucket_get (fst e) m = Some (snd e).
Proof.
  induction m as [|[k b] m IH]; intros Hocc Hin; [destruct Hin|].
  simpl. qnum. destruct Hin as [<-|Hin].
  - simpl. assert (Hk : Qeq_bool k k = true) by (apply Qeq_bool_iff; reflexivity).
    rewrite Hk. reflexivity.
  - destruct (Qeq_bool k (fst e)) eqn:Hk.
    + exfalso. specialize (Hocc (fst e)).
      assert (H1 : (1 <= occurrences (fst e) (map fst m))%nat).
      { apply occurrences_In with (x := fst e); [|reflexivity].
        apply in_map. exact Hin. }
      unfold occurrences in Hocc, H1. simpl in Hocc. rewrite Hk in Hocc.
      simpl in Hocc. lia.
    + apply IH; [|exact Hin]. intros k0. specialize (Hocc k0).
      pose proof (occurrences_tail k0 k (map fst m)). simpl in Hocc. lia.
Qed.

Lemma point_of_bucket (startTime : Q) (m : list (Q * Bucket (num:=Q)))
  (e : Q * Bucket (num:=Q)) :
  (forall k, (occurrences k (map fst m) <= 1)%nat) ->
  In e m ->
  successCount (point_of startTime m (fst e)) = b_success (snd e)
  /\ failCount (point_of startTime m (fst e)) = b_fail (snd e)
  /\ time (point_of startTime m (fst e)) == startTime + 1000 * fst e
  /\ (filled_bucket (snd e) ->
      errorRate (point_of startTime m (fst e))
      = round2 (b_fail (snd e) / (b_success (snd e) + b_fail (snd e)) * 100)).
Proof.
  intros Hocc Hin. unfold point_of.
  rewrite (bucket_get_distinct m e Hocc Hin). cbv zeta.
  split; [reflexivity|]. split; [reflexivity|]. split.
  - simpl. qnum. change (inject_Z 1000) with 1000. ring.
  - intros (Hs & Hf & H1). cbn [errorRate]. 
    assert (Hpos : ((b_success (snd e) + b_fail (snd e) >? 0)%num) = true).
    { qnum. change (inject_Z 0) with 0.
      destruct (Qle_bool (b_success (snd e) + b_fail (snd e)) 0) eqn:Hb;
        [|reflexivity].
      apply Qle_bool_iff in Hb. lra. }
    rewrite Hpos. rewrite round2_code. reflexivity.
Qed.

Lemma sorted_keys_entries (results : list (RequestResult Q)) (startTime : Q)
  (k : Q) :
  In k (sort (fun a b => (a - b)%num)
          (map fst (bucketMap_of results startTime))) ->
  exists e, In e (bucketMap_of results startTime) /\ fst e = k.
Proof.
  intros Hin.
  apply (Permutation_in _ (sort_perm _ _)) in Hin.
  apply in_map_iff in Hin. destruct Hin as (e & He & Hin).
  exists e. split; assumption.
Qed.

(** X14. The time series conserves the results: the successes of its
    points add up to the successful results and the failures to the
    failed ones; every point holds at least one result; its error rate
    lies between 0 and 100 and has two decimals.  In the arithmetic of
    the program the error rate of a point is
    [Math.round(e * 100) / 100], where [e] is
    (failCount / (successCount + failCount)) * 100, or 0 for a point
    without a result. *)
Theorem buildTimeSeries_counts (results : list (RequestResult Q))
  (startTime : Q) :
  let series := buildTimeSeries results startTime in
  sum_of (fun p => successCount p) series
  == inject_Z (Z.of_nat (List.length (filter (fun r => success r) results)))
  /\ sum_of (fun p => failCount p) series
     == inject_Z (Z.of_nat
                    (List.length (filter (fun r => negb (success r)) results)))
  /\ Forall (fun p =>
               0 <= successCount p /\ 0 <= failCount p
               /\ 1 <= successCount p + failCount p
               /\ 0 <= errorRate p /\ errorRate p <= 100
               /\ two_decimals (errorRate p)) series
  /\ (forall (num : Type) (N : Number num) (rs : list (RequestResult num))
             (start : num),
         Forall (fun p =>
                   errorRate p
                   = round_hundredths_of
                       (if (successCount p + failCount p >? of_Z 0)%num
                        then (failCount p / (successCount p + failCount p)
                              * of_Z 100)%num
                        else of_Z 0))
           (buildTimeSeries rs start)).
Proof.
  intros series. subst series. split; [|split; [|split]];
    [rewrite buildTimeSeries_unfold..|].
  4: { intros num N rs start. unfold buildTimeSeries. cbv zeta.
       apply Forall_forall. intros p Hp. apply in_map_iff in Hp.
       destruct Hp as (k & <- & _). reflexivity. }
  all: destruct (bucketMap_invariant results startTime)
    as (Hocc & Hsucc & Hfail & Hfilled & _ & _).
  all: set (m := bucketMap_of results startTime) in *.
  - rewrite sum_of_map, (sum_of_perm _ (sort_perm _ _)), sum_of_map.
    rewrite <- Hsucc. apply sum_of_ext. intros e He.
    destruct (point_of_bucket startTime m e Hocc He) as (-> & _). reflexivity.
  - rewrite sum_of_map, (sum_of_perm _ (sort_perm _ _)), sum_of_map.
    rewrite <- Hfail. apply sum_of_ext. intros e He.
    destruct (point_of_bucket startTime m e Hocc He) as (_ & -> & _).
    reflexivity.
  - apply Forall_forall. intros p Hp. apply in_map_iff in Hp.
    destruct Hp as (k & <- & Hk).
    destruct (sorted_keys_entries results startTime k Hk) as (e & He & <-).
    fold m in He.
    destruct (point_of_bucket startTime m e Hocc He) as (Hs & Hf & _ & Herr).
    rewrite Forall_forall in Hfilled. pose proof (Hfilled e He) as Hb.
    rewrite (Herr Hb), Hs, Hf. destruct Hb as (H0s & H0f & H1).
    split; [exact H0s|]. split; [exact H0f|]. split; [exact H1|].
    destruct (@percentage_range (b_fail (snd e))
                (b_success (snd e) + b_fail (snd e))) as [Hlo Hhi]; try lra.
    split; [exact Hlo|]. split; [exact Hhi|]. apply round2_two_decimals.
Qed.

Lemma time_strictly_ascending (startTime : Q) (m : list (Q * Bucket (num:=Q)))
  (keys : list Q) :
  Sorted.StronglySorted Qlt keys ->
  Sorted.StronglySorted (fun p q => time p < time q)
    (map (point_of startTime m) keys).
Proof.
  induction 1 as [|a keys _ IH Hall]; simpl; constructor; [exact IH|].
  rewrite Forall_forall in *. intros p Hp. apply in_map_iff in Hp.
  destruct Hp as (k & <- & Hk). specialize (Hall k Hk).
  unfold point_of. simpl. qnum. change (inject_Z 1000) with 1000. lra.
Qed.

(** X15. The points of the time series come in strictly increasing
    order of time, one per one-second bucket that holds a result: the
    time of every point is the start of the bucket of some result, the
    bucket of every result has its point, and the series is empty
    exactly when there are no results. *)
Theorem buildTimeSeries_times (results : list (RequestResult Q))
  (startTime : Q) :
  let series := buildTimeSeries results startTime in
  Sorted.StronglySorted (fun p q => time p < time q) series
  /\ Forall (fun p => exists r,
               In r results
               /\ time p
                  == startTime + 1000 * inject_Z (bucket_of startTime r))
       series
  /\ (forall r, In r results ->
        exists p, In p series
                  /\ time p
                     == startTime + 1000 * inject_Z (bucket_of startTime r))
  /\ (series = [] <-> results = []).
Proof.
  intros series. subst series. rewrite buildTimeSeries_unfold.
  destruct (bucketMap_invariant results startTime)
    as (Hocc & _ & _ & _ & Hkeys & Hcover).
  set (m := bucketMap_of results startTime) in *.
  assert (Htime : forall k, time (point_of startTime m k)
                            == startTime + 1000 * k).
  { intros k. unfold point_of. simpl. qnum.
    change (inject_Z 1000) with 1000. ring. }
  assert (Hall : forall r, In r results ->
            exists p, In p (map (point_of startTime m)
                              (sort (fun a b => (a - b)%num) (map fst m)))
                      /\ time p
                         == startTime + 1000 * inject_Z (bucket_of startTime r)).
  { intros r Hr. destruct (Hcover r Hr) as (k & Hk & Hkr).
    exists (point_of startTime m k). split.
    - apply in_map.
      apply (Permutation_in _ (Permutation_sym (sort_perm _ _))). exact Hk.
    - rewrite Htime, Hkr. reflexivity. }
  split; [|split; [|split]].
  - apply time_strictly_ascending, strictly_ascending.
    + apply sort_ascending.
    + intros k. rewrite (occurrences_perm k (sort_perm _ _)). apply Hocc.
  - apply Forall_forall. intros p Hp. apply in_map_iff in Hp.
    destruct Hp as (k & <- & Hk).
    apply (Permutation_in _ (sort_perm _ _)) in Hk.
    rewrite Forall_forall in Hkeys. destruct (Hkeys k Hk) as (r & Hr & Hkr).
    exists r. split; [exact Hr|]. rewrite Htime, Hkr. reflexivity.
  - exact Hall.
  - split.
    + intros Hnil. destruct results as [|r results]; [reflexivity|].
      destruct (Hall r (or_introl eq_refl)) as (p & Hp & _).
      rewrite Hnil in Hp. destruct Hp.
    + intros Hnil. subst m. rewrite Hnil. reflexivity.
Qed.

(** X16. The reasons of an evaluation come in the order error rate,
    success rate, p95 latency, at most one for each threshold; each of
    them reports the value that the program compared and the limit that
    was set, and the program found the value strictly on the wrong side
    of that limit. *)
Theorem evaluateThresholds_reasons {num : Type} `{Number num} (now : num)
  (M : LoadTestMetrics num) (H0 : PerformanceThresholds num) :
  let reasons := ev_reasons (evaluateThresholds now M (Some H0)) in
  map (fun r => threshold r) reasons
  = filter (fun k => has_reason k reasons)
      [maxErrorRatePercent; minSuccessRatePercent; maxP95LatencyMs]
  /\ Forall (reason_reported M H0) reasons.
Proof.
  intros reasons. subst reasons.
  destruct (evaluateThresholds_computed now M H0)
    as (_ & _ & _ & _ & _ & _ & Horder & Hrep).
  split; assumption.
Qed.

Lemma excess_penalty_monotone (t per cap x y : Q) :
  0 <= per -> 0 <= cap -> x <= y ->
  (if Qlt_le_dec t x then Qmin ((x - t) / 100 * per) cap else 0)
  <= (if Qlt_le_dec t y then Qmin ((y - t) / 100 * per) cap else 0).
Proof.
  intros Hper Hcap Hxy.
  assert (Hdiv : forall u, u / 100 == u * (1 # 100)) by (intros u; field).
  assert (Hmul : forall z, t <= z -> 0 <= (z - t) / 100 * per).
  { intros z Hz. apply Qmult_le_0_compat; [|exact Hper]. rewrite Hdiv. lra. }
  destruct (Qlt_le_dec t x), (Qlt_le_dec t y).
  - apply Q.min_le_compat_r.
    apply Qmult_le_compat_r; [|exact Hper]. rewrite !Hdiv. lra.
  - lra.
  - apply Q.min_glb; [|exact Hcap]. apply Hmul. lra.
  - apply Qle_refl.
Qed.

Lemma penalties_monotone (M M' : LoadTestMetrics Q) :
  no_better M M' -> penalties M <= penalties M'.
Proof.
  intros (Hhttp & Hto & Hp95 & Havg & Hrps). unfold penalties.
  repeat apply Qplus_le_compat.
  - apply Q.min_le_compat_r. lra.
  - apply Q.min_le_compat_r. lra.
  - apply excess_penalty_monotone; [lra|lra|exact Hp95].
  - apply excess_penalty_monotone; [lra|lra|exact Havg].
  - destruct (Qlt_le_dec 0 (requestsPerSecond M)),
      (Qlt_le_dec 0 (requestsPerSecond M')); try lra.
    destruct (Qlt_le_dec (requestsPerSecond M) 1),
      (Qlt_le_dec (requestsPerSecond M') 1); lra.
Qed.

Lemma safety_score_formula_integer (M : LoadTestMetrics Q) :
  safety_score_formula M
  == inject_Z (Z.max 0 (Z.min 100 (nearest_integer (100 - penalties M)))).
Proof. unfold safety_score_formula. apply clamp_integer. Qed.

(** X17. Worse metrics never score higher: when the HTTP error rate, the
    timeout rate, the p95 and the average latency of [M'] are no lower
    than those of [M], at the same throughput, the safety score of [M']
    is at most that of [M], and its label is no better. *)
Theorem computeSafetyScore_monotone (M M' : LoadTestMetrics Q) :
  no_better M M' ->
  score (computeSafetyScore M') <= score (computeSafetyScore M)
  /\ (label (computeSafetyScore M') = SAFE ->
      label (computeSafetyScore M) = SAFE)
  /\ (label (computeSafetyScore M) = DANGEROUS ->
      label (computeSafetyScore M') = DANGEROUS).
Proof.
  intros Hworse. apply penalties_monotone in Hworse.
  assert (Hle : score (computeSafetyScore M') <= score (computeSafetyScore M)).
  { rewrite !computeSafetyScore_score, !safety_score_formula_integer.
    rewrite <- Zle_Qle.
    assert (Hn : (nearest_integer (100 - penalties M')
                  <= nearest_integer (100 - penalties M))%Z).
    { unfold nearest_integer. apply Qfloor_resp_le. lra. }
    lia. }
  split; [exact Hle|].
  rewrite !computeSafetyScore_label.
  split.
  - destruct (score (computeSafetyScore M') <? of_Z 50)%num eqn:H50';
      [discriminate|].
    destruct (score (computeSafetyScore M') <? of_Z 80)%num eqn:H80';
      [discriminate|]. intros _.
    destruct (score (computeSafetyScore M) <? of_Z 50)%num eqn:H50;
      [|destruct (score (computeSafetyScore M) <? of_Z 80)%num eqn:H80;
        [|reflexivity]];
      exfalso; props; change (inject_Z 50) with 50 in *;
      change (inject_Z 80) with 80 in *; lra.
  - destruct (score (computeSafetyScore M) <? of_Z 50)%num eqn:H50.
    + intros _.
      destruct (score (computeSafetyScore M') <? of_Z 50)%num eqn:H50';
        [reflexivity|].
      exfalso; props; change (inject_Z 50) with 50 in *; lra.
    + destruct (score (computeSafetyScore M) <? of_Z 80)%num; discriminate.
Qed.

(** X18. [updateTest] changes the state of the one test it names and
    never creates a test: it applies the updater to the state stored
    under [id], if there is one, and leaves every other entry as it
    was; after [deleteTest] the test is gone and a late update does not
    bring it back. *)
Theorem updateTest_spec {num : Type} (id : string)
  (updater : LoadTestState num -> LoadTestState num) (tests : Store num) :
  getTest id (updateTest id updater tests)
  = option_map updater (getTest id tests)
  /\ (forall id', id' <> id ->
        getTest id' (updateTest id updater tests) = getTest id' tests)
  /\ (forall id',
        getTest id' (updateTest id updater (deleteTest id tests))
        = if String.eqb id' id then None else getTest id' tests).
Proof.
  unfold updateTest, getTest, deleteTest, setTest. split; [|split].
  - destruct (tests id) eqn:Hid; simpl.
    + rewrite String.eqb_refl. reflexivity.
    + exact Hid.
  - intros id' Hne. apply String.eqb_neq in Hne.
    destruct (tests id); [rewrite Hne|]; reflexivity.
  - intros id'. rewrite String.eqb_refl. reflexivity.
Qed.

Lemma existsb_eqb_In (id : string) (l : list string) :
  existsb (String.eqb id) l = true <-> In id l.
Proof.
  rewrite existsb_exists. split.
  - intros (x & Hx & Hb). apply String.eqb_eq in Hb. subst x. exact Hx.
  - intros Hin. exists id. split; [exact Hin|apply String.eqb_refl].
Qed.

(** X19. Selecting tests for comparison keeps at most two distinct ids:
    from a selection without repetition of at most two ids,
    [toggleCompare] yields such a selection again; it holds [id] exactly
    when [id] was not selected before, and any other id it holds was
    selected before. *)
Theorem toggleCompare_selection (id : string) (prev : list string) :
  NoDup prev -> (List.length prev <= 2)%nat ->
  NoDup (toggleCompare id prev)
  /\ (List.length (toggleCompare id prev) <= 2)%nat
  /\ (In id (toggleCompare id prev) <-> ~ In id prev)
  /\ (forall x, x <> id -> In x (toggleCompare id prev) -> In x prev).
Proof.
  intros Hnd Hlen. unfold toggleCompare.
  destruct (existsb (String.eqb id) prev) eqn:Hin.
  - apply existsb_eqb_In in Hin. split; [|split; [|split]].
    + apply NoDup_filter. exact Hnd.
    + pose proof (filter_length_le (fun x => negb (String.eqb x id)) prev). lia.
    + split.
      * intros Hf. apply filter_In in Hf. destruct Hf as [_ Hf].
        rewrite String.eqb_refl in Hf. discriminate.
      * intros Hn. contradiction.
    + intros x _ Hx. apply filter_In in Hx. tauto.
  - assert (Hnot : ~ In id prev).
    { intros Hi. apply existsb_eqb_In in Hi. congruence. }
    destruct prev as [|a [|b [|c prev]]]; simpl in Hlen; try lia.
    + simpl. split; [repeat constructor; intros []|].
      split; [lia|]. split; [tauto|]. intros x Hx [He|[]]. congruence.
    + simpl in *. split.
      * constructor; [|repeat constructor; intros []].
        intros [He|[]]. apply Hnot. left. symmetry. exact He.
      * split; [lia|]. split; [tauto|].
        intros x Hx [He|[He|[]]]; [left; exact He|congruence].
    + simpl in *. split.
      * constructor; [|repeat constructor; intros []].
        intros [He|[]]. apply Hnot. right. left. symmetry. exact He.
      * split; [lia|]. split; [tauto|].
        intros x Hx [He|[He|[]]]; [right; left; exact He|congruence].
Qed.

(** X20. Among the results of requests as the engine records them, the
    timeouts are failures, so the timeout rate of the metrics never
    exceeds their error rate; the throughput has two decimals, is never
    negative for a non-negative duration, and is 0 when the duration is
    not positive.  In the arithmetic of the program the throughput for a
    duration that the program finds positive is
    [Math.round((total / duration) * 100) / 100]. *)
Theorem computeMetrics_rates (results : list (RequestResult Q)) (d : Q) :
  let M := computeMetrics results d in
  (Forall tagged_only_on_failure results ->
   timeoutRatePercentage M <= errorRatePercentage M)
  /\ two_decimals (requestsPerSecond M)
  /\ 0 <= requestsPerSecond M
  /\ (d <= 0 -> requestsPerSecond M = 0)
  /\ (forall (num : Type) (N : Number num) (rs : list (RequestResult num))
             (duration : num),
         (duration >? of_Z 0)%num = true ->
         requestsPerSecond (computeMetrics rs duration)
         = round_hundredths_of (len rs / duration)%num).
Proof.
  intros M. subst M.
  assert (Hlast : forall (num : Type) (N : Number num)
                         (rs : list (RequestResult num)) (duration : num),
             (duration >? of_Z 0)%num = true ->
             requestsPerSecond (computeMetrics rs duration)
             = round_hundredths_of (len rs / duration)%num).
  { intros num N rs duration Hd. unfold computeMetrics.
    cbn [requestsPerSecond]. rewrite Hd. reflexivity. }
  unfold computeMetrics.
  cbn [errorRatePercentage timeoutRatePercentage requestsPerSecond].
  unfold len. rewrite !round2_code. qnum.
  change (inject_Z 100) with 100.
  remember (inject_Z (Z.of_nat (List.length results))) as total eqn:Etot.
  assert (Htot : 0 <= total).
  { subst total. change 0 with (inject_Z 0). rewrite <- Zle_Qle. lia. }
  split; [|split; [|split; [|split]]].
  - intros Htag. pose proof (timeouts_and_successes Htag) as Hle.
    destruct (Qle_bool total (inject_Z 0)) eqn:Hb; cbn [negb]; props;
      [apply Qle_refl|].
    apply round2_monotone.
    apply Qmult_le_compat_r; [|lra].
    apply Qmult_le_compat_r; [|apply Qlt_le_weak, Qinv_lt_0_compat; lra].
    subst total. unfold Qminus.
    rewrite <- inject_Z_opp, <- inject_Z_plus, <- Zle_Qle. lia.
  - destruct (Qle_bool d (inject_Z 0)); cbn [negb];
      [apply zero_two_decimals|apply round2_two_decimals].
  - destruct (Qle_bool d (inject_Z 0)) eqn:Hb; cbn [negb]; props;
      [apply Qle_refl|].
    rewrite <- (round2_fixed zero_two_decimals). apply round2_monotone.
    apply Qmult_le_0_compat; [exact Htot|].
    apply Qlt_le_weak, Qinv_lt_0_compat. exact Hb.
  - intros Hd. apply Qle_bool_iff in Hd. change 0 with (inject_Z 0) in Hd.
    rewrite Hd. reflexivity.
  - exact Hlast.
Qed.

Lemma is_nullish_number (v : option (Json Q)) :
  is_nullish v = true -> as_number v = None.
Proof. destruct v as [[]|]; simpl; congruence. Qed.

(** X21. The thresholds that the start handler reads from a request are
    never an empty set, and every limit in them is the number the
    request gave, not negative for the error and the success rate and
    positive for the p95 latency; the handler reads no thresholds only
    when the request gives no such number. *)
Theorem parseThresholds_valid (body : list (string * Json Q)) :
  let sent key := as_number (property body key) in
  match parseThresholds body with
  | Some t =>
      (0 < keys_length t)%nat
      /\ (forall l, th_maxErrorRatePercent t = Some l
                    <-> sent "maxErrorRatePercent"%string = Some l /\ 0 <= l)
      /\ (forall l, th_maxP95LatencyMs t = Some l
                    <-> sent "maxP95LatencyMs"%string = Some l /\ 0 < l)
      /\ (forall l, th_minSuccessRatePercent t = Some l
                    <-> sent "minSuccessRatePercent"%string = Some l /\ 0 <= l)
  | None =>
      (forall l, sent "maxErrorRatePercent"%string = Some l -> l < 0)
      /\ (forall l, sent "maxP95LatencyMs"%string = Some l -> l <= 0)
      /\ (forall l, sent "minSuccessRatePercent"%string = Some l -> l < 0)
  end.
Proof.
  intros sent. subst sent. unfold parseThresholds. cbv zeta.
  destruct (is_nullish (property body "maxErrorRatePercent")
            && is_nullish (property body "maxP95LatencyMs")
            && is_nullish (property body "minSuccessRatePercent")) eqn:Hnull.
  - apply andb_prop in Hnull. destruct Hnull as [Hnull H3].
    apply andb_prop in Hnull. destruct Hnull as [H1 H2].
    rewrite (is_nullish_number _ H1), (is_nullish_number _ H2),
      (is_nullish_number _ H3).
    repeat split; intros l Hl; discriminate.
  - clear Hnull.
    destruct (as_number (property body "maxErrorRatePercent")) as [e|];
      destruct (as_number (property body "maxP95LatencyMs")) as [p|];
      destruct (as_number (property body "minSuccessRatePercent")) as [s|];
      qnum;
      repeat match goal with
        | |- context [Qle_bool ?a ?b] => destruct (Qle_bool a b) eqn:?
        end; cbn; props.
    all: repeat split; try lia; intros.
    all: repeat match goal with
           | Hl : Some _ = Some _ |- _ => inversion Hl; subst; clear Hl
           | Hl : None = Some _ |- _ => discriminate Hl
           | Hl : _ /\ _ |- _ => destruct Hl
           end.
    all: try assumption; try reflexivity; try lra.
Qed.

Lemma clamp_bounds (lo hi x : Q) :
  lo <= hi ->
  lo <= Math_max lo (Math_min hi x) /\ Math_max lo (Math_min hi x) <= hi.
Proof.
  intros Hle.
  destruct (Math_min_cases hi x) as [[Hc ->]|[Hc ->]];
    [destruct (Math_max_cases lo x) as [[Hd ->]|[Hd ->]]
    |destruct (Math_max_cases lo hi) as [[Hd ->]|[Hd ->]]]; lra.
Qed.

Lemma truthy_property_or (body : list (string * Json Q)) (key : string) :
  truthy_value (Some (property_or body key (JBool false)))
  = truthy_value (property body key).
Proof. unfold property_or. destruct (property body key); reflexivity. Qed.

(** X22. The start handler starts a test only for a target URL that is
    a non-empty string and passes the URL check after trimming, and only
    when the request is confirmed or headless; the test then runs with
    1 to 100 concurrent users, for 1 to 300 seconds, with a request
    timeout of 1000 to 60000 ms, whatever numbers the request gave. *)
Theorem POST_start_checked (trim : string -> string)
  (LOCALHOST_REGEX_test PRIVATE_IP_REGEX_test URL_parses : string -> bool)
  (Number_of_string : string -> option Q)
  (Number_of_array : list (Json Q) -> option Q)
  (body : list (string * Json Q)) (config : LoadTestConfig Q) :
  POST_start trim LOCALHOST_REGEX_test PRIVATE_IP_REGEX_test URL_parses
    Number_of_string Number_of_array body = Started config ->
  (exists url, property body "targetUrl" = Some (JString url)
               /\ url <> ""%string /\ targetUrl config = trim url)
  /\ isUrlAllowed trim LOCALHOST_REGEX_test PRIVATE_IP_REGEX_test URL_parses
       (targetUrl config) = true
  /\ (truthy_value (property body "headless") = true
      \/ truthy_value (property body "confirmed") = true)
  /\ (1 <= concurrentUsers config /\ concurrentUsers config <= 100)
  /\ (1 <= durationSeconds config /\ durationSeconds config <= 300)
  /\ (1000 <= requestTimeoutMs config /\ requestTimeoutMs config <= 60000)
  /\ thresholds config = parseThresholds body
  /\ loadPattern config = parseLoadPattern body.
Proof.
  unfold POST_start. cbv zeta. rewrite !truthy_property_or.
  destruct (property body "targetUrl") as [[| | |url| |]|]; try discriminate.
  destruct (String.eqb url "") eqn:Hempty; [discriminate|].
  destruct (isUrlAllowed trim LOCALHOST_REGEX_test PRIVATE_IP_REGEX_test
              URL_parses (trim url)) eqn:Hallowed; cbn [negb];
    [|discriminate].
  destruct (truthy_value (property body "headless")) eqn:Hheadless;
    destruct (truthy_value (property body "confirmed")) eqn:Hconfirmed;
    cbn [negb andb]; try discriminate.
  all: intros Hstarted; inversion Hstarted; subst config; clear Hstarted;
    cbn [targetUrl concurrentUsers durationSeconds requestTimeoutMs
         thresholds loadPattern].
  all: (split; [exists url; split; [reflexivity|];
                split; [apply String.eqb_neq; exact Hempty|reflexivity]|]).
  all: (split; [exact Hallowed|]).
  all: (split; [auto|]).
  all: (split; [apply clamp_bounds; vm_compute; discriminate|]).
  all: (split; [apply clamp_bounds; vm_compute; discriminate|]).
  all: (split; [apply clamp_bounds; vm_compute; discriminate|]).
  all: split; reflexivity.
Qed.

(** X23. What the page sends is what the handler reads: for every state
    of the form, the load pattern that the start handler parses from the
    request of the page is the pattern of the page, whose preview the
    user saw, except that a fixed concurrency arrives as a pattern of
    that type and not as no pattern; either way both give the same
    concurrency at every moment and the same delay between requests. *)
Theorem form_pattern_round_trip {num : Type} `{Number num}
  (trim : string -> string) (f : FormState (num:=num))
  (timeSinceStartMs durationSeconds defaultConcurrency : num) :
  let sent := parseLoadPattern (request_body trim f) in
  (form_loadPatternType f <> fixed_concurrency -> sent = form_loadPattern f)
  /\ (form_loadPatternType f = fixed_concurrency ->
      form_loadPattern f = None
      /\ sent = Some {| type := fixed_concurrency;
                        targetRps := None;
                        rampUpSeconds := None;
                        spikeConcurrency := None;
                        spikeDurationSeconds := None |})
  /\ getConcurrencyAtWithDuration sent timeSinceStartMs durationSeconds
       defaultConcurrency
     = getConcurrencyAtWithDuration (form_loadPattern f) timeSinceStartMs
         durationSeconds defaultConcurrency
  /\ getDelayMs sent defaultConcurrency
     = getDelayMs (form_loadPattern f) defaultConcurrency.
Proof.
  destruct f as [url m c d rt ty rps ramp sc sd e p s].
  unfold request_body, form_loadPattern, parseLoadPattern.
  cbn [form_targetUrl form_method form_concurrentUsers form_durationSeconds
       form_requestTimeoutMs form_loadPatternType form_targetRps
       form_rampUpSeconds form_spikeConcurrency form_spikeDurationSeconds
       form_maxErrorRatePercent form_maxP95LatencyMs
       form_minSuccessRatePercent].
  destruct ty, e as [e|], p as [p|], s as [s|]; cbn;
    repeat split; try reflexivity; try congruence; intros; discriminate.
Qed.

(** X24. The thresholds that the start handler parses from the request
    of the page are the thresholds of the page, when the limits entered
    are ones the handler accepts (no negative rate, a positive p95
    latency). *)
Theorem form_thresholds_round_trip (trim : string -> string)
  (f : FormState (num:=Q)) :
  valid_limits f ->
  parseThresholds (request_body trim f) = form_thresholds f.
Proof.
  destruct f as [url m c d rt ty rps ramp sc sd e p s].
  unfold valid_limits, request_body, form_thresholds, parseThresholds.
  cbn [form_targetUrl form_method form_concurrentUsers form_durationSeconds
       form_requestTimeoutMs form_loadPatternType form_targetRps
       form_rampUpSeconds form_spikeConcurrency form_spikeDurationSeconds
       form_maxErrorRatePercent form_maxP95LatencyMs
       form_minSuccessRatePercent].
  intros (He & Hp & Hs).
  assert (He' : forall l, e = Some l -> Qle_bool 0 l = true).
  { intros l Hl. apply Qle_bool_iff, He, Hl. }
  assert (Hp' : forall l, p = Some l -> Qle_bool l 0 = false).
  { intros l Hl. specialize (Hp l Hl).
    destruct (Qle_bool l 0) eqn:Hb; [|reflexivity].
    apply Qle_bool_iff in Hb. lra. }
  assert (Hs' : forall l, s = Some l -> Qle_bool 0 l = true).
  { intros l Hl. apply Qle_bool_iff, Hs, Hl. }
  clear He Hp Hs.
  destruct ty, e as [e|], p as [p|], s as [s|]; cbn; qnum;
    change (inject_Z 0) with 0;
    repeat match goal with
      | |- context [Qle_bool 0 e] => rewrite (He' e eq_refl)
      | |- context [Qle_bool p 0] => rewrite (Hp' p eq_refl)
      | |- context [Qle_bool 0 s] => rewrite (Hs' s eq_refl)
      end; reflexivity.
Qed.

Lemma filter_all {A : Type} (f : A -> bool) (l : list A) :
  Forall (fun x => f x = true) l -> filter f l = l.
Proof.
  induction 1 as [|x l Hx _ IH]; simpl; [reflexivity|].
  rewrite Hx, IH. reflexivity.
Qed.

Lemma round2_zero (x : Q) : x == 0 -> round2 x == 0.
Proof.
  intros Hx. unfold round2.
  assert (He : x * 100 + (1 # 2) == 1 # 2) by (rewrite Hx; ring).
  rewrite (Qfloor_comp _ _ He). reflexivity.
Qed.

Lemma all_success_rates (results : list (RequestResult Q)) (d : Q) :
  Forall (fun r => success r = true) results ->
  errorRatePercentage (computeMetrics results d) == 0
  /\ successRate (computeMetrics results d) == 100.
Proof.
  intros Hall. unfold successRate, computeMetrics.
  cbn [errorRatePercentage totalRequests successfulRequests].
  rewrite (filter_all (fun r => success r) Hall).
  unfold len. rewrite !round2_code. qnum.
  remember (inject_Z (Z.of_nat (List.length results))) as total eqn:Etot.
  split.
  - destruct (Qle_bool total (inject_Z 0)) eqn:Hb; cbn [negb]; props;
      [reflexivity|].
    apply round2_zero. field. lra.
  - destruct (Qlt_le_dec 0 total); [|reflexivity]. field. lra.
Qed.

(** X25. A run without a failed request is never stopped: whatever the
    response times, its metrics have the error rate 0 and the success
    rate 100, so against limits that can be met (a greatest error rate
    that is not negative, a least success rate of at most 100) the
    evaluation has no reason for either of them, its verdict is not
    FAIL, and [shouldAutoStop] is false. *)
Theorem all_success_never_stops (now d : Q) (results : list (RequestResult Q))
  (H : PerformanceThresholds Q) :
  Forall (fun r => success r = true) results ->
  attainable H ->
  let M := computeMetrics results d in
  let ev := evaluateThresholds now M (Some H) in
  errorRatePercentage M == 0
  /\ has_reason maxErrorRatePercent (ev_reasons ev) = false
  /\ has_reason minSuccessRatePercent (ev_reasons ev) = false
  /\ ev_verdict ev <> FAIL
  /\ shouldAutoStop (ev_verdict ev) (ev_reasons ev) = false.
Proof.
  intros Hall (Herr & Hsucc) M ev.
  destruct (all_success_rates d Hall) as [H0 H100]. fold M in H0, H100.
  destruct (evaluateThresholds_present now M H)
    as (Hre & Hrs & _ & Hverdict & _). fold ev in Hre, Hrs, Hverdict.
  assert (He : has_reason maxErrorRatePercent (ev_reasons ev) = false).
  { apply not_true_is_false. intros Hr. apply Hre in Hr.
    destruct Hr as (l & Hl & Hlt). specialize (Herr l Hl). lra. }
  assert (Hs : has_reason minSuccessRatePercent (ev_reasons ev) = false).
  { apply not_true_is_false. intros Hr. apply Hrs in Hr.
    destruct Hr as (l & Hl & Hlt). specialize (Hsucc l Hl). lra. }
  assert (Hv : ev_verdict ev <> FAIL).
  { rewrite Hverdict, He, Hs. cbn [orb].
    destruct (has_reason maxP95LatencyMs (ev_reasons ev)); congruence. }
  split; [exact H0|]. split; [exact He|]. split; [exact Hs|].
  split; [exact Hv|].
  destruct (ev_verdict ev); try reflexivity. contradiction.
Qed.

(** X26. The two URL checks agree up to parsing: a URL that
    [isUrlAllowed] accepts has no block reason, and a URL without a
    block reason is accepted exactly when [new URL] can parse it, which
    is the one case where the handlers fall back on their own error
    text. *)
Theorem block_reason_consistent (trim : string -> string)
  (LOCALHOST_REGEX_test PRIVATE_IP_REGEX_test URL_parses : string -> bool)
  (url : string) :
  (isUrlAllowed trim LOCALHOST_REGEX_test PRIVATE_IP_REGEX_test URL_parses url
   = true ->
   getUrlBlockReason trim LOCALHOST_REGEX_test PRIVATE_IP_REGEX_test url = None)
  /\ (getUrlBlockReason trim LOCALHOST_REGEX_test PRIVATE_IP_REGEX_test url
      = None ->
      isUrlAllowed trim LOCALHOST_REGEX_test PRIVATE_IP_REGEX_test URL_parses
        url
      = URL_parses (trim url)).
Proof.
  unfold isUrlAllowed, getUrlBlockReason. cbv zeta.
  destruct (String.eqb (trim url) "") eqn:Hempty.
  - apply String.eqb_eq in Hempty. rewrite Hempty. cbn.
    split; discriminate.
  - destruct (negb (startsWith (trim url) "http://")
              && negb (startsWith (trim url) "https://"));
      [split; discriminate|].
    destruct (LOCALHOST_REGEX_test (trim url)); [split; discriminate|].
    destruct (PRIVATE_IP_REGEX_test (trim url)); [split; discriminate|].
    split; reflexivity.
Qed.

(** * Further instances *)

(** ** X2: a first record, and the lookup of another id *)

Lemma getHistoryRecord_other_ids_witness :
  "test_0"%string <> h_id sample_record
  /\ getHistoryRecord "test_0" (addToHistory sample_record [])
     = getHistoryRecord "test_0" [].
Proof.
  assert (Hne : "test_0"%string <> h_id sample_record) by discriminate.
  assert (Hlen : (List.length (@nil (TestHistoryRecord Q)) < 100)%nat)
    by (simpl; lia).
  split; [exact Hne|].
  exact (proj1 (@getHistoryRecord_other_ids Q sample_record [] "test_0" Hne)
           Hlen).
Defined.

(** ** X4 and X5: a test after its first request *)

Lemma running_test_monotone_witness :
  run_continues (initial_state "test_1" sample_config 0) false
    (fst after_one_success) (snd after_one_success)
  /\ id (fst after_one_success) = "test_1"%string.
Proof.
  assert (Hrun : run_continues (initial_state "test_1" sample_config 0) false
                   (fst after_one_success) (snd after_one_success)).
  { unfold after_one_success. apply continues_request, continues_here. }
  split; [exact Hrun|].
  exact (proj1 (running_test_monotone Hrun)).
Defined.

Lemma auto_stop_of_running_test_witness :
  run_state "test_2" (config_with (error_rate_limit (of_Z 10 : float)))
    (of_Z 0) (fst after_first_failure) (snd after_first_failure)
  /\ exceeds_maxErrorRate (metrics (fst after_first_failure))
       (error_rate_limit (of_Z 10 : float))
  /\ snd (after_first_failure (num:=float)) = true
  /\ thresholdVerdict (fst (after_first_failure (num:=float))) = Some FAIL.
Proof.
  assert (Hrun : run_state "test_2"
                   (config_with (error_rate_limit (of_Z 10 : float)))
                   (of_Z 0) (fst after_first_failure)
                   (snd after_first_failure)).
  { unfold after_first_failure. apply run_request, run_start. }
  assert (Hv : exceeds_maxErrorRate (metrics (fst after_first_failure))
                 (error_rate_limit (of_Z 10 : float))).
  { exists (of_Z 10). split; [reflexivity|]. vm_compute. reflexivity. }
  assert (Hne : requestResults (fst (after_first_failure (num:=float))) <> [])
    by discriminate.
  split; [exact Hrun|]. split; [exact Hv|].
  exact (proj1 (proj2 (auto_stop_of_running_test Hrun)) _ eq_refl Hne
           (or_introl Hv)).
Defined.

(** ** X7: a test of 58 successes in 100 requests that asks for a success
    rate of at least 58, completed on binary64 *)

Lemma headless_exit_code_witness :
  let T := fst (finalize (of_Z 10000) (of_Z 10000)
                  (boundary_state (num:=float)) []) in
  status (boundary_state (num:=float)) = running
  /\ below_minSuccessRate (metrics T) (success_rate_limit (of_Z 58))
  /\ exitCode (headless_verdict T) = 2%Z.
Proof.
  intros T.
  assert (Hs : status (boundary_state (num:=float)) = running) by reflexivity.
  assert (Hbelow : below_minSuccessRate (metrics T)
                     (success_rate_limit (of_Z 58))).
  { exists (of_Z 58). split; [reflexivity|]. vm_compute. reflexivity. }
  split; [exact Hs|]. split; [exact Hbelow|].
  exact (proj2 (proj1 (proj2 (@headless_exit_code float _ (of_Z 10000)
                                (of_Z 10000) boundary_state [] Hs)
                         (success_rate_limit (of_Z 58)) eq_refl))
           (or_intror Hbelow)).
Defined.

(** ** X10 and X11: a spike of 20 over 3 seconds, and a preview of 10
    seconds *)

Lemma getConcurrencyAt_ignores_spike_witness :
  0 <= 5000
  /\ getConcurrencyAt (Some (spike_of 20 3)) 5000 10 = 10.
Proof.
  assert (Ht : 0 <= 5000) by discriminate.
  split; [exact Ht|].
  exact (proj1 (@getConcurrencyAt_ignores_spike (Some (spike_of 20 3)) 5000 10
                  Ht) (spike_of 20 3) eq_refl eq_refl).
Defined.

Lemma getPatternPreview_points_witness :
  0 <= 10
  /\ timeSec (last (getPatternPreview (Some (ramp_up_over 10)) 10 5)
                {| timeSec := 0; concurrency := 5 |}) == 10.
Proof.
  assert (HD : 0 <= 10) by discriminate.
  split; [exact HD|].
  exact (proj1 (proj2 (@getPatternPreview_points (Some (ramp_up_over 10)) 10 5
                         HD))).
Defined.

(** ** X12 and X13: the limiter after one request at 5 ms *)

Lemma rate_limit_cap_witness :
  limiter_run (recordRequestSent 5 (snd (checkRateLimit 0 []))) ([] ++ [5]) 5
  /\ (List.length (recordRequestSent 5%Q (snd (checkRateLimit 0%Q [])))
      <= 500)%nat.
Proof.
  assert (Hrun : limiter_run (recordRequestSent 5 (snd (checkRateLimit 0 [])))
                   ([] ++ [5]) 5).
  { apply (@limiter_admitted Q _ [] [] 0 0 5);
      [apply limiter_start|reflexivity|reflexivity|reflexivity]. }
  split; [exact Hrun|].
  exact (proj1 (rate_limit_cap Hrun)).
Defined.

Lemma rate_limit_recovers_witness :
  limiter_run (recordRequestSent 5 (snd (checkRateLimit 0 []))) ([] ++ [5]) 5
  /\ 5 + 1000 < 2000
  /\ checkRateLimit 2000 (recordRequestSent 5 (snd (checkRateLimit 0 [])))
     = (true, []).
Proof.
  assert (Hrun : limiter_run (recordRequestSent 5 (snd (checkRateLimit 0 [])))
                   ([] ++ [5]) 5).
  { apply (@limiter_admitted Q _ [] [] 0 0 5);
      [apply limiter_start|reflexivity|reflexivity|reflexivity]. }
  assert (Hlate : 5 + 1000 < 2000) by reflexivity.
  split; [exact Hrun|]. split; [exact Hlate|].
  exact (proj1 (rate_limit_recovers Hrun) 2000 Hlate).
Defined.

(** ** X17: no HTTP error against half of the requests failing *)

Lemma computeSafetyScore_monotone_witness :
  no_better (metrics_with_error_rate 0) (metrics_with_error_rate 50)
  /\ score (computeSafetyScore (metrics_with_error_rate 50))
     <= score (computeSafetyScore (metrics_with_error_rate 0)).
Proof.
  assert (Hworse : no_better (metrics_with_error_rate 0)
                     (metrics_with_error_rate 50)).
  { unfold no_better. repeat split; vm_compute; discriminate. }
  split; [exact Hworse|].
  exact (proj1 (computeSafetyScore_monotone Hworse)).
Defined.

(** ** X19: a third test, selected when two are *)

Lemma toggleCompare_selection_witness :
  NoDup ["test_1"; "test_2"]%string
  /\ toggleCompare "test_3" ["test_1"; "test_2"]%string
     = ["test_2"; "test_3"]%string
  /\ NoDup (toggleCompare "test_3" ["test_1"; "test_2"]%string).
Proof.
  assert (Hnd : NoDup ["test_1"; "test_2"]%string).
  { constructor; [|constructor; [|constructor]].
    - intros [He|[]]. discriminate He.
    - intros []. }
  assert (Hlen : (List.length ["test_1"; "test_2"]%string <= 2)%nat)
    by (simpl; lia).
  split; [exact Hnd|]. split; [reflexivity|].
  exact (proj1 (toggleCompare_selection "test_3" Hnd Hlen)).
Defined.

(** ** X22 and X24: the request of a form with two limits and 500 users *)

Lemma POST_start_checked_witness :
  POST_start no_trim no_match no_match all_parse no_number no_number
    (request_body no_trim form_with_limits)
  = Started config_of_form_with_limits
  /\ concurrentUsers config_of_form_with_limits <= 100.
Proof.
  assert (Hstarted : POST_start no_trim no_match no_match all_parse no_number
                       no_number (request_body no_trim form_with_limits)
                     = Started config_of_form_with_limits)
    by reflexivity.
  split; [exact Hstarted|].
  exact (proj2 (proj1 (proj2 (proj2 (proj2
           (@POST_start_checked no_trim no_match no_match all_parse no_number
              no_number _ _ Hstarted)))))).
Defined.

Lemma form_thresholds_round_trip_witness :
  valid_limits form_with_limits
  /\ parseThresholds (request_body no_trim form_with_limits)
     = form_thresholds form_with_limits.
Proof.
  assert (Hvalid : valid_limits form_with_limits).
  { unfold valid_limits. repeat split; intros l Hl; inversion Hl; subst;
      first [reflexivity|vm_compute; discriminate]. }
  split; [exact Hvalid|].
  exact (form_thresholds_round_trip no_trim Hvalid).
Defined.

(** ** X25: scenario S6 against an error rate of at most 0 *)

Lemma all_success_never_stops_witness :
  let M := computeMetrics (num:=Q) scenario_S6 10 in
  let ev := evaluateThresholds 0 M (Some (only_maxErrorRate 0)) in
  Forall (fun r => success r = true) (scenario_S6 (num:=Q))
  /\ attainable (only_maxErrorRate 0)
  /\ errorRatePercentage M == 0
  /\ shouldAutoStop (ev_verdict ev) (ev_reasons ev) = false.
Proof.
  intros M ev.
  assert (Hall : Forall (fun r => success r = true) (scenario_S6 (num:=Q))).
  { repeat constructor. }
  assert (Hatt : attainable (only_maxErrorRate 0)).
  { unfold attainable. split; intros l Hl; inversion Hl; subst.
    vm_compute. discriminate. }
  split; [exact Hall|]. split; [exact Hatt|].
  split.
  - exact (proj1 (@all_success_never_stops 0 10 scenario_S6
                    (only_maxErrorRate 0) Hall Hatt)).
  - exact (proj2 (proj2 (proj2 (proj2
             (@all_success_never_stops 0 10 scenario_S6
                (only_maxErrorRate 0) Hall Hatt))))).
Defined.
